(** * playwright-ts: table-cell resolution and page actions

    A shallow embedding of [src/helperUtils/WebTableHelper.ts],
    [src/pages/commonUserActionsPage.ts] and [src/pages/webTablePage.ts].

    - JavaScript strings are sequences of UTF-16 code units; the model keeps
      the code units below 256 (Latin-1), one [ascii] each.
    - The browser maps page handles to pages, each answering locator
      queries; a Playwright call is a primitive that resolves its locator
      there, lets the clock advance and is appended to the log of calls.
      Synchronous code takes no time, and the clock never goes back.
    - [test.step(title, body)] returns what [body] returns, [console.log] and
      [test.info().attach] write to the report only: they do not appear. *)

From Stdlib Require Import ZArith List Bool Ascii String Lia.
From Stdlib Require Import Numbers.DecimalString.
Import ListNotations.

Local Open Scope string_scope.
Local Open Scope Z_scope.

(** ** JavaScript strings *)

Module JsString.

(** Code units that [String.prototype.trim] strips, among those below 256:
    TAB, LF, VT, FF, CR, SPACE and NO-BREAK SPACE. *)
Definition isWhiteSpace (c : ascii) : bool :=
  match N_of_ascii c with
  | 9 | 10 | 11 | 12 | 13 | 32 | 160 => true
  | _ => false
  end%N.

(** Lower-case mapping of one code unit: A-Z, and the Latin-1 capitals
    U+00C0-U+00DE except the multiplication sign U+00D7. *)
Definition lowerChar (c : ascii) : ascii :=
  let n := N_of_ascii c in
  if ((65 <=? n) && (n <=? 90))%N then ascii_of_N (n + 32)
  else if ((192 <=? n) && (n <=? 222) && negb (n =? 215))%N
       then ascii_of_N (n + 32)
  else c.

Fixpoint toLowerCase (s : string) : string :=
  match s with
  | EmptyString => EmptyString
  | String c r => String (lowerChar c) (toLowerCase r)
  end.

Definition isEmpty (s : string) : bool :=
  match s with EmptyString => true | _ => false end.

Fixpoint trimStart (s : string) : string :=
  match s with
  | EmptyString => EmptyString
  | String c r => if isWhiteSpace c then trimStart r else s
  end.

Fixpoint trimEnd (s : string) : string :=
  match s with
  | EmptyString => EmptyString
  | String c r =>
      let r' := trimEnd r in
      if isWhiteSpace c && isEmpty r' then EmptyString else String c r'
  end.

Definition trim (s : string) : string := trimEnd (trimStart s).

Fixpoint startsWith (s t : string) : bool :=
  match t, s with
  | EmptyString, _ => true
  | String _ _, EmptyString => false
  | String b t', String a s' => Ascii.eqb a b && startsWith s' t'
  end.

(** [s.includes(t)]: [t] occurs in [s] at some position. *)
Fixpoint includes (s t : string) : bool :=
  startsWith s t ||
  match s with
  | EmptyString => false
  | String _ s' => includes s' t
  end.

(** [xs.join(sep)]. *)
Definition join (sep : string) (xs : list string) : string :=
  String.concat sep xs.

(** [Array.prototype.findIndex]: the first index whose element satisfies
    [p], or -1. *)
Fixpoint findIndexFrom {A} (p : A -> bool) (i : Z) (xs : list A) : Z :=
  match xs with
  | [] => -1
  | x :: r => if p x then i else findIndexFrom p (i + 1) r
  end.

Definition findIndex {A} (p : A -> bool) (xs : list A) : Z :=
  findIndexFrom p 0 xs.

(** Decimal text of an integer, as a template literal prints it. *)
Definition ofZ (z : Z) : string := NilEmpty.string_of_int (Z.to_int z).

End JsString.
Import JsString.

(** ** WebTableHelper: normalisation and matching *)

Inductive MatchMode := exact | partial.

(** [normalize(text)]: [text.toLowerCase().trim()]. *)
Definition normalize (text : string) : string := trim (toLowerCase text).

(** [match(a, b, mode)]. *)
Definition match_ (a b : string) (mode : MatchMode) : bool :=
  let A := normalize a in
  let B := normalize b in
  match mode with
  | exact => String.eqb A B
  | partial => includes A B
  end.

(** The matching rule in the words of the specification: trim first, then
    lower-case. *)
Definition spec_match (a b : string) (mode : MatchMode) : Prop :=
  match mode with
  | exact => toLowerCase (trim a) = toLowerCase (trim b)
  | partial =>
      exists pre post,
        toLowerCase (trim a) = pre ++ toLowerCase (trim b) ++ post
  end.

(** ** Numbers, exceptions *)

(** A JavaScript [number] used as a duration in milliseconds: an integer
    (taken below 10^21, where a template literal prints it in decimal) or
    one of the values that are no integer. *)
Inductive JsNumber :=
| Finite (z : Z)
| PosInfinity
| NegInfinity
| NaN.

(** [d < t] for an integer [d]. *)
Definition lessThan (d : Z) (t : JsNumber) : bool :=
  match t with
  | Finite z => d <? z
  | PosInfinity => true
  | NegInfinity | NaN => false
  end.

Definition numberToString (t : JsNumber) : string :=
  match t with
  | Finite z => ofZ z
  | PosInfinity => "Infinity"
  | NegInfinity => "-Infinity"
  | NaN => "NaN"
  end.

Definition dquote : string := String (ascii_of_nat 34) EmptyString.
Definition newline : string := String (ascii_of_nat 10) EmptyString.

Inductive Exn :=
| Error (message : string)                 (* [new Error(message)] of this repository *)
| LibraryError (name message : string).    (* raised inside Playwright *)

Definition exnName (e : Exn) : string :=
  match e with
  | Error _ => "Error"
  | LibraryError n _ => n
  end.

Definition exnMessage (e : Exn) : string :=
  match e with
  | Error m => m
  | LibraryError _ m => m
  end.

(** [Error.prototype.toString]. *)
Definition exnToString (e : Exn) : string :=
  if isEmpty (exnName e) then exnMessage e
  else if isEmpty (exnMessage e) then exnName e
  else exnName e ++ ": " ++ exnMessage e.

(** The text of [${error.message || error}]. *)
Definition messageOrError (e : Exn) : string :=
  if isEmpty (exnMessage e) then exnToString e else exnMessage e.

(** ** The browser as the library shows it *)

Inductive Query :=
| Css (selector : string)            (* [locator(selector)] *)
| Role (role : string)               (* [getByRole(role)] *)
| RoleNamed (role name : string)     (* [getByRole(role, { name, exact: true })] *)
| Label (text : string)              (* [getByLabel(text, { exact: true })] *)
| Placeholder (text : string).       (* [getByPlaceholder(text, { exact: true })] *)

(** An element: what its text reads as, whether it shows, the further
    states the library checks before it acts on an element (stable, receiving
    pointer events at its centre, enabled, editable), and what it answers to
    a query made inside it. *)
#[local] Unset Elimination Schemes.
Inductive Node := mkNode {
  el_innerText : string;
  el_textContent : option string;
  el_visible : bool;
  el_stable : bool;
  el_receivesEvents : bool;
  el_enabled : bool;
  el_editable : bool;
  el_within : Query -> list Node }.
#[local] Set Elimination Schemes.

(** What the library waits for before it clicks an element, and before it
    fills one. *)
Definition clickable (n : Node) : bool :=
  el_visible n && el_stable n && el_receivesEvents n && el_enabled n.

Definition fillable (n : Node) : bool :=
  el_visible n && el_enabled n && el_editable n.

Definition Page := Query -> list Node.
Definition PageHandle := nat.
Definition Browser := PageHandle -> Page.

(** Locators are descriptions, resolved anew by every call that uses them. *)
Inductive Locator :=
| Root (pg : PageHandle) (q : Query)
| Sub (l : Locator) (q : Query)
| Nth (l : Locator) (i : nat)
| First (l : Locator).

Fixpoint resolve (b : Browser) (l : Locator) : list Node :=
  match l with
  | Root pg q => b pg q
  | Sub l q => flat_map (fun n => el_within n q) (resolve b l)
  | Nth l i => match nth_error (resolve b l) i with
               | Some n => [n]
               | None => []
               end
  | First l => firstn 1 (resolve b l)
  end.

(** The single element of a locator; none when it matches no element or
    several (strict mode). *)
Definition single (b : Browser) (l : Locator) : option Node :=
  match resolve b l with
  | [n] => Some n
  | _ => None
  end.

(** A selector is parsed by the library when a call first uses it, and the
    call is rejected when the selector does not parse. The methods put a
    caller's text between quotes into their selectors; of the grammar of
    selectors the model keeps what such a text can break: every quoted string
    is closed, by the quote that opened it. A selector that starts with
    [//] or [..] is XPath, where a string has no escapes; any other is CSS,
    where a backslash takes the character after it out of play. *)
Fixpoint closesQuotes (escapes : bool) (opened : option ascii) (s : string)
    : bool :=
  match s with
  | EmptyString => match opened with None => true | Some _ => false end
  | String c rest =>
      if escapes && Ascii.eqb c (ascii_of_nat 92) then
        match rest with
        | EmptyString => match opened with None => true | Some _ => false end
        | String _ rest' => closesQuotes escapes opened rest'
        end
      else
        match opened with
        | None =>
            if Ascii.eqb c (ascii_of_nat 39) || Ascii.eqb c (ascii_of_nat 34)
            then closesQuotes escapes (Some c) rest
            else closesQuotes escapes None rest
        | Some q =>
            if Ascii.eqb c q then closesQuotes escapes None rest
            else closesQuotes escapes (Some q) rest
        end
  end.

Definition isXPath (selector : string) : bool :=
  startsWith selector "//" || startsWith selector "..".

Definition parses (selector : string) : bool :=
  closesQuotes (negb (isXPath selector)) None selector.

(** Only [locator(selector)] takes a selector of the caller's; the
    [getBy...] queries build theirs inside the library. *)
Definition parsesQuery (q : Query) : bool :=
  match q with
  | Css selector => parses selector
  | _ => true
  end.

Fixpoint wellFormed (l : Locator) : bool :=
  match l with
  | Root _ q => parsesQuery q
  | Sub l q => wellFormed l && parsesQuery q
  | Nth l _ => wellFormed l
  | First l => wellFormed l
  end.

(** What the pages have for a locator, for the calls that take any number
    of elements: nothing to give when the selector does not parse. No page
    has an element for such a selector, so a locator for which the pages
    have elements is taken to parse. *)
Definition listed (b : Browser) (l : Locator) : option (list Node) :=
  match resolve b l with
  | [] => if wellFormed l then Some [] else None
  | ns => Some ns
  end.

(** Calls of the library, as logged. *)
Inductive Event :=
| Count (l : Locator)
| AllInnerTexts (l : Locator)
| InnerText (l : Locator)
| TextContent (l : Locator)
| ExpectToBeVisible (l : Locator) (awaited : bool)
| WaitForVisible (l : Locator) (timeout : Z)
| Fill (l : Locator) (value : string)
| Click (l : Locator)
| TypeText (l : Locator) (text : string)
| Press (l : Locator) (key : string)
| KeyboardPress (pg : PageHandle) (key : string)
| WaitForTimeout (pg : PageHandle) (ms : Z)
| ExpectToBe (actual : option string) (expected : string).

(** Reads return at once what the page holds; the other calls wait or act,
    and the pages may re-render while they are in flight. *)
Definition isRead (ev : Event) : bool :=
  match ev with
  | Count _ | AllInnerTexts _ | InnerText _ | TextContent _ | ExpectToBe _ _ => true
  | _ => false
  end.

Definition sleeps (ev : Event) : Z :=
  match ev with
  | WaitForTimeout _ ms => Z.max 0 ms
  | _ => 0
  end.

(** What the source does not decide: how long the k-th call takes beyond
    what it sleeps, how the pages change during it, and the exception the
    library raises for a call that fails. *)
Record Env := {
  latency : nat -> N;
  react : nat -> Event -> Browser -> Browser;
  failure : Event -> string * string }.

Record World := {
  browser : Browser;
  now : Z;                 (* [Date.now()] *)
  calls : nat;
  log : list Event }.

Definition libraryError (E : Env) (ev : Event) : Exn :=
  LibraryError (fst (failure E ev)) (snd (failure E ev)).

(** ** Computations of a method: receiver, world, exceptions, loop budget *)

Inductive Outcome (A : Type) :=
| Return (a : A)
| Throw (e : Exn).
Arguments Return {A} a.
Arguments Throw {A} e.

(** [None]: the loop budget ran out before the method came back. *)
Definition M (Self A : Type) : Type :=
  Self -> World -> option (Outcome A * Self * World).

Definition ret {Self A} (a : A) : M Self A :=
  fun s w => Some (Return a, s, w).

Definition throw {Self A} (e : Exn) : M Self A :=
  fun s w => Some (Throw e, s, w).

Definition bind {Self A B} (m : M Self A) (k : A -> M Self B) : M Self B :=
  fun s w =>
    match m s w with
    | Some (Return a, s', w') => k a s' w'
    | Some (Throw e, s', w') => Some (Throw e, s', w')
    | None => None
    end.

Definition tryCatch {Self A} (m : M Self A) (h : Exn -> M Self A) : M Self A :=
  fun s w =>
    match m s w with
    | Some (Throw e, s', w') => h e s' w'
    | r => r
    end.

Definition this {Self} : M Self Self :=
  fun s w => Some (Return s, s, w).

Definition outOfBudget {Self A} : M Self A := fun _ _ => None.

(** A method of an object held in a field of the receiver. *)
Definition onField {Self F A} (get : Self -> F) (set : F -> Self -> Self)
    (m : M F A) : M Self A :=
  fun s w =>
    match m (get s) w with
    | Some (o, f', w') => Some (o, set f' s, w')
    | None => None
    end.

Declare Scope js_scope.
Delimit Scope js_scope with js.
Notation "x <- m ;; k" := (bind m (fun x => k))
  (at level 61, m at next level, right associativity) : js_scope.
Notation "m ;; k" := (bind m (fun _ => k))
  (at level 61, right associativity) : js_scope.
Local Open Scope js_scope.

(** ** The calls of the library *)

Section Library.

Context (E : Env) {Self : Type}.

(** One call: the clock moves on, the pages may change unless the call is a
    read, and the call is logged. *)
Definition call (ev : Event) (w : World) : World :=
  {| browser := if isRead ev then browser w
                else react E (calls w) ev (browser w);
     now := now w + Z.of_N (latency E (calls w)) + sleeps ev;
     calls := S (calls w);
     log := log w ++ [ev] |}.

(** A call that needs the single element of its locator. It fails with the
    exception of the library when there is no such element, which is also
    how it ends on a selector that does not parse. *)
Definition onElement {A} (ev : Event) (l : Locator)
    (f : Node -> option A) : M Self A :=
  fun s w =>
    let w' := call ev w in
    match single (browser w') l with
    | Some n =>
        match f n with
        | Some a => Some (Return a, s, w')
        | None => Some (Throw (libraryError E ev), s, w')
        end
    | None => Some (Throw (libraryError E ev), s, w')
    end.

Definition ifVisible (n : Node) : option unit :=
  if el_visible n then Some tt else None.

(** [Date.now()]. *)
Definition dateNow : M Self Z :=
  fun s w => Some (Return (now w), s, w).

(** [await l.count()]: the number of elements, none included; the call is
    rejected when the selector does not parse. *)
Definition count (l : Locator) : M Self nat :=
  fun s w =>
    let w' := call (Count l) w in
    match listed (browser w') l with
    | Some ns => Some (Return (List.length ns), s, w')
    | None => Some (Throw (libraryError E (Count l)), s, w')
    end.

(** [await l.allInnerTexts()], rejected likewise. *)
Definition allInnerTexts (l : Locator) : M Self (list string) :=
  fun s w =>
    let w' := call (AllInnerTexts l) w in
    match listed (browser w') l with
    | Some ns => Some (Return (map el_innerText ns), s, w')
    | None => Some (Throw (libraryError E (AllInnerTexts l)), s, w')
    end.

(** [await l.innerText()]. *)
Definition innerText (l : Locator) : M Self string :=
  onElement (InnerText l) l (fun n => Some (el_innerText n)).

(** [await l.textContent()]. *)
Definition textContent (l : Locator) : M Self (option string) :=
  onElement (TextContent l) l (fun n => Some (el_textContent n)).

(** [await expect(l).toBeVisible()]. *)
Definition expectToBeVisible (l : Locator) : M Self unit :=
  onElement (ExpectToBeVisible l true) l ifVisible.

(** [expect(l).toBeVisible()] without [await], and what the method awaits
    next, [m]. The assertion is started, which takes no time, and runs
    beside [m]; it looks for one visible element on the pages as [m] leaves
    them. When it fails (it gives up after 5 s, before a call of the library
    that waits for an element does) nobody handles the rejection: the test
    run ends with the failure of the assertion, whatever [m] was waiting
    for, and so does the method, which the model shows as a throw. *)
Definition expectToBeVisible_floating {A} (l : Locator) (m : M Self A)
    : M Self A :=
  fun s w =>
    let started :=
      {| browser := browser w; now := now w; calls := calls w;
         log := log w ++ [ExpectToBeVisible l false] |} in
    match m s started with
    | Some (o, s', w') =>
        match single (browser w') l with
        | Some n =>
            if el_visible n then Some (o, s', w')
            else Some (Throw (libraryError E (ExpectToBeVisible l false)), s', w')
        | None =>
            Some (Throw (libraryError E (ExpectToBeVisible l false)), s', w')
        end
    | None => None
    end.

(** [await l.waitFor({ state: 'visible', timeout })]. *)
Definition waitFor (l : Locator) (timeout : Z) : M Self unit :=
  onElement (WaitForVisible l timeout) l ifVisible.

Definition ifFillable (n : Node) : option unit :=
  if fillable n then Some tt else None.

Definition ifClickable (n : Node) : option unit :=
  if clickable n then Some tt else None.

(** [await l.fill(value)], [await l.click()], [await l.type(text)],
    [await l.press(key)]. *)
Definition fill (l : Locator) (value : string) : M Self unit :=
  onElement (Fill l value) l ifFillable.

Definition click (l : Locator) : M Self unit :=
  onElement (Click l) l ifClickable.

Definition type_ (l : Locator) (text : string) : M Self unit :=
  onElement (TypeText l text) l ifVisible.

Definition press (l : Locator) (key : string) : M Self unit :=
  onElement (Press l key) l ifVisible.

(** [await page.keyboard.press(key)]. *)
Definition keyboardPress (pg : PageHandle) (key : string) : M Self unit :=
  fun s w => Some (Return tt, s, call (KeyboardPress pg key) w).

(** [await page.waitForTimeout(ms)]. *)
Definition waitForTimeout (pg : PageHandle) (ms : Z) : M Self unit :=
  fun s w => Some (Return tt, s, call (WaitForTimeout pg ms) w).

(** [expect(actual, ...).toBe(expected)]: a comparison of two values, which
    asks nothing of the page and is not logged. *)
Definition expectToBe (actual : option string) (expected : string)
    : M Self unit :=
  match actual with
  | Some a =>
      if String.eqb a expected then ret tt
      else throw (libraryError E (ExpectToBe actual expected))
  | None => throw (libraryError E (ExpectToBe actual expected))
  end.

End Library.

(** [o ?? d]. *)
Definition nullish {A} (o : option A) (d : A) : A :=
  match o with
  | Some a => a
  | None => d
  end.

(** [o?.f]. *)
Definition optField {O A} (o : option O) (f : O -> option A) : option A :=
  match o with
  | Some r => f r
  | None => None
  end.

Definition quoted (s : string) : string := dquote ++ s ++ dquote.

(** ** src/helperUtils/WebTableHelper.ts *)

Module WebTableHelper.

(** [constructor(private page: Page)]. *)
Record t := { page : PageHandle }.

Record RowOptions := {
  timeout : option JsNumber;
  mode : option MatchMode }.

Record CellOptions := {
  cell_timeout : option JsNumber;
  matchMode : option MatchMode;
  columnMatchMode : option MatchMode }.

Definition columnNotFound (columnName : string) (headers : list string) : Exn :=
  Error ("Column " ++ quoted columnName ++ " not found." ++ newline
         ++ "Available: " ++ join ", " headers).

Definition rowNotFound (rowText : string) (timeout : JsNumber)
    (allRows : list string) : Exn :=
  Error ("Row " ++ quoted rowText ++ " not found after "
         ++ numberToString timeout ++ "ms" ++ newline
         ++ "Available:" ++ newline ++ join newline allRows).

(** [(await cell.textContent())?.trim() || null]. *)
Definition cellValue (content : option string) : option string :=
  match content with
  | Some s => let v := trim s in if isEmpty v then None else Some v
  | None => None
  end.

Section Methods.

Context (E : Env).

Definition getHeaders : M t (list string) :=
  self <- this ;;
  headers <- allInnerTexts E (Root (page self) (Css "table thead th")) ;;
  ret (map trim headers).

Definition getColumnIndex (columnName : string) (mode : option MatchMode)
    : M t Z :=
  let mode := nullish mode partial in
  headers <- getHeaders ;;
  let index := findIndex (fun h => match_ h columnName mode) headers in
  if index =? -1 then throw (columnNotFound columnName headers)
  else ret index.

(** The [for] loop of [getRow], at index [i] with [n] rows still to
    look at; [Some row] stands for its [return row]. *)
Fixpoint scanRows (rows : Locator) (rowText : string) (mode : MatchMode)
    (i n : nat) : M t (option Locator) :=
  match n with
  | O => ret None
  | S n' =>
      let row := Nth rows i in
      text <- innerText E row ;;
      let text := trim text in
      if match_ text rowText mode then ret (Some row)
      else scanRows rows rowText mode (S i) n'
  end.

(** The [while] loop of [getRow]; [budget] bounds the number of times its
    condition is evaluated. *)
Fixpoint pollRows (budget : nat) (start : Z) (timeout : JsNumber)
    (rowText : string) (mode : MatchMode) : M t (option Locator) :=
  match budget with
  | O => outOfBudget
  | S budget' =>
      t1 <- dateNow ;;
      if lessThan (t1 - start) timeout then
        self <- this ;;
        let rows := Root (page self) (Role "row") in
        n <- count E rows ;;
        found <- scanRows rows rowText mode 0 n ;;
        match found with
        | Some row => ret (Some row)
        | None =>
            waitForTimeout E (page self) 300 ;;
            pollRows budget' start timeout rowText mode
        end
      else ret None
  end.

Definition getRow (budget : nat) (rowText : string)
    (options : option RowOptions) : M t Locator :=
  let timeout := nullish (optField options timeout) (Finite 5000) in
  let mode := nullish (optField options mode) partial in
  start <- dateNow ;;
  found <- pollRows budget start timeout rowText mode ;;
  match found with
  | Some row => ret row
  | None =>
      self <- this ;;
      allRows <- allInnerTexts E (Root (page self) (Role "row")) ;;
      throw (rowNotFound rowText timeout allRows)
  end.

Definition getCellValue (budget : nat) (rowText columnName : string)
    (options : option CellOptions) : M t (option string) :=
  row <- getRow budget rowText
           (Some {| timeout := optField options cell_timeout;
                    mode := Some (nullish (optField options matchMode)
                                          partial) |}) ;;
  colIndex <- getColumnIndex columnName
                (Some (nullish (optField options columnMatchMode)
                               partial)) ;;
  let cell := Nth (Sub row (Role "cell")) (Z.to_nat colIndex) in
  expectToBeVisible E cell ;;
  content <- textContent E cell ;;
  let value := cellValue content in
  ret value.

Definition clickCellAction (budget : nat)
    (rowText columnName buttonName : string) : M t unit :=
  row <- getRow budget rowText None ;;
  colIndex <- getColumnIndex columnName None ;;
  let button :=
    Sub (Nth (Sub row (Role "cell")) (Z.to_nat colIndex))
        (Css ("[title=" ++ quoted buttonName ++ "]")) in
  expectToBeVisible_floating E button (click E button).

(** The [for] loop of [getColumnValues], from row [i], [n] rows to go. *)
Fixpoint collectColumn (rows : Locator) (colIndex : Z) (i n : nat)
    (values : list string) : M t (list string) :=
  match n with
  | O => ret values
  | S n' =>
      let cell := Nth (Sub (Nth rows i) (Role "cell")) (Z.to_nat colIndex) in
      content <- textContent E cell ;;
      match cellValue content with
      | Some text => collectColumn rows colIndex (S i) n' (values ++ [text])
      | None => collectColumn rows colIndex (S i) n' values
      end
  end.

Definition getColumnValues (columnName : string) : M t (list string) :=
  colIndex <- getColumnIndex columnName (Some partial) ;;
  self <- this ;;
  let rows := Root (page self) (Role "row") in
  n <- count E rows ;;
  collectColumn rows colIndex 1 (n - 1) [].

End Methods.

End WebTableHelper.

(** ** Selector builders

    [src/locators/commonLocators.ts] and [src/locators/webTablePageLocators.ts]
    are not among the sources: the selectors they build are taken as given.
    The selectors they hold as constants are taken to parse; those they build
    from a caller's text parse or not with the text. *)

Class CommonLocators := {
  inputFieldLocator : string -> string;
  buttonLocator : string -> string;
  checkBoxLocator : string -> string;
  radioButtonLocator : string -> string;
  datePickerLocator : string -> string }.

Class WebTablePageLocators := {
  webTableRowEditLocator : string -> string;
  webTableColumnHeaderLocator : string;
  webTableCellLocator : string -> Z -> string;
  webTableColumnHeaderLocator_parses :
    parses webTableColumnHeaderLocator = true }.

(** ** src/pages/commonUserActionsPage.ts *)

Module CommonUserActionsPage.

Record t := { page : PageHandle }.

Definition inputFieldNotFound (fieldName : string) : Exn :=
  Error ("Input field " ++ quoted fieldName
         ++ " not found using role, label, placeholder, or relative XPath.").

Definition buttonNotVisible (buttonName : string) (error : Exn) : Exn :=
  Error ("The button " ++ quoted buttonName
         ++ " to be clicked is NOT visible: ->> " ++ messageOrError error).

Definition fieldNotVisible (fieldName : string) (error : Exn) : Exn :=
  Error ("The field " ++ quoted fieldName ++ " is NOT visible: ->> "
         ++ messageOrError error).

Definition noValidValues (fieldName : string) : Exn :=
  Error ("No valid values provided for " ++ quoted fieldName
         ++ ". Expected at least one value, e.g. ['Maths', 'English']").

Definition checkboxNotFound (labelName : string) (error : Exn) : Exn :=
  Error ("The checkbox for " ++ quoted labelName ++ " NOT found: ->> "
         ++ messageOrError error).

(** [error instanceof Error ? error.message : error]: every exception of
    the model is an [Error] object. *)
Definition dateInputNotVisible (fieldLabel : string) (error : Exn) : Exn :=
  Error ("Date input field " ++ quoted fieldLabel
         ++ " not visible. Details: " ++ exnMessage error).

Section Methods.

Context (E : Env) {L : CommonLocators}.

Definition inputOnField (fieldName textInput : string) : M t unit :=
  self <- this ;;
  let roleLocator := Root (page self) (RoleNamed "textbox" fieldName) in
  n1 <- count E roleLocator ;;
  if (0 <? n1)%nat then fill E roleLocator textInput
  else
    let labelLocator := Root (page self) (Label fieldName) in
    n2 <- count E labelLocator ;;
    if (0 <? n2)%nat then fill E labelLocator textInput
    else
      let placeholderLocator := Root (page self) (Placeholder fieldName) in
      n3 <- count E placeholderLocator ;;
      if (0 <? n3)%nat then fill E placeholderLocator textInput
      else
        let relativeXPathLocator := inputFieldLocator fieldName in
        let xpathLocator := Root (page self) (Css relativeXPathLocator) in
        n4 <- count E xpathLocator ;;
        if (0 <? n4)%nat then fill E xpathLocator textInput
        else throw (inputFieldNotFound fieldName).

Definition clickOnButton (buttonName : string) : M t unit :=
  self <- this ;;
  let locatorElement := Root (page self) (Css (buttonLocator buttonName)) in
  tryCatch (waitFor E (First locatorElement) 60000)
           (fun error => throw (buttonNotVisible buttonName error)) ;;
  click E (First locatorElement).

Definition inputOnTextField (fieldName text : string) : M t unit :=
  self <- this ;;
  let locatorElement :=
    Root (page self) (Css (inputFieldLocator fieldName)) in
  tryCatch (waitFor E locatorElement 20000)
           (fun error => throw (fieldNotVisible fieldName error)) ;;
  fill E locatorElement text ;;
  press E locatorElement "Tab".

(** The [for ... of] loop of [inputMultiValues]. *)
Fixpoint typeValues (pg : PageHandle) (locatorElement : Locator)
    (values : list string) : M t unit :=
  match values with
  | [] => ret tt
  | value :: rest =>
      type_ E locatorElement value ;;
      waitForTimeout E pg 500 ;;
      keyboardPress E pg "Enter" ;;
      typeValues pg locatorElement rest
  end.

(** [values] is an array, so [!values] is false and drops out of the guard. *)
Definition inputMultiValues (fieldName : string) (values : list string)
    : M t unit :=
  if (List.length values =? 0)%nat
     || forallb (fun v => isEmpty (trim v)) values
  then throw (noValidValues fieldName)
  else
    self <- this ;;
    let locatorElement :=
      Root (page self) (Css (inputFieldLocator fieldName)) in
    tryCatch (waitFor E locatorElement 20000)
             (fun error => throw (fieldNotVisible fieldName error)) ;;
    typeValues (page self) locatorElement values.

Definition selectCheckbox (labelName : string) : M t unit :=
  self <- this ;;
  let locatorElement :=
    Root (page self) (Css (checkBoxLocator labelName)) in
  tryCatch (waitFor E locatorElement 60000)
           (fun error => throw (checkboxNotFound labelName error)) ;;
  click E locatorElement.

Definition selectRadioButton (labelName : string) : M t unit :=
  self <- this ;;
  let locatorElement :=
    Root (page self) (Css (radioButtonLocator labelName)) in
  tryCatch (waitFor E locatorElement 60000)
           (fun error => throw (checkboxNotFound labelName error)) ;;
  click E locatorElement.

Definition selectDate (fieldLabel date : string) : M t unit :=
  self <- this ;;
  let input := Root (page self) (Css (datePickerLocator fieldLabel)) in
  tryCatch (waitFor E input 5000)
           (fun error => throw (dateInputNotVisible fieldLabel error)) ;;
  click E input ;;
  fill E input date ;;
  press E input "Enter".

End Methods.

End CommonUserActionsPage.

(** ** src/pages/webTablePage.ts

    [getRandomRowName] (which draws a random number) follows further
    below; [getCellByRowAndColumn] (which matches a regular expression) is
    left out. *)

Module WebTablePage.

Record t := {
  page : PageHandle;
  webTableHelper : WebTableHelper.t }.

Definition set_webTableHelper (h : WebTableHelper.t) (self : t) : t :=
  {| page := page self; webTableHelper := h |}.

Definition editIconNotFound (rowItem : string) (error : Exn) : Exn :=
  Error ("The icon edit button for " ++ quoted rowItem ++ " NOT found: ->> "
         ++ messageOrError error).

Definition columnNameNotFound (columnName : string) : Exn :=
  Error ("Column with name " ++ quoted columnName ++ " not found.").

Definition cellNotFound (rowName columnName : string) (error : Exn) : Exn :=
  Error ("The table cell for  Row: " ++ quoted rowName ++ " Column: "
         ++ columnName ++ " NOT found: ->> " ++ messageOrError error).

Section Methods.

Context (E : Env) {L : WebTablePageLocators}.

Definition clickOnTableRowActionIcon (budget : nat)
    (rowItem columnName iconType : string) : M t unit :=
  onField webTableHelper set_webTableHelper
    (WebTableHelper.clickCellAction E budget rowItem columnName iconType).

Definition clickOnTableRowEditIcon (rowItem : string) : M t unit :=
  self <- this ;;
  let locatorElement :=
    Root (page self) (Css (webTableRowEditLocator rowItem)) in
  tryCatch (waitFor E locatorElement 60000)
           (fun error => throw (editIconNotFound rowItem error)) ;;
  click E locatorElement.

Definition verifyTableCellValue (budget : nat)
    (rowName columnName expectedValue : string) : M t unit :=
  actualValue <- onField webTableHelper set_webTableHelper
                   (WebTableHelper.getCellValue E budget rowName
                                                columnName None) ;;
  expectToBe E actualValue expectedValue.

(** The [for] loop of [getTableColumnIndexByName], at index [i] with [n]
    headers to go; [Some k] stands for its [return k]. *)
Fixpoint scanHeaders (headers : Locator) (columnName : string)
    (i n : nat) : M t (option Z) :=
  match n with
  | O => ret None
  | S n' =>
      text <- innerText E (Nth headers i) ;;
      let headerText := trim text in
      if String.eqb (toLowerCase headerText) (toLowerCase columnName)
      then ret (Some (Z.of_nat i + 1))
      else scanHeaders headers columnName (S i) n'
  end.

Definition getTableColumnIndexByName (columnName : string) : M t Z :=
  self <- this ;;
  let headers := Root (page self) (Css webTableColumnHeaderLocator) in
  n <- count E headers ;;
  found <- scanHeaders headers columnName 0 n ;;
  match found with
  | Some k => ret k
  | None => throw (columnNameNotFound columnName)
  end.

Definition getTableCellValue (rowName columnName : string) : M t string :=
  columnIndex <- getTableColumnIndexByName columnName ;;
  self <- this ;;
  let cellLocator :=
    Root (page self) (Css (webTableCellLocator rowName columnIndex)) in
  tryCatch (waitFor E cellLocator 60000)
           (fun error => throw (cellNotFound rowName columnName error)) ;;
  text <- innerText E cellLocator ;;
  ret (trim text).

End Methods.

End WebTablePage.

(** ** A page for the examples *)

Module Sample.

Definition leaf (text : string) (shown : bool) : Node :=
  {| el_innerText := text; el_textContent := Some text;
     el_visible := shown; el_stable := true; el_receivesEvents := true;
     el_enabled := true; el_editable := true; el_within := fun _ => [] |}.

Definition row (text : string) (cells : list Node) : Node :=
  {| el_innerText := text; el_textContent := Some text; el_visible := true;
     el_stable := true; el_receivesEvents := true;
     el_enabled := true; el_editable := true;
     el_within := fun q => match q with
                           | Role r => if String.eqb r "cell" then cells else []
                           | _ => []
                           end |}.

#[local] Instance commonLocators : CommonLocators := {
  inputFieldLocator n := "//label[text()='" ++ n ++ "']/following::input[1]";
  buttonLocator n := "//button[text()='" ++ n ++ "']";
  checkBoxLocator n := "//label[text()='" ++ n ++ "']/input[@type='checkbox']";
  radioButtonLocator n := "//label[text()='" ++ n ++ "']/input[@type='radio']";
  datePickerLocator n := "//label[text()='" ++ n ++ "']/following::input[1]" }.

#[local] Instance webTableLocators : WebTablePageLocators := {
  webTableRowEditLocator r := "//tr[td[text()='" ++ r ++ "']]//span[@title='Edit']";
  webTableColumnHeaderLocator := "//table//th";
  webTableCellLocator r i := "//tr[td[text()='" ++ r ++ "']]/td[" ++ ofZ i ++ "]";
  webTableColumnHeaderLocator_parses := eq_refl }.

Definition headerCells : list Node :=
  [leaf "First Name" true; leaf " Last Name" true; leaf "Email " true].

Definition tableRows : list Node :=
  [row "First Name Last Name Email" [];
   row "Cierra Vega cierra@example.com"
       [leaf "Cierra" true; leaf "Vega" true; leaf " cierra@example.com " true];
   row "Alden Cantrell"
       [leaf "Alden" true; leaf "Cantrell" true; leaf "   " true];
   row "Kierra Gentry" [leaf "Kierra" true; leaf "Gentry" true]].

(** A page with a three-column table, one text box labelled "Email" and
    nothing else. *)
Definition samplePage : Page :=
  fun q =>
    match q with
    | Css sel =>
        if String.eqb sel "table thead th" then headerCells
        else if String.eqb sel webTableColumnHeaderLocator then headerCells
        else []
    | Role r => if String.eqb r "row" then tableRows else []
    | Label text => if String.eqb text "Email" then [leaf "" true] else []
    | _ => []
    end.

(** How the library prints a locator in its messages. *)
Definition describeQuery (q : Query) : string :=
  match q with
  | Css sel => "locator('" ++ sel ++ "')"
  | Role r => "getByRole('" ++ r ++ "')"
  | RoleNamed r n => "getByRole('" ++ r ++ "', { name: '" ++ n ++ "', exact: true })"
  | Label text => "getByLabel('" ++ text ++ "', { exact: true })"
  | Placeholder text => "getByPlaceholder('" ++ text ++ "', { exact: true })"
  end.

Fixpoint describe (l : Locator) : string :=
  match l with
  | Root _ q => describeQuery q
  | Sub l q => describe l ++ "." ++ describeQuery q
  | Nth l i => describe l ++ ".nth(" ++ ofZ (Z.of_nat i) ++ ")"
  | First l => describe l ++ ".first()"
  end.

(** A library that takes 7 ms for every call, on pages that stay as they
    are; its exceptions carry texts in the manner of Playwright. *)
Definition env : Env :=
  {| latency := fun _ => 7%N;
     react := fun _ _ b => b;
     failure := fun ev =>
       match ev with
       | ExpectToBeVisible l _ =>
           ("Error", "expect(locator).toBeVisible() failed Locator: "
                     ++ describe l ++ " Expected: visible Error: element(s) not found")
       | ExpectToBe _ expected =>
           ("Error", "expect(received).toBe(expected) Expected: " ++ expected)
       | WaitForVisible l timeout =>
           ("TimeoutError", "locator.waitFor: Timeout " ++ ofZ timeout
                            ++ "ms exceeded. waiting for " ++ describe l
                            ++ " to be visible")
       | _ => ("TimeoutError", "Timeout 30000ms exceeded.")
       end |}.

(** The same library, twice as slow. *)
Definition slowEnv : Env :=
  {| latency := fun _ => 14%N; react := react env; failure := failure env |}.

Definition world : World :=
  {| browser := fun _ => samplePage; now := 1000; calls := 0; log := [] |}.

Definition laterWorld : World :=
  {| browser := fun _ => samplePage; now := 999999; calls := 40;
     log := [Count (Root 0%nat (Role "row"))] |}.

Definition helper : WebTableHelper.t := {| WebTableHelper.page := 0%nat |}.

(** The sample page after a re-rendering that moves the e-mail column to
    the front. *)
Definition reorderedPage : Page :=
  fun q =>
    match q with
    | Css sel =>
        if String.eqb sel "table thead th"
        then [leaf "Email" true; leaf "First Name" true; leaf "Last Name" true]
        else samplePage q
    | _ => samplePage q
    end.

(** A library on pages that re-render in this way while the test sleeps. *)
Definition rerenderingEnv : Env :=
  {| latency := latency env;
     react := fun _ ev b =>
       match ev with
       | WaitForTimeout _ _ => fun _ => reorderedPage
       | _ => b
       end;
     failure := failure env |}.

(** Two look-ups of the same column with a sleep in between. *)
Definition lookUpTwice (columnName : string) : M WebTableHelper.t (Z * Z) :=
  first <- WebTableHelper.getColumnIndex rerenderingEnv columnName None ;;
  waitForTimeout rerenderingEnv 0%nat 100 ;;
  second <- WebTableHelper.getColumnIndex rerenderingEnv columnName None ;;
  ret (first, second).

Definition actions : CommonUserActionsPage.t :=
  {| CommonUserActionsPage.page := 0%nat |}.

Definition tablePage : WebTablePage.t :=
  {| WebTablePage.page := 0%nat; WebTablePage.webTableHelper := helper |}.

End Sample.

(** ** Vocabulary of the statements *)

(** [i] is the smallest index of [xs] whose element satisfies [p]. *)
Definition isFirst {A} (p : A -> bool) (xs : list A) (i : nat) : Prop :=
  (exists x, nth_error xs i = Some x /\ p x = true) /\
  forall j y, (j < i)%nat -> nth_error xs j = Some y -> p y = false.

(** The header texts a page renders, as [getHeaders] reads them. *)
Definition renderedHeaders (b : Browser) (pg : PageHandle) : list string :=
  map el_innerText (b pg (Css "table thead th")).

(** The locator [getHeaders] builds. *)
Definition headersLocator (self : WebTableHelper.t) : Locator :=
  Root (WebTableHelper.page self) (Css "table thead th").

(** The locator of the rows [getRow] scans. *)
Definition rowsLocator (self : WebTableHelper.t) : Locator :=
  Root (WebTableHelper.page self) (Role "row").

(** Every sleep among the events asks for 300 ms. *)
Definition sleeps300 (ev : Event) : Prop :=
  match ev with
  | WaitForTimeout _ ms => ms = 300
  | _ => True
  end.

(** [w'] comes after [w]: the clock has not gone back and the log has grown
    by events that all satisfy [P]. *)
Definition after (P : Event -> Prop) (w w' : World) : Prop :=
  now w <= now w' /\
  exists evs, log w' = (log w ++ evs)%list /\ Forall P evs.

(** The inner text of the row matches [rowText]. *)
Definition rowMatches (rowText : string) (mode : MatchMode) (x : Node) : bool :=
  match_ (el_innerText x) rowText mode.

(** The timeout [getRow] works with, 5000 ms when none is given. *)
Definition rowTimeout (options : option WebTableHelper.RowOptions) : JsNumber :=
  match options with
  | Some {| WebTableHelper.timeout := Some t |} => t
  | _ => Finite 5000
  end.

(** The mode [getRow] works with, partial when none is given. *)
Definition rowMode (options : option WebTableHelper.RowOptions) : MatchMode :=
  match options with
  | Some {| WebTableHelper.mode := Some m |} => m
  | _ => partial
  end.

(** A number of evaluations of the loop condition that a timeout allows at
    most: one more than the number of 300 ms sleeps that fit before it. *)
Definition pollBudget (timeout : JsNumber) : nat :=
  match timeout with
  | Finite z => S (Z.to_nat ((z + 299) / 300))
  | _ => 1
  end.

(** The timeout leaves room for [b] more sleeps at most. *)
Definition room (start : Z) (timeout : JsNumber) (w : World) (b : nat) : Prop :=
  match timeout with
  | Finite z => z - (now w - start) <= 300 * Z.of_nat b
  | PosInfinity => False
  | _ => True
  end.

(** The locator [getCellValue] builds for the cell of row [i], column [j]. *)
Definition cellLocator (self : WebTableHelper.t) (i j : nat) : Locator :=
  Nth (Sub (Nth (rowsLocator self) i) (Role "cell")) j.

(** The [j]-th cell of the [i]-th row of a page. *)
Definition cellAt (p : Page) (i j : nat) : option Node :=
  match nth_error (p (Role "row")) i with
  | Some row => nth_error (el_within row (Role "cell")) j
  | None => None
  end.

(** The cell the specification names: the one at the first row whose inner
    text matches [rowText] and the first header that matches [columnName]. *)
Definition resolvedCell (p : Page) (rowText columnName : string)
    (cell : Node) : Prop :=
  exists i j,
    isFirst (rowMatches rowText partial) (p (Role "row")) i /\
    isFirst (fun h => match_ h columnName partial)
            (map el_innerText (p (Css "table thead th"))) j /\
    cellAt p i j = Some cell.

(** The modes [getCellValue] works with for the row and for the column,
    partial when none is given. *)
Definition cellMatchMode (options : option WebTableHelper.CellOptions)
    : MatchMode :=
  nullish (optField options WebTableHelper.matchMode) partial.

Definition cellColumnMatchMode (options : option WebTableHelper.CellOptions)
    : MatchMode :=
  nullish (optField options WebTableHelper.columnMatchMode) partial.

(** In the words of the specification: [v] is the trimmed text of
    [content], or null when there is no text or the text is blank. *)
Definition trimmedTextOrNull (content : option string) (v : option string)
    : Prop :=
  match v with
  | Some t => exists raw, content = Some raw /\ t = trim raw /\ t <> ""
  | None => content = None \/ exists raw, content = Some raw /\ trim raw = ""
  end.

(** What [getCellValue], called without options, comes to on a page that
    stays as rendered. *)
Definition cellOutcome (E : Env) (self : WebTableHelper.t) (p : Page)
    (rowText columnName : string) : Outcome (option string) :=
  let rows := p (Role "row") in
  let i := findIndex (rowMatches rowText partial) rows in
  if i =? -1
  then Throw (WebTableHelper.rowNotFound rowText (Finite 5000)
                (map el_innerText rows))
  else
    let headers := map trim (map el_innerText (p (Css "table thead th"))) in
    let j := findIndex (fun h => match_ h columnName partial) headers in
    if j =? -1 then Throw (WebTableHelper.columnNotFound columnName headers)
    else
      let cell := cellLocator self (Z.to_nat i) (Z.to_nat j) in
      match cellAt p (Z.to_nat i) (Z.to_nat j) with
      | Some node =>
          if el_visible node then Return (WebTableHelper.cellValue (el_textContent node))
          else Throw (libraryError E (ExpectToBeVisible cell true))
      | None => Throw (libraryError E (ExpectToBeVisible cell true))
      end.

(** The locators [inputOnField] tries, in its order. *)
Definition inputStrategies {L : CommonLocators}
    (self : CommonUserActionsPage.t) (fieldName : string) : list Locator :=
  let pg := CommonUserActionsPage.page self in
  [Root pg (RoleNamed "textbox" fieldName);
   Root pg (Label fieldName);
   Root pg (Placeholder fieldName);
   Root pg (Css (inputFieldLocator fieldName))].

(** The outcome of a run, the receiver and the world left aside. *)
Definition outcomeOf {Self A} (r : option (Outcome A * Self * World))
    : option (Outcome A) :=
  match r with
  | Some (o, _, _) => Some o
  | None => None
  end.

(** The world a run ends in. *)
Definition worldOf {Self A} (r : option (Outcome A * Self * World))
    (w0 : World) : World :=
  match r with
  | Some (_, _, w) => w
  | None => w0
  end.

(** The comparison of [getTableColumnIndexByName]: the header trimmed and
    lower-cased against the column name lower-cased. *)
Definition headerEquals (columnName : string) (h : string) : bool :=
  String.eqb (toLowerCase (trim h)) (toLowerCase columnName).

(** The header locator of [getTableColumnIndexByName]. *)
Definition columnHeaders {L : WebTablePageLocators} (self : WebTablePage.t)
    : Locator :=
  Root (WebTablePage.page self) (Css webTableColumnHeaderLocator).

(** The exception is an [Error] made by this repository, and its message
    includes each of the texts. *)
Definition errorNaming (e : Exn) (texts : list string) : Prop :=
  exists msg, e = Error msg /\ forall t, In t texts -> includes msg t = true.

(** The method hands its receiver back as it got it. *)
Definition keepsReceiver {Self A} (m : M Self A) : Prop :=
  forall s w o s' w', m s w = Some (o, s', w') -> s' = s.

(** The pages of [E] stay as rendered, whatever is done to them. *)
Definition still (E : Env) : Prop :=
  forall k ev b, react E k ev b = b.

(** The rows a page renders, as [getRow] reads them. *)
Definition renderedRows (b : Browser) (pg : PageHandle) : list Node :=
  b pg (Role "row").

(** ** src/pages/webTablePage.ts, continued *)

(** The selector builders [getRandomRowName] uses, taken as given like the
    others. *)
Class WebTableRowLocators := {
  webTableRowsLocator : string;
  webTableRowFirstNameLocator : string;
  webTableRowsLocator_parses : parses webTableRowsLocator = true }.

Module WebTablePageRows.

Definition noRowsFound : Exn :=
  Error "No rows found in the table. Ensure the table is loaded and visible before calling this method.".

Definition noValidRowNames : Exn :=
  Error "No valid row names extracted from the table cells.".

Section Methods.

Context (E : Env) {R : WebTableRowLocators}.

(** [Math.floor(Math.random() * n)]: the draw is the environment's. *)
Context (randomFloor : nat -> nat).

(** The [for] loop of [getRandomRowName], from row [i], [n] rows to go. *)
Fixpoint collectRowNames (pg : PageHandle) (i n : nat)
    (rowNames : list string) : M WebTablePage.t (list string) :=
  match n with
  | O => ret rowNames
  | S n' =>
      text <- innerText E (Nth (Sub (Nth (Root pg (Role "row")) i) (Role "cell")) 0) ;;
      let rowFirstName := trim text in
      if isEmpty rowFirstName
      then collectRowNames pg (S i) n' rowNames
      else collectRowNames pg (S i) n' (rowNames ++ [rowFirstName])
  end.

(** [rowNames[randomIndex]] is [undefined] outside the array. *)
Definition getRandomRowName : M WebTablePage.t (option string) :=
  self <- this ;;
  let rowsLocator := Root (WebTablePage.page self) (Css webTableRowsLocator) in
  waitFor E (First rowsLocator) 5000 ;;
  n <- count E rowsLocator ;;
  if (n =? 0)%nat then throw noRowsFound
  else
    rowNames <- collectRowNames (WebTablePage.page self) 1 (n - 1) [] ;;
    if (List.length rowNames =? 0)%nat then throw noValidRowNames
    else
      let randomIndex := randomFloor (List.length rowNames) in
      let randomRowName := nth_error rowNames randomIndex in
      ret randomRowName.

End Methods.

End WebTablePageRows.

(** ** Vocabulary of the further statements *)

(** The call sleeps. *)
Definition isSleep (ev : Event) : bool :=
  match ev with
  | WaitForTimeout _ _ => true
  | _ => false
  end.

(** The call acts on the page: it fills, clicks, types or presses. *)
Definition acts (ev : Event) : bool :=
  match ev with
  | Fill _ _ | Click _ | TypeText _ _ | Press _ _ | KeyboardPress _ _ => true
  | _ => false
  end.

Definition sleepCount (evs : list Event) : nat :=
  List.length (filter isSleep evs).

(** The calls of a look-up: counts, reads of text, awaited checks and waits
    for visibility, and sleeps of 300 ms. *)
Definition isLookup (ev : Event) : bool :=
  match ev with
  | Count _ | AllInnerTexts _ | InnerText _ | TextContent _ => true
  | ExpectToBeVisible _ awaited => awaited
  | WaitForVisible _ _ => true
  | WaitForTimeout _ ms => ms =? 300
  | _ => false
  end.

(** Every call the method logs satisfies [p]. *)
Definition issuesOnly {Self A} (p : Event -> bool) (m : M Self A) : Prop :=
  forall s w o s' w',
    m s w = Some (o, s', w') ->
    exists evs, log w' = (log w ++ evs)%list /\ Forall (fun ev => p ev = true) evs.

(** The world after [innerText] has been read from rows [i], ..., [i+n-1]. *)
Fixpoint readRows (E : Env) (rows : Locator) (i n : nat) (w : World) : World :=
  match n with
  | O => w
  | S n' => readRows E rows (S i) n' (call E (InnerText (Nth rows i)) w)
  end.

(** The world after one turn of the loop of [getRow] that found nothing:
    the count, one read per row, the sleep. *)
Definition fruitlessTurn (E : Env) (self : WebTableHelper.t) (w : World) : World :=
  call E (WaitForTimeout (WebTableHelper.page self) 300)
       (readRows E (rowsLocator self) 0
          (List.length (renderedRows (browser w) (WebTableHelper.page self)))
          (call E (Count (rowsLocator self)) w)).

(** What [getColumnValues] keeps of one row: the text of its cell at index
    [j], trimmed, unless that is empty. *)
Definition keptText (j : nat) (row : Node) : list string :=
  match nth_error (el_within row (Role "cell")) j with
  | Some cell =>
      match WebTableHelper.cellValue (el_textContent cell) with
      | Some v => [v]
      | None => []
      end
  | None => []
  end.

(** The texts [getColumnValues] keeps from the rows after the first. *)
Definition columnTexts (p : Page) (j : nat) : list string :=
  flat_map (keptText j) (skipn 1 (p (Role "row"))).


(** The first of the locators that matches an element at all. *)
Definition firstCounted (b : Browser) (ls : list Locator) : option Locator :=
  find (fun l => (0 <? List.length (resolve b l))%nat) ls.

(** The state a call waits for in its element: clickable for a click,
    fillable for a fill, visible for the others. *)
Definition passes (ev : Event) (x : Node) : bool :=
  match ev with
  | Click _ => clickable x
  | Fill _ _ => fillable x
  | _ => el_visible x
  end.

(** What an action through [l] comes to on a page that stays as rendered:
    it needs one element, and that in the state it waits for. *)
Definition actionOutcome (E : Env) (b : Browser) (l : Locator) (ev : Event)
    : Outcome unit :=
  match single b l with
  | Some x => if passes ev x then Return tt else Throw (libraryError E ev)
  | None => Throw (libraryError E ev)
  end.

(** The calls [inputMultiValues] makes for its values. *)
Definition typingCalls (l : Locator) (pg : PageHandle) (values : list string)
    : list Event :=
  flat_map (fun v => [TypeText l v; WaitForTimeout pg 500; KeyboardPress pg "Enter"])
           values.

(** The locator [getRandomRowName] reads a name through: the first cell of
    the row at index [i]. *)
Definition firstCellOfRow (pg : PageHandle) (i : nat) : Locator :=
  Nth (Sub (Nth (Root pg (Role "row")) i) (Role "cell")) 0.

(** A name [getRandomRowName] keeps when it has counted [n] rows: the
    trimmed text, not empty, of the first cell of a row at an index from 1
    to [n - 1]. *)
Definition keptRowName (b : Browser) (pg : PageHandle) (n : nat)
    (name : string) : Prop :=
  name <> "" /\
  exists (i : nat) (cell : Node),
    (1 <= i < n)%nat /\ single b (firstCellOfRow pg i) = Some cell /\
    name = trim (el_innerText cell).

(** The method prepares: whatever it logs does not act on the page, and it
    throws nothing but an [Error] of this repository. *)
Definition prepares {Self A} (m : M Self A) : Prop :=
  forall s w o s' w',
    m s w = Some (o, s', w') ->
    exists evs,
      log w' = (log w ++ evs)%list /\
      Forall (fun ev => acts ev = false) evs /\
      forall e, o = Throw e -> exists msg, e = Error msg.

(** The method performs: what it throws is the exception of the library for
    the call it logged last, and that call acts on the page. *)
Definition performs (E : Env) {Self A} (m : M Self A) : Prop :=
  forall s w o s' w',
    m s w = Some (o, s', w') ->
    exists evs,
      log w' = (log w ++ evs)%list /\
      forall e, o = Throw e ->
                exists before ev,
                  evs = (before ++ [ev])%list /\ acts ev = true /\
                  e = libraryError E ev.

(** Whatever the method throws, no call had acted on the page before the
    call that failed: an [Error] of this repository comes after calls that
    do not act; an exception of the library is that of the call logged
    last, and the calls before that one do not act. *)
Definition failsWithNothingDone (E : Env) {Self A} (m : M Self A) : Prop :=
  forall s w e s' w',
    m s w = Some (Throw e, s', w') ->
    exists evs,
      log w' = (log w ++ evs)%list /\
      match e with
      | Error _ => Forall (fun ev => acts ev = false) evs
      | LibraryError _ _ =>
          exists before ev,
            evs = (before ++ [ev])%list /\
            Forall (fun ev => acts ev = false) before /\
            e = libraryError E ev
      end.

(** A failure of the method is either an [Error] of this repository, thrown
    before any call has acted on the page, or the exception of the library
    for an acting call, which is then the last call logged. *)
Definition failsBeforeActing (E : Env) {Self A} (m : M Self A) : Prop :=
  forall s w e s' w',
    m s w = Some (Throw e, s', w') ->
    exists evs,
      log w' = (log w ++ evs)%list /\
      match e with
      | Error _ => Forall (fun ev => acts ev = false) evs
      | LibraryError _ _ =>
          exists before ev,
            evs = (before ++ [ev])%list /\ acts ev = true /\
            e = libraryError E ev
      end.

(** ** More pages for the examples *)

Module MoreSamples.

(** The sample table with a fourth data row, as rendered a little later. *)
Definition lateRowPage : Page :=
  fun q =>
    match q with
    | Role r =>
        if String.eqb r "row"
        then (Sample.tableRows
              ++ [Sample.row "Zoe Quinn zoe@example.com"
                    [Sample.leaf "Zoe" true; Sample.leaf "Quinn" true;
                     Sample.leaf "zoe@example.com" true]])%list
        else []
    | _ => Sample.samplePage q
    end.

(** A library on pages that render this row while the test sleeps. *)
Definition lateRowEnv : Env :=
  {| latency := latency Sample.env;
     react := fun _ ev b =>
       match ev with
       | WaitForTimeout _ _ => fun _ => lateRowPage
       | _ => b
       end;
     failure := failure Sample.env |}.




(** A form: two buttons "Save", the second hidden; two check boxes "Terms";
    one field "Subjects"; two text boxes named "Email" by role, one of them
    also by label. *)
Definition formPage : Page :=
  fun q =>
    match q with
    | Css sel =>
        if String.eqb sel (buttonLocator (CommonLocators := Sample.commonLocators) "Save")
        then [Sample.leaf "Save" true; Sample.leaf "Save" false]
        else if String.eqb sel (checkBoxLocator (CommonLocators := Sample.commonLocators) "Terms")
        then [Sample.leaf "" true; Sample.leaf "" true]
        else if String.eqb sel (inputFieldLocator (CommonLocators := Sample.commonLocators) "Subjects")
        then [Sample.leaf "" true]
        else []
    | RoleNamed r n =>
        if String.eqb r "textbox" && String.eqb n "Email"
        then [Sample.leaf "" true; Sample.leaf "" true] else []
    | Label text => if String.eqb text "Email" then [Sample.leaf "" true] else []
    | _ => []
    end.

Definition formWorld : World :=
  {| browser := fun _ => formPage; now := 0; calls := 0; log := [] |}.

(** Selectors for [getRandomRowName]: the rows of the table body. *)
#[local] Instance rowLocators : WebTableRowLocators := {
  webTableRowsLocator := "//table/tbody/tr";
  webTableRowFirstNameLocator := "//table/tbody/tr/td[1]";
  webTableRowsLocator_parses := eq_refl }.

(** The sample page, answering this selector with its three data rows. *)
Definition bodyRowsPage : Page :=
  fun q =>
    match q with
    | Css sel =>
        if String.eqb sel "//table/tbody/tr" then skipn 1 Sample.tableRows
        else Sample.samplePage q
    | _ => Sample.samplePage q
    end.

Definition bodyRowsWorld : World :=
  {| browser := fun _ => bodyRowsPage; now := 0; calls := 0; log := [] |}.

(** A form whose first button "Save" shows but is disabled; a second one
    could be clicked. *)
Definition disabledButton : Node :=
  {| el_innerText := "Save"; el_textContent := Some "Save"; el_visible := true;
     el_stable := true; el_receivesEvents := true;
     el_enabled := false; el_editable := false;
     el_within := fun _ => [] |}.

Definition disabledFormPage : Page :=
  fun q =>
    match q with
    | Css sel =>
        if String.eqb sel (buttonLocator (CommonLocators := Sample.commonLocators) "Save")
        then [disabledButton; Sample.leaf "Save" true]
        else []
    | _ => []
    end.

Definition disabledFormWorld : World :=
  {| browser := fun _ => disabledFormPage; now := 0; calls := 0; log := [] |}.

(** The sample page, answering the cell selector for Cierra's e-mail. *)
Definition cellPage : Page :=
  fun q =>
    match q with
    | Css sel =>
        if String.eqb sel
             (webTableCellLocator (WebTablePageLocators := Sample.webTableLocators)
                "Cierra" 3)
        then [Sample.leaf " cierra@example.com " true]
        else Sample.samplePage q
    | _ => Sample.samplePage q
    end.

Definition cellWorld : World :=
  {| browser := fun _ => cellPage; now := 0; calls := 0; log := [] |}.

End MoreSamples.

(** * Properties *)

(** ** Strings *)

Section StringFacts.

Lemma isWhiteSpace_lowerChar (c : ascii) :
  isWhiteSpace (lowerChar c) = isWhiteSpace c.
Proof. destruct c as [[] [] [] [] [] [] [] []]; reflexivity. Qed.

Lemma isEmpty_true (s : string) : isEmpty s = true <-> s = "".
Proof. destruct s; simpl; split; congruence. Qed.

Lemma isEmpty_toLowerCase (s : string) :
  isEmpty (toLowerCase s) = isEmpty s.
Proof. destruct s; reflexivity. Qed.

Lemma toLowerCase_trimStart (s : string) :
  toLowerCase (trimStart s) = trimStart (toLowerCase s).
Proof.
  induction s as [|c r IH]; simpl; [reflexivity|].
  rewrite isWhiteSpace_lowerChar.
  destruct (isWhiteSpace c); [exact IH | reflexivity].
Qed.

Lemma toLowerCase_trimEnd (s : string) :
  toLowerCase (trimEnd s) = trimEnd (toLowerCase s).
Proof.
  induction s as [|c r IH]; simpl; [reflexivity|].
  rewrite isWhiteSpace_lowerChar, <- IH, isEmpty_toLowerCase.
  destruct (isWhiteSpace c && isEmpty (trimEnd r)); reflexivity.
Qed.

(** Lower-casing and trimming commute: [normalize] is the specification's
    lower-case of the trimmed text. *)
Lemma normalize_trim_first (s : string) :
  normalize s = toLowerCase (trim s).
Proof.
  unfold normalize, trim.
  now rewrite toLowerCase_trimEnd, toLowerCase_trimStart.
Qed.

Lemma trimEnd_idempotent (s : string) : trimEnd (trimEnd s) = trimEnd s.
Proof.
  induction s as [|c r IH]; simpl; [reflexivity|].
  destruct (isWhiteSpace c && isEmpty (trimEnd r)) eqn:W; simpl;
    [reflexivity | now rewrite IH, W].
Qed.

(** A text that does not start with white space keeps its start when its
    end is trimmed. *)
Lemma trimStart_trimEnd_fixed (s : string) :
  trimStart s = s -> trimStart (trimEnd s) = trimEnd s.
Proof.
  destruct s as [|c r]; simpl; [reflexivity|].
  destruct (isWhiteSpace c) eqn:W; simpl.
  - intros H. exfalso.
    assert (L : forall u, (String.length (trimStart u) <= String.length u)%nat).
    { induction u as [|d u IHu]; simpl; [lia|].
      destruct (isWhiteSpace d); simpl; lia. }
    specialize (L r). rewrite H in L. simpl in L. lia.
  - intros _. now rewrite W.
Qed.

Lemma trimStart_idempotent (s : string) : trimStart (trimStart s) = trimStart s.
Proof.
  induction s as [|c r IH]; simpl; [reflexivity|].
  destruct (isWhiteSpace c) eqn:W; [exact IH | simpl; now rewrite W].
Qed.

Lemma trim_idempotent (s : string) : trim (trim s) = trim s.
Proof.
  unfold trim.
  rewrite (trimStart_trimEnd_fixed (trimStart s) (trimStart_idempotent s)).
  apply trimEnd_idempotent.
Qed.

(** Trimming before normalising changes nothing. *)
Lemma normalize_trim (s : string) : normalize (trim s) = normalize s.
Proof. now rewrite !normalize_trim_first, trim_idempotent. Qed.

Lemma match_trim_l (a b : string) (m : MatchMode) :
  match_ (trim a) b m = match_ a b m.
Proof. unfold match_. now rewrite normalize_trim. Qed.

Lemma startsWith_spec (s t : string) :
  startsWith s t = true <-> exists post, s = t ++ post.
Proof.
  revert s; induction t as [|b t IH]; intros s; simpl.
  - destruct s; split; eauto.
  - destruct s as [|a s]; simpl.
    + split; [discriminate | intros [post H]; discriminate].
    + rewrite andb_true_iff, Ascii.eqb_eq, IH. split.
      * intros [-> [post ->]]. now exists post.
      * intros [post H]. injection H as -> ->. eauto.
Qed.

Lemma includes_spec (s t : string) :
  includes s t = true <-> exists pre post, s = pre ++ t ++ post.
Proof.
  induction s as [|a s IH].
  - cbn [includes]. rewrite orb_false_r, startsWith_spec. split.
    + intros [post H]. now exists "", post.
    + intros [pre [post H]]. destruct pre; [now exists post | discriminate].
  - cbn [includes]. rewrite orb_true_iff, startsWith_spec, IH. split.
    + intros [[post H] | [pre [post H]]].
      * now exists "", post.
      * exists (String a pre), post. simpl. now rewrite H.
    + intros [pre [post H]]. destruct pre as [|c pre]; simpl in H.
      * left. now exists post.
      * right. injection H as _ H. now exists pre, post.
Qed.

Lemma append_assoc (a b c : string) : (a ++ b) ++ c = a ++ b ++ c.
Proof. induction a as [|x a IH]; simpl; [reflexivity | now rewrite IH]. Qed.

Lemma includes_middle (pre t post : string) :
  includes (pre ++ t ++ post) t = true.
Proof. apply includes_spec. now exists pre, post. Qed.

Lemma includes_refl (s : string) : includes s s = true.
Proof.
  apply includes_spec. exists "", "". simpl.
  induction s as [|a s IH]; simpl; [reflexivity | now rewrite <- IH].
Qed.

Lemma includes_append_l (pre s t : string) :
  includes s t = true -> includes (pre ++ s) t = true.
Proof.
  rewrite !includes_spec. intros [p [q ->]].
  exists (pre ++ p), q. now rewrite append_assoc.
Qed.

Lemma includes_append_r (s post t : string) :
  includes s t = true -> includes (s ++ post) t = true.
Proof.
  rewrite !includes_spec. intros [p [q ->]].
  exists p, (q ++ post). now rewrite !append_assoc.
Qed.

End StringFacts.

(** C2. [match] is the specification's rule: in mode [exact] the two texts,
    trimmed and lower-cased, are equal; in mode [partial] the first, trimmed
    and lower-cased, contains the second as a substring; and [partial] is not
    symmetric: "abc" contains "b", "b" does not contain "abc". *)
Theorem match_meets_spec :
  (forall a b mode, match_ a b mode = true <-> spec_match a b mode) /\
  (match_ "abc" "b" partial = true /\ match_ "b" "abc" partial = false).
Proof.
  split; [|split; reflexivity].
  intros a b [|]; unfold match_, spec_match; rewrite !normalize_trim_first.
  - apply String.eqb_eq.
  - apply includes_spec.
Qed.

(** ** [findIndex] *)

Section FindIndex.

Context {A : Type} (p : A -> bool).

Lemma findIndexFrom_range (i : Z) (xs : list A) :
  findIndexFrom p i xs = -1 \/
  i <= findIndexFrom p i xs < i + Z.of_nat (List.length xs).
Proof.
  revert i; induction xs as [|x r IH]; intros i; simpl; [now left|].
  destruct (p x); [right; lia|].
  destruct (IH (i + 1)) as [H | H]; [now left | right; lia].
Qed.

Lemma findIndexFrom_none (i : Z) (xs : list A) :
  0 <= i ->
  (findIndexFrom p i xs = -1 <-> forall x, In x xs -> p x = false).
Proof.
  revert i; induction xs as [|x r IH]; intros i Hi; simpl.
  - split; [intros _ x [] | reflexivity].
  - destruct (p x) eqn:Px.
    + split; [lia | intros H; specialize (H x (or_introl eq_refl)); congruence].
    + rewrite IH by lia. split.
      * intros H y [<- | Hy]; auto.
      * intros H y Hy. apply H. now right.
Qed.

Lemma findIndexFrom_first (i : Z) (xs : list A) (k : nat) :
  0 <= i ->
  (findIndexFrom p i xs = i + Z.of_nat k <-> isFirst p xs k).
Proof.
  revert i k; induction xs as [|x r IH]; intros i k Hi; simpl.
  - split; [lia | intros [[y [H _]] _]; destruct k; discriminate].
  - destruct (p x) eqn:Px.
    + split.
      * intros H. assert (k = 0%nat) as -> by lia.
        split; [exists x; now split | intros j y Hj; lia].
      * intros [_ H]. destruct k as [|k]; [lia|].
        specialize (H 0%nat x ltac:(lia) eq_refl). congruence.
    + destruct k as [|k].
      * split.
        -- intros H. destruct (findIndexFrom_range (i + 1) r); lia.
        -- intros [[y [H Py]] _]. simpl in H. congruence.
      * replace (i + Z.of_nat (S k)) with (i + 1 + Z.of_nat k) by lia.
        rewrite IH by lia. unfold isFirst. simpl. split.
        -- intros [H1 H2]. split; [exact H1|].
           intros [|j] y Hj Hy; simpl in Hy; [congruence|].
           apply (H2 j y); [lia | exact Hy].
        -- intros [H1 H2]. split; [exact H1|].
           intros j y Hj Hy. apply (H2 (S j) y); [lia | exact Hy].
Qed.

Lemma findIndex_none (xs : list A) :
  findIndex p xs = -1 <-> forall x, In x xs -> p x = false.
Proof. apply findIndexFrom_none. lia. Qed.

Lemma findIndex_first (xs : list A) (k : nat) :
  findIndex p xs = Z.of_nat k <-> isFirst p xs k.
Proof. apply (findIndexFrom_first 0 xs k). lia. Qed.

Lemma findIndex_cases (xs : list A) :
  findIndex p xs = -1 \/ exists k, findIndex p xs = Z.of_nat k.
Proof.
  destruct (findIndexFrom_range 0 xs) as [H | H]; [now left | right].
  exists (Z.to_nat (findIndex p xs)). unfold findIndex. lia.
Qed.

Lemma isFirst_unique (xs : list A) (i j : nat) :
  isFirst p xs i -> isFirst p xs j -> i = j.
Proof.
  intros [[x [Hx Px]] Hi] [[y [Hy Py]] Hj].
  destruct (Nat.lt_trichotomy i j) as [H | [H | H]]; [|exact H|].
  - specialize (Hj i x H Hx). congruence.
  - specialize (Hi j y H Hy). congruence.
Qed.

End FindIndex.

Lemma isFirst_map {A B} (f : A -> B) (p : B -> bool) (xs : list A) (i : nat) :
  isFirst p (map f xs) i <-> isFirst (fun x => p (f x)) xs i.
Proof.
  unfold isFirst. split.
  - intros [[y [Hy Py]] H]. rewrite nth_error_map in Hy.
    destruct (nth_error xs i) as [x|] eqn:Hx; [|discriminate].
    injection Hy as <-. split; [now exists x|].
    intros j z Hj Hz. apply (H j (f z) Hj). now rewrite nth_error_map, Hz.
  - intros [[x [Hx Px]] H]. split.
    + exists (f x). now rewrite nth_error_map, Hx.
    + intros j y Hj Hy. rewrite nth_error_map in Hy.
      destruct (nth_error xs j) as [z|] eqn:Hz; [|discriminate].
      injection Hy as <-. now apply (H j z).
Qed.

Lemma isFirst_ext {A} (p q : A -> bool) (xs : list A) (i : nat) :
  (forall x, p x = q x) -> isFirst p xs i <-> isFirst q xs i.
Proof.
  intros H. unfold isFirst. split; intros [[x [Hx Px]] F]; split.
  - exists x. now rewrite <- H.
  - intros j y Hj Hy. rewrite <- H. eauto.
  - exists x. now rewrite H.
  - intros j y Hj Hy. rewrite H. eauto.
Qed.

(** ** WebTableHelper.getColumnIndex *)

Section ColumnIndex.

Import WebTableHelper.
Context (E : Env).

(** What one call of [getColumnIndex] comes to. *)
Lemma getColumnIndex_run columnName mode self w :
  let headers := map trim (renderedHeaders (browser w) (page self)) in
  let index :=
    findIndex (fun h => match_ h columnName (nullish mode partial)) headers in
  getColumnIndex E columnName mode self w =
  Some (if index =? -1 then Throw (columnNotFound columnName headers)
        else Return index,
        self, call E (AllInnerTexts (headersLocator self)) w).
Proof.
  cbv zeta. unfold getColumnIndex, getHeaders, bind, this, allInnerTexts, ret.
  unfold listed. cbn -[findIndex match_ Z.eqb]. unfold renderedHeaders.
  destruct (browser w (page self) (Css "table thead th"));
    destruct (findIndex _ _ =? -1); reflexivity.
Qed.

End ColumnIndex.

(** C3. On every list of rendered header texts, [getColumnIndex] returns the
    smallest 0-based index whose header matches [columnName] under the mode
    (partial when none is given); it throws exactly when no header matches,
    and the message of that [Error] contains [columnName] and the list of
    the available headers. *)
Theorem getColumnIndex_smallest_or_throws :
  forall (E : Env) (columnName : string) (mode : option MatchMode)
         (self : WebTableHelper.t) (w : World),
    let rendered := renderedHeaders (browser w) (WebTableHelper.page self) in
    let matches := fun h => match_ h columnName (nullish mode partial) in
    exists o w',
      WebTableHelper.getColumnIndex E columnName mode self w = Some (o, self, w') /\
      (forall i, o = Return i <->
                 exists k, i = Z.of_nat k /\ isFirst matches rendered k) /\
      ((exists e, o = Throw e) <->
       forall h, In h rendered -> matches h = false) /\
      (forall e, o = Throw e ->
                 exists msg, e = Error msg /\
                             includes msg columnName = true /\
                             includes msg (join ", " (map trim rendered)) = true).
Proof.
  intros E columnName mode self w rendered matches.
  rewrite getColumnIndex_run. fold rendered.
  set (headers := map trim rendered).
  set (q := fun h => match_ h columnName (nullish mode partial)).
  assert (Q : forall k, isFirst q headers k <-> isFirst matches rendered k).
  { intros k. unfold headers. rewrite isFirst_map.
    apply isFirst_ext. intros x. apply match_trim_l. }
  assert (N : findIndex q headers = -1 <->
              forall h, In h rendered -> matches h = false).
  { rewrite findIndex_none. unfold headers. split.
    - intros H h Hh. unfold matches. rewrite <- match_trim_l.
      apply H, in_map, Hh.
    - intros H h Hh. apply in_map_iff in Hh as [x [<- Hx]].
      unfold q. rewrite match_trim_l. now apply H. }
  eexists _, _. split; [reflexivity|].
  destruct (findIndex q headers =? -1) eqn:I.
  - apply Z.eqb_eq in I. repeat split.
    + discriminate.
    + intros [k [-> Hk]]. exfalso. apply Q, findIndex_first in Hk. lia.
    + intros _. now apply N.
    + intros _. now exists (WebTableHelper.columnNotFound columnName headers).
    + intros e He. injection He as <-. eexists. split; [reflexivity|]. split.
      * unfold quoted. apply includes_append_l, includes_append_r.
        apply includes_append_l, includes_append_r, includes_refl.
      * do 5 apply includes_append_l. apply includes_refl.
  - apply Z.eqb_neq in I. repeat split.
    + intros H. injection H as <-.
      destruct (findIndex_cases q headers) as [H | [k Hk]]; [contradiction|].
      exists k. split; [exact Hk | now apply Q, findIndex_first].
    + intros [k [-> Hk]]. f_equal. now apply findIndex_first, Q.
    + intros [e He]. discriminate.
    + intros H. now apply N in H.
    + discriminate.
Qed.

(** C3 on the sample page: "email" is found in the third header, index 2,
    and no header before it matches. *)
Lemma getColumnIndex_smallest_or_throws_witness :
  outcomeOf (WebTableHelper.getColumnIndex Sample.env "email" None
               Sample.helper Sample.world) = Some (Return 2) /\
  isFirst (fun h => match_ h "email" partial)
          (renderedHeaders (browser Sample.world) 0%nat) 2.
Proof.
  assert (O : outcomeOf (WebTableHelper.getColumnIndex Sample.env "email" None
                           Sample.helper Sample.world) = Some (Return 2))
    by (vm_compute; reflexivity).
  split; [exact O|].
  destruct (getColumnIndex_smallest_or_throws Sample.env "email" None
              Sample.helper Sample.world) as [o [w' [R [H _]]]].
  rewrite R in O. cbn [outcomeOf] in O. injection O as ->.
  destruct (proj1 (H 2) eq_refl) as [k [Hk F]].
  replace k with 2%nat in F by lia. exact F.
Defined.

(** ** Calls and worlds *)

Section Calls.

Context (E : Env) {Self : Type}.

Lemma browser_call_read ev w :
  isRead ev = true -> browser (call E ev w) = browser w.
Proof. intros H. unfold call. simpl. now rewrite H. Qed.

Lemma browser_call_still ev w :
  still E -> browser (call E ev w) = browser w.
Proof. intros H. unfold call. simpl. destruct (isRead ev); auto. Qed.

Lemma now_call ev w : now w + sleeps ev <= now (call E ev w).
Proof. unfold call. simpl. lia. Qed.

Lemma sleeps_nonneg ev : 0 <= sleeps ev.
Proof. destruct ev; simpl; lia. Qed.

Lemma after_refl P w : after P w w.
Proof. split; [lia | exists []; split; [now rewrite app_nil_r | constructor]]. Qed.

Lemma after_trans P w1 w2 w3 :
  after P w1 w2 -> after P w2 w3 -> after P w1 w3.
Proof.
  intros [N1 [e1 [L1 F1]]] [N2 [e2 [L2 F2]]]. split; [lia|].
  exists (e1 ++ e2)%list. split.
  - now rewrite L2, L1, app_assoc.
  - now apply Forall_app.
Qed.

Lemma after_call (P : Event -> Prop) ev w : P ev -> after P w (call E ev w).
Proof.
  intros H. split.
  - pose proof (now_call ev w). pose proof (sleeps_nonneg ev). lia.
  - exists [ev]. split; [reflexivity | now constructor].
Qed.

Lemma listed_wellFormed b l :
  wellFormed l = true -> listed b l = Some (resolve b l).
Proof. intros P. unfold listed. rewrite P. now destruct (resolve b l). Qed.

Lemma listed_some b l :
  resolve b l <> [] -> listed b l = Some (resolve b l).
Proof. intros N. unfold listed. now destruct (resolve b l). Qed.

Lemma count_run l (s : Self) w :
  wellFormed l = true ->
  count E l s w =
  Some (Return (List.length (resolve (browser w) l)), s, call E (Count l) w).
Proof.
  intros P. unfold count.
  now rewrite browser_call_read, listed_wellFormed by auto.
Qed.

Lemma count_some l (s : Self) w :
  resolve (browser w) l <> [] ->
  count E l s w =
  Some (Return (List.length (resolve (browser w) l)), s, call E (Count l) w).
Proof.
  intros N. unfold count.
  now rewrite browser_call_read, listed_some by auto.
Qed.

Lemma count_rejected l (s : Self) w :
  wellFormed l = false -> resolve (browser w) l = [] ->
  count E l s w = Some (Throw (libraryError E (Count l)), s, call E (Count l) w).
Proof.
  intros P N. unfold count, listed.
  now rewrite browser_call_read, N, P by auto.
Qed.

Lemma allInnerTexts_run l (s : Self) w :
  wellFormed l = true ->
  allInnerTexts E l s w =
  Some (Return (map el_innerText (resolve (browser w) l)), s,
        call E (AllInnerTexts l) w).
Proof.
  intros P. unfold allInnerTexts.
  now rewrite browser_call_read, listed_wellFormed by auto.
Qed.

Lemma innerText_nth l i x (s : Self) w :
  nth_error (resolve (browser w) l) i = Some x ->
  innerText E (Nth l i) s w =
  Some (Return (el_innerText x), s, call E (InnerText (Nth l i)) w).
Proof.
  intros H. unfold innerText, onElement, single.
  rewrite browser_call_read by reflexivity. simpl. now rewrite H.
Qed.

End Calls.

(** ** WebTableHelper.getRow *)

Section GetRow.

Import WebTableHelper.
Context (E : Env).

(** One scan over the rows of a page: it stops at the first row that
    matches, or looks at all of them; it only reads. *)
Lemma scanRows_spec rowText mode self (n : nat) :
  forall (i : nat) (w : World),
    (i + n = List.length (renderedRows (browser w) (page self)))%nat ->
    exists found w',
      scanRows E (rowsLocator self) rowText mode i n self w
      = Some (Return found, self, w') /\
      browser w' = browser w /\
      after sleeps300 w w' /\
      match found with
      | None =>
          forall j x, (i <= j)%nat ->
            nth_error (renderedRows (browser w) (page self)) j = Some x ->
            rowMatches rowText mode x = false
      | Some row =>
          exists k x,
            row = Nth (rowsLocator self) k /\ (i <= k)%nat /\
            nth_error (renderedRows (browser w) (page self)) k = Some x /\
            rowMatches rowText mode x = true /\
            forall j y, (i <= j < k)%nat ->
              nth_error (renderedRows (browser w) (page self)) j = Some y ->
              rowMatches rowText mode y = false
      end.
Proof.
  induction n as [|n IH]; intros i w Hlen.
  - exists None, w. simpl.
    split; [reflexivity|]. split; [reflexivity|]. split; [apply after_refl|].
    intros j x Hj Hx. assert (Hs : nth_error (renderedRows (browser w) (page self)) j <> None) by congruence.
    apply nth_error_Some in Hs. lia.
  - destruct (nth_error (renderedRows (browser w) (page self)) i) as [x|] eqn:Hx.
    2:{ apply nth_error_None in Hx. lia. }
    cbn [scanRows]. unfold bind at 1.
    rewrite (innerText_nth E (rowsLocator self) i x) by exact Hx.
    rewrite match_trim_l.
    set (w1 := call E (InnerText (Nth (rowsLocator self) i)) w).
    assert (B1 : browser w1 = browser w) by now apply browser_call_read.
    assert (A1 : after sleeps300 w w1) by now apply after_call.
    destruct (match_ (el_innerText x) rowText mode) eqn:Mx.
    + exists (Some (Nth (rowsLocator self) i)), w1.
      split; [reflexivity|]. split; [exact B1|]. split; [exact A1|].
      exists i, x. split; [reflexivity|]. split; [lia|].
      split; [exact Hx|]. split; [exact Mx|]. intros j y Hj. lia.
    + destruct (IH (S i) w1) as [found [w' [R [B [A F]]]]].
      { rewrite B1. lia. }
      exists found, w'. split; [exact R|]. split; [congruence|].
      split; [eapply after_trans; eauto|].
      rewrite B1 in F. destruct found as [row|].
      * destruct F as [k [y [-> [Hk [Hy [My Hbefore]]]]]].
        exists k, y. split; [reflexivity|]. split; [lia|].
        split; [exact Hy|]. split; [exact My|].
        intros j z Hj Hz. destruct (Nat.eq_dec j i) as [-> | Hne].
        -- rewrite Hx in Hz. injection Hz as <-. exact Mx.
        -- apply (Hbefore j z); [lia | exact Hz].
      * intros j z Hj Hz. destruct (Nat.eq_dec j i) as [-> | Hne].
        -- rewrite Hx in Hz. injection Hz as <-. exact Mx.
        -- apply (F j z); [lia | exact Hz].
Qed.


Lemma scanRows_from_start rowText mode self w :
  exists found w',
    scanRows E (rowsLocator self) rowText mode 0
      (List.length (renderedRows (browser w) (page self))) self w
    = Some (Return found, self, w') /\
    browser w' = browser w /\
    after sleeps300 w w' /\
    match found with
    | None =>
        forall x, In x (renderedRows (browser w) (page self)) ->
                  rowMatches rowText mode x = false
    | Some row =>
        exists k, row = Nth (rowsLocator self) k /\
                  isFirst (rowMatches rowText mode)
                          (renderedRows (browser w) (page self)) k
    end.
Proof.
  destruct (scanRows_spec rowText mode self _ 0%nat w eq_refl)
    as [found [w' [R [B [A F]]]]].
  exists found, w'. split; [exact R|]. split; [exact B|]. split; [exact A|].
  destruct found as [row|].
  - destruct F as [k [x [-> [_ [Hx [Mx Hb]]]]]]. exists k.
    split; [reflexivity|]. split; [now exists x|].
    intros j y Hj Hy. apply (Hb j y); [lia | exact Hy].
  - intros x Hx. apply In_nth_error in Hx as [j Hj].
    apply (F j x); [lia | exact Hj].
Qed.

(** One turn of the [while] loop. *)
Lemma pollRows_step b start timeout rowText mode self w :
  pollRows E (S b) start timeout rowText mode self w =
  if lessThan (now w - start) timeout then
    match scanRows E (rowsLocator self) rowText mode 0
            (List.length (renderedRows (browser w) (page self))) self
            (call E (Count (rowsLocator self)) w) with
    | Some (Return (Some row), s', w') => Some (Return (Some row), s', w')
    | Some (Return None, s', w') =>
        pollRows E b start timeout rowText mode s'
                 (call E (WaitForTimeout (page self) 300) w')
    | Some (Throw e, s', w') => Some (Throw e, s', w')
    | None => None
    end
  else Some (Return None, self, w).
Proof.
  cbn [pollRows]. unfold bind at 1. unfold dateNow.
  destruct (lessThan (now w - start) timeout); [|reflexivity].
  unfold bind at 1. unfold this. unfold bind at 1.
  rewrite count_run by reflexivity.
  unfold bind at 1. fold (rowsLocator self). unfold renderedRows.
  cbn [resolve rowsLocator].
  destruct (scanRows E _ rowText mode 0 _ self _) as [[[[[row|]|e] s'] w']|];
    try reflexivity.
Qed.

(** What the loop has established when it is left. *)
Lemma pollRows_post start timeout rowText mode self (b : nat) :
  forall w o s' w',
    pollRows E b start timeout rowText mode self w = Some (o, s', w') ->
    s' = self /\ after sleeps300 w w' /\
    (still E -> browser w' = browser w) /\
    exists found, o = Return found /\
      match found with
      | Some row =>
          exists k, row = Nth (rowsLocator self) k /\
                    isFirst (rowMatches rowText mode)
                            (renderedRows (browser w') (page self)) k
      | None =>
          lessThan (now w' - start) timeout = false /\
          (lessThan (now w - start) timeout = true ->
           forall x, In x (renderedRows (browser w) (page self)) ->
                     rowMatches rowText mode x = false)
      end.
Proof.
  induction b as [|b IH]; intros w o s' w' H; [discriminate|].
  rewrite pollRows_step in H.
  destruct (lessThan (now w - start) timeout) eqn:LT.
  - set (w0 := call E (Count (rowsLocator self)) w) in *.
    assert (B0 : browser w0 = browser w) by now apply browser_call_read.
    assert (A0 : after sleeps300 w w0) by now apply after_call.
    rewrite <- B0 in H.
    destruct (scanRows_from_start rowText mode self w0)
      as [found [w1 [R [B1 [A1 F]]]]].
    rewrite R in H. destruct found as [row|].
    + injection H as <- <- <-. split; [reflexivity|].
      split; [eapply after_trans; eauto|].
      split; [intros _; congruence|].
      exists (Some row). split; [reflexivity|]. now rewrite B1.
    + apply IH in H as [-> [A2 [St [found [-> P]]]]]. split; [reflexivity|].
      split.
      { eapply after_trans; [exact A0|]. eapply after_trans; [exact A1|].
        eapply after_trans; [|exact A2]. apply after_call. reflexivity. }
      split.
      { intros S. rewrite (St S), browser_call_still by exact S. congruence. }
      exists found. split; [reflexivity|].
      destruct found as [row|]; [exact P|].
      destruct P as [P _]. split; [exact P|].
      intros _. now rewrite <- B0.
  - injection H as <- <- <-. split; [reflexivity|]. split; [apply after_refl|].
    split; [reflexivity|].
    exists None. split; [reflexivity|]. split; [exact LT | discriminate].
Qed.

(** The loop is left within the budget the timeout allows. *)
Lemma pollRows_total start timeout rowText mode self (b : nat) :
  forall w, room start timeout w b ->
    exists r, pollRows E (S b) start timeout rowText mode self w = Some r.
Proof.
  induction b as [|b IH]; intros w Hroom; rewrite pollRows_step.
  - destruct timeout as [z| | |]; unfold room, lessThan in *;
      try contradiction; try (now eauto).
    replace (now w - start <? z) with false
      by (symmetry; apply Z.ltb_ge; lia).
    eauto.
  - destruct (lessThan (now w - start) timeout) eqn:LT; [|eauto].
    set (w0 := call E (Count (rowsLocator self)) w) in *.
    assert (B0 : browser w0 = browser w) by now apply browser_call_read.
    rewrite <- B0.
    destruct (scanRows_from_start rowText mode self w0)
      as [found [w1 [R [B1 [[N1 _] F]]]]].
    rewrite R. destruct found as [row|]; [eauto|].
    apply IH. destruct timeout as [z| | |]; unfold room in *; auto.
    pose proof (now_call E (Count (rowsLocator self)) w) as C0.
    pose proof (sleeps_nonneg (Count (rowsLocator self))) as S0.
    pose proof (now_call E (WaitForTimeout (page self) 300) w1) as C1.
    fold w0 in C0. change (sleeps (WaitForTimeout (page self) 300)) with 300 in C1.
    rewrite Nat2Z.inj_succ in Hroom. lia.
Qed.

(** A larger budget changes nothing once the loop has been left. *)
Lemma pollRows_mono start timeout rowText mode (b : nat) :
  forall self w r (b' : nat),
    pollRows E b start timeout rowText mode self w = Some r ->
    (b <= b')%nat ->
    pollRows E b' start timeout rowText mode self w = Some r.
Proof.
  induction b as [|b IH]; intros self w r b' H Hb; [discriminate|].
  destruct b' as [|b']; [lia|].
  rewrite pollRows_step in *.
  destruct (lessThan (now w - start) timeout); [|exact H].
  destruct (scanRows E _ rowText mode 0 _ self _) as [[[[[row|]|e] s'] w']|];
    try exact H.
  apply IH; [exact H | lia].
Qed.


Lemma rowTimeout_eq options :
  nullish (optField options timeout) (Finite 5000) = rowTimeout options.
Proof. destruct options as [[[t'|] m']|]; reflexivity. Qed.

Lemma rowMode_eq options :
  nullish (optField options mode) partial = rowMode options.
Proof. destruct options as [[t' [m'|]]|]; reflexivity. Qed.

(** [getRow] around its loop. *)
Lemma getRow_run n rowText options self w :
  getRow E n rowText options self w =
  match pollRows E n (now w) (rowTimeout options) rowText (rowMode options)
                 self w with
  | Some (Return (Some row), s', w') => Some (Return row, s', w')
  | Some (Return None, s', w') =>
      Some (Throw (rowNotFound rowText (rowTimeout options)
                     (map el_innerText (renderedRows (browser w') (page s')))),
            s', call E (AllInnerTexts (rowsLocator s')) w')
  | Some (Throw e, s', w') => Some (Throw e, s', w')
  | None => None
  end.
Proof.
  unfold getRow. rewrite rowTimeout_eq, rowMode_eq.
  unfold bind at 1. unfold dateNow. unfold bind at 1.
  destruct (pollRows E n (now w) _ rowText _ self w)
    as [[[[[row|]|e] s'] w']|]; try reflexivity.
  unfold bind at 1. unfold this. unfold bind at 1.
  now rewrite allInnerTexts_run by reflexivity.
Qed.

Lemma room_at_start timeout w :
  timeout <> PosInfinity ->
  room (now w) timeout w (pred (pollBudget timeout)).
Proof.
  destruct timeout as [z| | |]; unfold room, pollBudget; cbn [pred]; auto.
  intros _. pose proof (Z.div_mod (z + 299) 300 ltac:(lia)) as D.
  pose proof (Z.mod_pos_bound (z + 299) 300 ltac:(lia)) as Bd.
  lia.
Qed.



End GetRow.

(** [getRow] comes back within the budget of its timeout, having slept
    300 ms at a time and nothing else; on pages that stay as they are it
    has changed nothing, and it throws only if no row matches. *)
Lemma getRow_spec :
  forall (E : Env) (rowText : string)
         (options : option WebTableHelper.RowOptions)
         (self : WebTableHelper.t) (w : World),
    rowTimeout options <> PosInfinity ->
    exists o w',
      (forall n, (pollBudget (rowTimeout options) <= n)%nat ->
         WebTableHelper.getRow E n rowText options self w = Some (o, self, w')) /\
      after sleeps300 w w' /\
      (still E -> browser w' = browser w) /\
      match o with
      | Return row =>
          exists k,
            row = Nth (rowsLocator self) k /\
            isFirst (rowMatches rowText (rowMode options))
                    (renderedRows (browser w') (WebTableHelper.page self)) k
      | Throw e =>
          lessThan (now w' - now w) (rowTimeout options) = false /\
          e = WebTableHelper.rowNotFound rowText (rowTimeout options)
                (map el_innerText
                     (renderedRows (browser w') (WebTableHelper.page self))) /\
          (lessThan 0 (rowTimeout options) = true ->
           forall x, In x (renderedRows (browser w) (WebTableHelper.page self)) ->
                     rowMatches rowText (rowMode options) x = false)
      end.
Proof.
  intros E rowText options self w Hfin.
  destruct (pollRows_total E (now w) (rowTimeout options) rowText
              (rowMode options) self _ w (room_at_start _ w Hfin))
    as [[[o s'] w1] R].
  assert (Rn : forall n, (pollBudget (rowTimeout options) <= n)%nat ->
             WebTableHelper.pollRows E n (now w) (rowTimeout options) rowText
               (rowMode options) self w = Some (o, s', w1)).
  { intros n Hn. apply pollRows_mono with (b' := n) in R; [exact R|].
    destruct (rowTimeout options); simpl in *; lia. }
  apply pollRows_post in R as [-> [A [St [found [-> P]]]]].
  destruct found as [row|].
  - exists (Return row), w1. split.
    { intros n Hn. now rewrite getRow_run, (Rn n Hn). }
    split; [exact A|]. split; [exact St | exact P].
  - eexists (Throw _), _. split.
    { intros n Hn. rewrite getRow_run, (Rn n Hn). reflexivity. }
    set (w2 := call E (AllInnerTexts (rowsLocator self)) w1).
    assert (A2 : after sleeps300 w1 w2) by now apply after_call.
    assert (B2 : browser w2 = browser w1) by now apply browser_call_read.
    split; [eapply after_trans; eauto|].
    split; [intros S; rewrite B2; auto|].
    destruct P as [P1 P2]. split; [|split].
    + destruct A2 as [N2 _]. destruct (rowTimeout options) as [z| | |];
        cbn [lessThan] in *; try reflexivity; try contradiction.
      apply Z.ltb_ge in P1. apply Z.ltb_ge. lia.
    + now rewrite B2.
    + rewrite Z.sub_diag in P2. exact P2.
Qed.




(** ** WebTableHelper.getCellValue *)

Section GetCellValue.

Import WebTableHelper.
Context (E : Env).

Lemma resolve_cell (b : Browser) self (i j : nat) :
  resolve b (cellLocator self i j) =
  match cellAt (b (page self)) i j with
  | Some c => [c]
  | None => []
  end.
Proof.
  unfold cellLocator, cellAt. cbn [resolve rowsLocator].
  destruct (nth_error (b (page self) (Role "row")) i) as [x|]; cbn [flat_map].
  - now rewrite app_nil_r.
  - now destruct j.
Qed.

Lemma single_cell (b : Browser) self (i j : nat) :
  single b (cellLocator self i j) = cellAt (b (page self)) i j.
Proof.
  unfold single. rewrite resolve_cell.
  now destruct (cellAt (b (page self)) i j).
Qed.

(** A value that [getCellValue] returns is [cellValue] of the text content
    of a visible cell on the page as it then is. *)
Lemma getCellValue_return n rowText columnName options self w v s' w' :
  getCellValue E n rowText columnName options self w
  = Some (Return v, s', w') ->
  exists (i j : nat) node,
    cellAt (browser w' (page self)) i j = Some node /\
    el_visible node = true /\
    v = cellValue (el_textContent node) /\
    exists before,
      log w' = (log w ++ before
                ++ [AllInnerTexts (headersLocator self);
                    ExpectToBeVisible (cellLocator self i j) true;
                    TextContent (cellLocator self i j)])%list.
Proof.
  intros H. unfold getCellValue in H. unfold bind at 1 in H.
  match type of H with context [getRow E n rowText ?o self w] =>
    destruct (getRow E n rowText o self w) as [[[[row|e] s1] w1]|] eqn:R
  end; try discriminate.
  rewrite getRow_run in R.
  match type of R with context [pollRows E n ?st ?t rowText ?m self w] =>
    destruct (pollRows E n st t rowText m self w) as [[[o2 s2] w2]|] eqn:Pl
  end; try discriminate.
  apply pollRows_post in Pl as [-> [[_ [before [Lg _]]] [_ [found [-> P]]]]].
  destruct found as [row'|]; try discriminate.
  injection R as <- <- <-. destruct P as [k [-> _]].
  unfold bind at 1 in H. rewrite getColumnIndex_run in H.
  match type of H with context [findIndex ?q ?hs =? -1] =>
    destruct (findIndex q hs =? -1); try discriminate;
    set (j := Z.to_nat (findIndex q hs)) in *
  end.
  set (w3 := call E (AllInnerTexts (headersLocator self)) w2) in *.
  fold (cellLocator self k j) in H.
  unfold bind at 1 in H. unfold expectToBeVisible, onElement in H.
  rewrite single_cell in H.
  set (w4 := call E (ExpectToBeVisible (cellLocator self k j) true) w3) in *.
  destruct (cellAt (browser w4 (page self)) k j) as [node|] eqn:C;
    try discriminate.
  unfold ifVisible in H. destruct (el_visible node) eqn:V; try discriminate.
  unfold bind at 1 in H. unfold textContent, onElement in H.
  rewrite single_cell in H.
  set (w5 := call E (TextContent (cellLocator self k j)) w4) in *.
  assert (B5 : browser w5 = browser w4) by now apply browser_call_read.
  rewrite B5, C in H. unfold ret in H. injection H as <- <- <-.
  exists k, j, node. rewrite B5.
  split; [exact C|]. split; [exact V|]. split; [reflexivity|].
  exists before. unfold w5, w4, w3, call. cbn [log].
  rewrite Lg, <- !app_assoc. reflexivity.
Qed.


(** The same, with the way to the cell: the row is the first that matches
    on the pages as they are when [getRow] returns, the column the first
    header that matches on the same pages, and the cell is looked up by
    these two positions once the pages have come through the awaited
    expectation. *)
Lemma getCellValue_resolved n rowText columnName options self w v s' w' :
  getCellValue E n rowText columnName options self w
  = Some (Return v, s', w') ->
  exists (k j : nat) (cell : Node) (found : Browser),
    isFirst (rowMatches rowText (cellMatchMode options))
            (renderedRows found (page self)) k /\
    isFirst (fun h => match_ h columnName (cellColumnMatchMode options))
            (renderedHeaders found (page self)) j /\
    (still E -> found = browser w /\ browser w' = browser w) /\
    (exists c, browser w'
               = react E c (ExpectToBeVisible (cellLocator self k j) true) found) /\
    cellAt (browser w' (page self)) k j = Some cell /\
    el_visible cell = true /\
    v = cellValue (el_textContent cell).
Proof.
  intros H. unfold getCellValue in H. unfold bind at 1 in H.
  match type of H with context [getRow E n rowText ?o self w] =>
    destruct (getRow E n rowText o self w) as [[[[row|e] s1] w1]|] eqn:R
  end; try discriminate.
  rewrite getRow_run in R.
  match type of R with context [pollRows E n ?st ?t rowText ?m self w] =>
    destruct (pollRows E n st t rowText m self w) as [[[o2 s2] w2]|] eqn:Pl
  end; try discriminate.
  apply pollRows_post in Pl as [-> [_ [St2 [found [-> P]]]]].
  destruct found as [row'|]; try discriminate.
  injection R as <- <- <-. destruct P as [k [-> Fk]].
  unfold bind at 1 in H. rewrite getColumnIndex_run in H.
  cbn [nullish] in H.
  match type of H with context [findIndex ?q ?hs =? -1] =>
    destruct (findIndex_cases q hs) as [I | [j I]]; rewrite I in H
  end; [discriminate|].
  replace (Z.of_nat j =? -1) with false in H
    by (symmetry; apply Z.eqb_neq; lia).
  rewrite Nat2Z.id in H.
  apply findIndex_first in I. rewrite isFirst_map in I.
  assert (Fj : isFirst (fun h => match_ h columnName (cellColumnMatchMode options))
                 (renderedHeaders (browser w2) (page self)) j).
  { eapply isFirst_ext; [|exact I]. intros h. cbv beta.
    symmetry. apply match_trim_l. }
  set (w3 := call E (AllInnerTexts (headersLocator self)) w2) in *.
  assert (B3 : browser w3 = browser w2) by now apply browser_call_read.
  fold (cellLocator self k j) in H.
  unfold bind at 1 in H. unfold expectToBeVisible, onElement in H.
  rewrite single_cell in H.
  set (w4 := call E (ExpectToBeVisible (cellLocator self k j) true) w3) in *.
  destruct (cellAt (browser w4 (page self)) k j) as [cell|] eqn:C;
    try discriminate.
  unfold ifVisible in H. destruct (el_visible cell) eqn:V; try discriminate.
  unfold bind at 1 in H. unfold textContent, onElement in H.
  rewrite single_cell in H.
  set (w5 := call E (TextContent (cellLocator self k j)) w4) in *.
  assert (B5 : browser w5 = browser w4) by now apply browser_call_read.
  rewrite B5, C in H. unfold ret in H. injection H as <- <- <-.
  exists k, j, cell, (browser w2). rewrite B5.
  split; [exact Fk|]. split; [exact Fj|]. split.
  { intros St. split; [now apply St2|].
    unfold w4. rewrite browser_call_still by exact St.
    rewrite B3. now apply St2. }
  split.
  { exists (calls w3). unfold w4, call. cbn [browser isRead]. now rewrite B3. }
  split; [exact C|]. split; [exact V | reflexivity].
Qed.

(** [cellValue] is the trimmed text, or null. *)
Lemma cellValue_spec content v :
  cellValue content = v <-> trimmedTextOrNull content v.
Proof.
  unfold cellValue, trimmedTextOrNull. destruct content as [s|].
  - destruct (isEmpty (trim s)) eqn:Em.
    + apply isEmpty_true in Em. destruct v as [t|].
      * split; [discriminate|]. intros [raw [H [-> N]]]. injection H as <-.
        contradiction.
      * split; [intros _; right; now exists s | intros _; reflexivity].
    + assert (N : trim s <> "") by (intros T; apply isEmpty_true in T; congruence).
      destruct v as [t|].
      * split.
        -- intros H. injection H as <-. now exists s.
        -- intros [raw [H [-> _]]]. now injection H as <-.
      * split; [discriminate|]. intros [H | [raw [H T]]]; [discriminate|].
        injection H as <-. contradiction.
  - destruct v as [t|].
    + split; [discriminate|]. intros [raw [H _]]. discriminate.
    + split; [intros _; now left | intros _; reflexivity].
Qed.

(** On pages that stay as rendered, a call without options comes back
    within 18 evaluations of the loop condition, with [cellOutcome]. *)
Lemma getCellValue_still n rowText columnName self w :
  still E -> (18 <= n)%nat ->
  exists w',
    getCellValue E n rowText columnName None self w
    = Some (cellOutcome E self (browser w (page self)) rowText columnName,
            self, w').
Proof.
  intros St Hn.
  set (opts := Some {| timeout := None; mode := Some partial |}).
  destruct (getRow_spec E rowText opts self w) as [o [w1 [R [_ [B P]]]]];
    [discriminate|].
  specialize (R n Hn). specialize (B St).
  unfold getCellValue. cbn [optField nullish]. fold opts.
  unfold bind at 1. rewrite R. unfold cellOutcome.
  unfold renderedRows in P. rewrite B in P. cbn [rowMode opts] in P.
  destruct o as [row|e].
  - destruct P as [k [-> F]].
    pose proof F as [[x [Hx _]] _].
    apply findIndex_first in F. rewrite F.
    replace (Z.of_nat k =? -1) with false by (symmetry; apply Z.eqb_neq; lia).
    rewrite Nat2Z.id.
    unfold bind at 1. rewrite getColumnIndex_run. cbn [nullish].
    unfold renderedHeaders. rewrite B.
    match goal with |- context [findIndex ?q ?hs =? -1] =>
      destruct (findIndex q hs =? -1); [eauto|];
      set (j := Z.to_nat (findIndex q hs)) in *
    end.
    fold (cellLocator self k j).
    set (w2 := call E (AllInnerTexts (headersLocator self)) w1).
    unfold bind at 1. unfold expectToBeVisible, onElement.
    rewrite single_cell, browser_call_still by exact St.
    replace (browser w2) with (browser w)
      by (symmetry; rewrite <- B; now apply browser_call_read).
    destruct (cellAt (browser w (page self)) k j) as [node|] eqn:C; [|eauto].
    unfold ifVisible. destruct (el_visible node); [|eauto].
    unfold bind at 1. unfold textContent, onElement.
    rewrite single_cell, !browser_call_still by exact St.
    replace (browser w2) with (browser w)
      by (symmetry; rewrite <- B; now apply browser_call_read).
    rewrite C. unfold ret. eauto.
  - destruct P as [_ [-> No]]. specialize (No eq_refl).
    apply findIndex_none in No. rewrite No.
    exists w1. reflexivity.
Qed.

(** [cellOutcome] returns a value exactly for the cell the specification
    names, when that cell is visible. *)
Lemma cellOutcome_return self p rowText columnName v :
  cellOutcome E self p rowText columnName = Return v <->
  exists cell, resolvedCell p rowText columnName cell /\
               el_visible cell = true /\
               v = cellValue (el_textContent cell).
Proof.
  unfold cellOutcome, resolvedCell.
  set (rows := p (Role "row")).
  set (raw := map el_innerText (p (Css "table thead th"))).
  set (q := fun h => match_ h columnName partial).
  assert (Q : forall k, isFirst q (map trim raw) k <-> isFirst q raw k).
  { intros k. rewrite isFirst_map. apply isFirst_ext.
    intros x. apply match_trim_l. }
  split.
  - destruct (findIndex_cases (rowMatches rowText partial) rows) as [I | [i I]];
      rewrite I; [discriminate|].
    replace (Z.of_nat i =? -1) with false by (symmetry; apply Z.eqb_neq; lia).
    destruct (findIndex_cases q (map trim raw)) as [J | [j J]];
      rewrite J; [discriminate|].
    replace (Z.of_nat j =? -1) with false by (symmetry; apply Z.eqb_neq; lia).
    rewrite !Nat2Z.id.
    destruct (cellAt p i j) as [node|] eqn:C; [|discriminate].
    destruct (el_visible node) eqn:V; [|discriminate].
    intros H. injection H as <-. exists node.
    split; [|now split]. exists i, j. split; [now apply findIndex_first|].
    split; [now apply Q, findIndex_first | exact C].
  - intros [cell [[i [j [Fi [Fj C]]]] [V ->]]].
    apply findIndex_first in Fi. apply Q, findIndex_first in Fj.
    fold rows. rewrite Fi, Fj.
    replace (Z.of_nat i =? -1) with false by (symmetry; apply Z.eqb_neq; lia).
    replace (Z.of_nat j =? -1) with false by (symmetry; apply Z.eqb_neq; lia).
    rewrite !Nat2Z.id, C, V. reflexivity.
Qed.

Lemma cellOutcome_same_library (E' : Env) self p rowText columnName :
  (forall ev, failure E ev = failure E' ev) ->
  cellOutcome E self p rowText columnName
  = cellOutcome E' self p rowText columnName.
Proof.
  intros F. unfold cellOutcome, libraryError.
  repeat match goal with
         | |- context [if ?c then _ else _] => destruct c
         | |- context [match ?c with Some _ => _ | None => _ end] => destruct c
         end; try reflexivity; now rewrite F.
Qed.

End GetCellValue.

(** C1, as amended. On a page that stays as rendered, two runs of
    [getCellValue] for the same row text and column name, whatever the clock
    shows and however long the library takes in each, come back with the
    same outcome. A value is returned exactly for the visible cell at the
    first row whose inner text matches [rowText] and the first header that
    matches [columnName]; it is the trimmed text content of that cell, or
    null when the cell has no text or only white space. *)
Theorem getCellValue_deterministic :
  forall (E1 E2 : Env) (self : WebTableHelper.t) (w1 w2 : World)
         (rowText columnName : string) (n1 n2 : nat),
    still E1 -> still E2 ->
    (forall ev, failure E1 ev = failure E2 ev) ->
    browser w1 (WebTableHelper.page self) = browser w2 (WebTableHelper.page self) ->
    (18 <= n1)%nat -> (18 <= n2)%nat ->
    exists o w1' w2',
      WebTableHelper.getCellValue E1 n1 rowText columnName None self w1
      = Some (o, self, w1') /\
      WebTableHelper.getCellValue E2 n2 rowText columnName None self w2
      = Some (o, self, w2') /\
      forall v,
        o = Return v <->
        exists cell,
          resolvedCell (browser w1 (WebTableHelper.page self))
                       rowText columnName cell /\
          el_visible cell = true /\
          trimmedTextOrNull (el_textContent cell) v.
Proof.
  intros E1 E2 self w1 w2 rowText columnName n1 n2 S1 S2 F P N1 N2.
  destruct (getCellValue_still E1 n1 rowText columnName self w1 S1 N1) as [w1' R1].
  destruct (getCellValue_still E2 n2 rowText columnName self w2 S2 N2) as [w2' R2].
  eexists _, w1', w2'. split; [exact R1|]. split.
  - rewrite R2, <- P. f_equal. f_equal. f_equal. symmetry.
    now apply cellOutcome_same_library.
  - intros v. rewrite cellOutcome_return.
    split; intros [cell [Rc [V Hv]]]; exists cell;
      (split; [exact Rc|]); (split; [exact V|]).
    + apply cellValue_spec. now symmetry.
    + symmetry. now apply cellValue_spec.
Qed.

(** C1, a run on the sample page that the specification as worded does not
    allow: the e-mail cell of the row of Alden holds three blanks; what
    [getCellValue] returns for it is null, not the trimmed text of the cell,
    which is the empty string. *)
Lemma getCellValue_blank_cell_is_null :
  let r := WebTableHelper.getCellValue Sample.env 18 "alden" "email" None
             Sample.helper Sample.world in
  exists cell raw,
    resolvedCell (browser Sample.world 0%nat) "alden" "email" cell /\
    el_visible cell = true /\
    el_textContent cell = Some raw /\
    outcomeOf r = Some (Return None) /\
    outcomeOf r <> Some (Return (Some (trim raw))).
Proof.
  intros r. exists (Sample.leaf "   " true), "   ".
  split; [|split; [reflexivity|split; [reflexivity|split]]].
  - exists 2%nat, 2%nat. split; [|split; [|reflexivity]].
    + split; [eexists; split; reflexivity|].
      intros [|[|j]] y Hj Hy; try lia; injection Hy as <-; reflexivity.
    + split; [eexists; split; reflexivity|].
      intros [|[|j]] y Hj Hy; try lia; injection Hy as <-; reflexivity.
  - vm_compute. reflexivity.
  - vm_compute. discriminate.
Qed.

(** C1 on the sample page: a run at time 1000 with 7 ms per call and a run
    much later, twice as slow, on a longer budget; both return the e-mail
    address of Cierra without the blanks around it. *)
Lemma getCellValue_deterministic_witness :
  still Sample.env /\ still Sample.slowEnv /\
  (forall ev, failure Sample.env ev = failure Sample.slowEnv ev) /\
  browser Sample.world 0%nat = browser Sample.laterWorld 0%nat /\
  (18 <= 18)%nat /\ (18 <= 40)%nat /\
  exists o w1' w2',
    WebTableHelper.getCellValue Sample.env 18 "cierra" "email" None
      Sample.helper Sample.world = Some (o, Sample.helper, w1') /\
    WebTableHelper.getCellValue Sample.slowEnv 40 "cierra" "email" None
      Sample.helper Sample.laterWorld = Some (o, Sample.helper, w2') /\
    o = Return (Some "cierra@example.com").
Proof.
  assert (S1 : still Sample.env) by (intros k ev b; reflexivity).
  assert (S2 : still Sample.slowEnv) by (intros k ev b; reflexivity).
  assert (F : forall ev, failure Sample.env ev = failure Sample.slowEnv ev)
    by reflexivity.
  assert (P : browser Sample.world (WebTableHelper.page Sample.helper)
              = browser Sample.laterWorld (WebTableHelper.page Sample.helper))
    by reflexivity.
  assert (N1 : (18 <= 18)%nat) by lia.
  assert (N2 : (18 <= 40)%nat) by lia.
  repeat (split; [assumption|]).
  destruct (getCellValue_deterministic Sample.env Sample.slowEnv Sample.helper
              Sample.world Sample.laterWorld "cierra" "email" 18 40
              S1 S2 F P N1 N2) as [o [w1' [w2' [R1 [R2 _]]]]].
  exists o, w1', w2'. split; [exact R1|]. split; [exact R2|].
  assert (O : outcomeOf (WebTableHelper.getCellValue Sample.env 18 "cierra"
                           "email" None Sample.helper Sample.world)
              = Some (Return (Some "cierra@example.com")))
    by (vm_compute; reflexivity).
  rewrite R1 in O. cbn [outcomeOf] in O. now injection O.
Defined.

(** C8. [getCellValue] returns null exactly when the text content of the
    cell it resolved is absent or trims to the empty string; any other value
    is that text trimmed, which is not empty and has no white space left at
    either end. The cell it resolved is the one at the first row that
    matches, under the first header that matches. *)
Theorem getCellValue_null_or_trimmed :
  forall (E : Env) (n : nat) (rowText columnName : string)
         (options : option WebTableHelper.CellOptions)
         (self : WebTableHelper.t) (w : World) v s' w',
    WebTableHelper.getCellValue E n rowText columnName options self w
    = Some (Return v, s', w') ->
    exists (k j : nat) (cell : Node) (found : Browser),
      isFirst (rowMatches rowText (cellMatchMode options))
              (renderedRows found (WebTableHelper.page self)) k /\
      isFirst (fun h => match_ h columnName (cellColumnMatchMode options))
              (renderedHeaders found (WebTableHelper.page self)) j /\
      (still E -> found = browser w /\ browser w' = browser w) /\
      (exists c, browser w'
                 = react E c (ExpectToBeVisible (cellLocator self k j) true)
                         found) /\
      cellAt (browser w' (WebTableHelper.page self)) k j = Some cell /\
      el_visible cell = true /\
      (v = None <->
       el_textContent cell = None \/
       exists s, el_textContent cell = Some s /\ trim s = "") /\
      (forall t, v = Some t ->
                 t <> "" /\ trim t = t /\
                 exists s, el_textContent cell = Some s /\ t = trim s).
Proof.
  intros E n rowText columnName options self w v s' w' H.
  apply getCellValue_resolved in H
    as [k [j [cell [found [Fk [Fj [St [Re [C [V Hv]]]]]]]]]].
  exists k, j, cell, found.
  repeat (split; [assumption|]).
  symmetry in Hv. apply cellValue_spec in Hv. split.
  - split.
    + intros ->. exact Hv.
    + intros Hb. destruct v as [t|]; [|reflexivity].
      destruct Hv as [raw [Hraw [-> Ne]]].
      destruct Hb as [Hb | [s0 [Hs T]]]; [congruence|].
      rewrite Hraw in Hs. injection Hs as <-. contradiction.
  - intros t ->. destruct Hv as [raw [Hraw [-> Ne]]].
    split; [exact Ne|]. split; [apply trim_idempotent|]. now exists raw.
Qed.

(** C8 on the sample page: the e-mail cell of the row of Cierra, row 1 and
    column 2, reads " cierra@example.com " and the call returns it trimmed. *)
Lemma getCellValue_null_or_trimmed_witness :
  let r := WebTableHelper.getCellValue Sample.env 18 "cierra" "email" None
             Sample.helper Sample.world in
  outcomeOf r = Some (Return (Some "cierra@example.com")) /\
  exists (k j : nat) cell,
    isFirst (rowMatches "cierra" partial)
            (renderedRows (browser Sample.world) 0%nat) k /\
    isFirst (fun h => match_ h "email" partial)
            (renderedHeaders (browser Sample.world) 0%nat) j /\
    cellAt (browser Sample.world 0%nat) k j = Some cell /\
    exists s, el_textContent cell = Some s /\ "cierra@example.com" = trim s.
Proof.
  intros r.
  assert (O : outcomeOf r = Some (Return (Some "cierra@example.com")))
    by (vm_compute; reflexivity).
  split; [exact O|].
  destruct r as [[[o s'] w']|] eqn:R; [|discriminate].
  cbn [outcomeOf] in O. injection O as ->.
  destruct (getCellValue_null_or_trimmed Sample.env 18%nat "cierra" "email"
              None Sample.helper Sample.world _ s' w' R)
    as [k [j [cell [found [Fk [Fj [St [_ [C [_ [_ T]]]]]]]]]]].
  destruct (St (fun _ _ _ => eq_refl)) as [-> Bw].
  rewrite Bw in C.
  destruct (T _ eq_refl) as [_ [_ Hs]].
  exists k, j, cell. split; [exact Fk|]. split; [exact Fj|].
  split; [exact C | exact Hs].
Defined.

(** ** CommonUserActionsPage *)

Section UserActions.

Import CommonUserActionsPage.
Context (E : Env) {L : CommonLocators}.

Lemma forallb_blank (values : list string) :
  forallb (fun v => isEmpty (trim v)) values = true <->
  forall v, In v values -> trim v = "".
Proof.
  rewrite forallb_forall. split; intros H v Hv; apply isEmpty_true, H, Hv.
Qed.

(** A call on one element comes back, leaves the receiver alone and logs
    itself; it does not throw an [Error] of this repository. *)
Lemma onElement_cases {Self A} ev l (f : Node -> option A) (s : Self) w :
  exists o,
    onElement E ev l f s w = Some (o, s, call E ev w) /\
    ((exists a, o = Return a) \/ o = Throw (libraryError E ev)).
Proof.
  unfold onElement.
  destruct (single (browser (call E ev w)) l) as [n|]; [|eauto].
  destruct (f n) as [a|]; eauto.
Qed.


Lemma fill_cases l value (s : t) w :
  exists o,
    fill E l value s w = Some (o, s, call E (Fill l value) w) /\
    forall msg, o <> Throw (Error msg).
Proof.
  destruct (onElement_cases (Self := t) (Fill l value) l ifFillable s w)
    as [o [R [[a ->] | ->]]]; exists o || eexists; (split; [exact R|]);
    intros msg; discriminate.
Qed.


(** What [inputOnField] comes to, by the first strategy that matches. *)
Lemma inputOnField_run fieldName textInput self w :
  let pg := page self in
  let l1 := Root pg (RoleNamed "textbox" fieldName) in
  let l2 := Root pg (Label fieldName) in
  let l3 := Root pg (Placeholder fieldName) in
  let l4 := Root pg (Css (inputFieldLocator fieldName)) in
  let w1 := call E (Count l1) w in
  let w2 := call E (Count l2) w1 in
  let w3 := call E (Count l3) w2 in
  let w4 := call E (Count l4) w3 in
  inputOnField E fieldName textInput self w =
  match resolve (browser w) l1 with
  | _ :: _ => fill E l1 textInput self w1
  | [] =>
      match resolve (browser w) l2 with
      | _ :: _ => fill E l2 textInput self w2
      | [] =>
          match resolve (browser w) l3 with
          | _ :: _ => fill E l3 textInput self w3
          | [] =>
              match resolve (browser w) l4 with
              | _ :: _ => fill E l4 textInput self w4
              | [] =>
                  if parses (inputFieldLocator fieldName)
                  then Some (Throw (inputFieldNotFound fieldName), self, w4)
                  else Some (Throw (libraryError E (Count l4)), self, w4)
              end
          end
      end
  end.
Proof.
  intros pg l1 l2 l3 l4 w1 w2 w3 w4.
  assert (B1 : browser w1 = browser w) by now apply browser_call_read.
  assert (B2 : browser w2 = browser w)
    by (unfold w2; now rewrite browser_call_read).
  assert (B3 : browser w3 = browser w)
    by (unfold w3; now rewrite browser_call_read).
  unfold inputOnField. unfold bind at 1. unfold this. fold pg l1 l2 l3 l4.
  unfold bind at 1. rewrite count_run by reflexivity. fold w1.
  destruct (resolve (browser w) l1) as [|x1 r1] eqn:R1; [|reflexivity].
  cbn [List.length Nat.ltb Nat.leb].
  unfold bind at 1. rewrite count_run, B1 by reflexivity. fold w2.
  destruct (resolve (browser w) l2) as [|x2 r2] eqn:R2; [|reflexivity].
  cbn [List.length Nat.ltb Nat.leb].
  unfold bind at 1. rewrite count_run, B2 by reflexivity. fold w3.
  destruct (resolve (browser w) l3) as [|x3 r3] eqn:R3; [|reflexivity].
  cbn [List.length Nat.ltb Nat.leb].
  unfold bind at 1.
  destruct (resolve (browser w) l4) as [|x4 r4] eqn:R4.
  - destruct (parses (inputFieldLocator fieldName)) eqn:P4.
    + rewrite count_run, B3, R4 by exact P4. reflexivity.
    + rewrite count_rejected by (rewrite ?B3; assumption). reflexivity.
  - rewrite count_some, B3, R4 by (rewrite B3, R4; discriminate). reflexivity.
Qed.

End UserActions.




(** C10. When [values] is empty or every entry trims to the empty string,
    [inputMultiValues] throws its [Error] at once: the world it leaves is
    the world it found, with no call logged, no page changed and the clock
    where it was. *)
Theorem inputMultiValues_guard :
  forall (E : Env) (L : CommonLocators) (fieldName : string)
         (values : list string) (self : CommonUserActionsPage.t) (w : World),
    values = [] \/ (forall v, In v values -> trim v = "") ->
    CommonUserActionsPage.inputMultiValues E fieldName values self w
    = Some (Throw (CommonUserActionsPage.noValidValues fieldName), self, w).
Proof.
  intros E L fieldName values self w H.
  unfold CommonUserActionsPage.inputMultiValues.
  replace ((List.length values =? 0)%nat
           || forallb (fun v => isEmpty (trim v)) values) with true;
    [reflexivity|].
  symmetry. apply orb_true_iff. destruct H as [-> | H]; [now left | right].
  now apply forallb_blank.
Qed.

(** C10 on the sample page, for values that are blank. *)
Lemma inputMultiValues_guard_witness :
  (forall v, In v ["  "; ""] -> trim v = "") /\
  CommonUserActionsPage.inputMultiValues Sample.env
    (L := Sample.commonLocators) "Subjects" ["  "; ""]
    Sample.actions Sample.world
  = Some (Throw (CommonUserActionsPage.noValidValues "Subjects"),
          Sample.actions, Sample.world).
Proof.
  assert (H : forall v, In v ["  "; ""] -> trim v = "").
  { intros v [<- | [<- | []]]; reflexivity. }
  split; [exact H|].
  exact (inputMultiValues_guard Sample.env Sample.commonLocators "Subjects"
           ["  "; ""] Sample.actions Sample.world (or_intror H)).
Defined.

(** ** WebTablePage.getTableColumnIndexByName *)

Section ColumnIndexByName.

Import WebTablePage.
Context (E : Env) {L : WebTablePageLocators}.

(** The scan over the headers: it stops at the first header equal to the
    column name and answers its position plus one, or looks at them all. *)
Lemma scanHeaders_spec columnName self (n : nat) :
  forall (i : nat) (w : World),
    let hs := resolve (browser w) (columnHeaders self) in
    (i + n = List.length hs)%nat ->
    exists found w',
      scanHeaders E (columnHeaders self) columnName i n self w
      = Some (Return found, self, w') /\
      match found with
      | None =>
          forall j x, (i <= j)%nat -> nth_error hs j = Some x ->
                      headerEquals columnName (el_innerText x) = false
      | Some k =>
          exists j x,
            k = Z.of_nat j + 1 /\ (i <= j)%nat /\
            nth_error hs j = Some x /\
            headerEquals columnName (el_innerText x) = true /\
            forall j' y, (i <= j' < j)%nat -> nth_error hs j' = Some y ->
                         headerEquals columnName (el_innerText y) = false
      end.
Proof.
  induction n as [|n IH]; intros i w hs Hlen.
  - exists None, w. split; [reflexivity|].
    intros j x Hj Hx.
    assert (Hs : nth_error hs j <> None) by congruence.
    apply nth_error_Some in Hs. lia.
  - destruct (nth_error hs i) as [x|] eqn:Hx.
    2:{ apply nth_error_None in Hx. lia. }
    cbn [scanHeaders]. unfold bind at 1.
    rewrite (innerText_nth E (columnHeaders self) i x) by exact Hx.
    fold (headerEquals columnName (el_innerText x)).
    set (w1 := call E (InnerText (Nth (columnHeaders self) i)) w).
    assert (B1 : browser w1 = browser w) by now apply browser_call_read.
    destruct (headerEquals columnName (el_innerText x)) eqn:Mx.
    + exists (Some (Z.of_nat i + 1)), w1. split; [reflexivity|].
      exists i, x. split; [reflexivity|]. split; [lia|].
      split; [exact Hx|]. split; [exact Mx|]. intros j' y Hj. lia.
    + destruct (IH (S i) w1) as [found [w' [R F]]].
      { rewrite B1. fold hs. lia. }
      rewrite B1 in F. fold hs in F.
      exists found, w'. split; [exact R|]. destruct found as [k|].
      * destruct F as [j [y [-> [Hj [Hy [My Hb]]]]]].
        exists j, y. split; [reflexivity|]. split; [lia|].
        split; [exact Hy|]. split; [exact My|].
        intros j' z Hj' Hz. destruct (Nat.eq_dec j' i) as [-> | Hne].
        -- rewrite Hx in Hz. injection Hz as <-. exact Mx.
        -- apply (Hb j' z); [lia | exact Hz].
      * intros j z Hj Hz. destruct (Nat.eq_dec j i) as [-> | Hne].
        -- rewrite Hx in Hz. injection Hz as <-. exact Mx.
        -- apply (F j z); [lia | exact Hz].
Qed.

Lemma getTableColumnIndexByName_run columnName self w :
  getTableColumnIndexByName E columnName self w =
  match scanHeaders E (columnHeaders self) columnName 0
          (List.length (resolve (browser w) (columnHeaders self))) self
          (call E (Count (columnHeaders self)) w) with
  | Some (Return (Some k), s', w') => Some (Return k, s', w')
  | Some (Return None, s', w') =>
      Some (Throw (columnNameNotFound columnName), s', w')
  | Some (Throw e, s', w') => Some (Throw e, s', w')
  | None => None
  end.
Proof.
  unfold getTableColumnIndexByName. unfold bind at 1. unfold this.
  unfold bind at 1. fold (columnHeaders self).
  rewrite count_run by exact webTableColumnHeaderLocator_parses.
  unfold bind at 1.
  destruct (scanHeaders E _ columnName 0 _ self _)
    as [[[[[k|]|e] s'] w']|]; reflexivity.
Qed.

End ColumnIndexByName.

(** C9. [getTableColumnIndexByName] returns [i + 1] for the 0-based position
    [i] of the first header that, trimmed, equals [columnName] without
    regard to case; it throws when no header is equal in this way, also when
    one contains the name: on the sample page "name" is not found, where
    [getColumnIndex] of the helper answers 0, and "EMAIL" is column 3, which
    the helper numbers 2. *)
Theorem getTableColumnIndexByName_one_based_exact :
  (forall (E : Env) (L : WebTablePageLocators) (columnName : string)
          (self : WebTablePage.t) (w : World),
     let rendered :=
       map el_innerText (resolve (browser w) (columnHeaders self)) in
     exists o w',
       WebTablePage.getTableColumnIndexByName E columnName self w
       = Some (o, self, w') /\
       (forall k, o = Return k <->
                  exists i, k = Z.of_nat i + 1 /\
                            isFirst (headerEquals columnName) rendered i) /\
       ((exists e, o = Throw e) <->
        forall h, In h rendered -> headerEquals columnName h = false) /\
       (forall e, o = Throw e ->
                  e = WebTablePage.columnNameNotFound columnName)) /\
  (outcomeOf (WebTablePage.getTableColumnIndexByName Sample.env
                (L := Sample.webTableLocators) "name"
                Sample.tablePage Sample.world)
   = Some (Throw (WebTablePage.columnNameNotFound "name")) /\
   outcomeOf (WebTableHelper.getColumnIndex Sample.env "name" None
                Sample.helper Sample.world)
   = Some (Return 0)) /\
  (outcomeOf (WebTablePage.getTableColumnIndexByName Sample.env
                (L := Sample.webTableLocators) "EMAIL"
                Sample.tablePage Sample.world)
   = Some (Return 3) /\
   outcomeOf (WebTableHelper.getColumnIndex Sample.env "EMAIL" None
                Sample.helper Sample.world)
   = Some (Return 2)).
Proof.
  split; [|split; split; vm_compute; reflexivity].
  intros E L columnName self w rendered.
  rewrite getTableColumnIndexByName_run.
  set (w0 := call E (Count (columnHeaders self)) w).
  assert (B0 : browser w0 = browser w) by now apply browser_call_read.
  destruct (scanHeaders_spec E columnName self
              (List.length (resolve (browser w) (columnHeaders self))) 0%nat w0)
    as [found [w' [R F]]]; [now rewrite B0|].
  rewrite R. rewrite B0 in F. destruct found as [k|].
  - destruct F as [j [x [-> [_ [Hx [Mx Hb]]]]]].
    assert (Fj : isFirst (headerEquals columnName) rendered j).
    { unfold rendered. apply isFirst_map. split; [now exists x|].
      intros j' y Hj Hy. apply (Hb j' y); [lia | exact Hy]. }
    eexists _, _. split; [reflexivity|]. split; [|split].
    + intros k. split.
      * intros H. injection H as <-. now exists j.
      * intros [i [-> Fi]]. f_equal. f_equal. f_equal.
        eapply isFirst_unique; eauto.
    + split; [intros [e He]; discriminate|].
      intros H. exfalso. specialize (H (el_innerText x)).
      rewrite Mx in H. discriminate H.
      apply in_map, (nth_error_In _ _ Hx).
    + discriminate.
  - eexists _, _. split; [reflexivity|]. split; [|split].
    + intros k. split; [discriminate|].
      intros [i [_ [[h [Hh Mh]] _]]]. exfalso. unfold rendered in Hh.
      rewrite nth_error_map in Hh.
      destruct (nth_error (resolve (browser w) (columnHeaders self)) i)
        as [x|] eqn:Hx; [|discriminate].
      injection Hh as <-. rewrite (F i x) in Mh; [discriminate | lia | exact Hx].
    + split; [|eauto]. intros _ h Hh. unfold rendered in Hh.
      apply in_map_iff in Hh as [x [<- Hx]].
      apply In_nth_error in Hx as [j Hj]. apply (F j x); [lia | exact Hj].
    + intros e H. now injection H as <-.
Qed.

(** ** The receiver is handed back unchanged *)

Create HintDb keeps.

Section Keeps.

Context (E : Env) {Self : Type}.

Lemma keeps_ret {A} (a : A) : keepsReceiver (ret (Self := Self) a).
Proof. intros s w o s' w' H. now injection H. Qed.

Lemma keeps_throw {A} e : keepsReceiver (throw (Self := Self) (A := A) e).
Proof. intros s w o s' w' H. now injection H. Qed.

Lemma keeps_this : keepsReceiver (this (Self := Self)).
Proof. intros s w o s' w' H. now injection H. Qed.

Lemma keeps_outOfBudget {A} : keepsReceiver (outOfBudget (Self := Self) (A := A)).
Proof. intros s w o s' w' H. discriminate. Qed.

Lemma keeps_bind {A B} (m : M Self A) (k : A -> M Self B) :
  keepsReceiver m -> (forall a, keepsReceiver (k a)) ->
  keepsReceiver (bind m k).
Proof.
  intros Hm Hk s w o s' w' H. unfold bind in H.
  destruct (m s w) as [[[[a|e] s1] w1]|] eqn:R; try discriminate.
  - apply Hk in H. apply Hm in R. congruence.
  - injection H as <- <- <-. now apply Hm in R.
Qed.

Lemma keeps_tryCatch {A} (m : M Self A) (h : Exn -> M Self A) :
  keepsReceiver m -> (forall e, keepsReceiver (h e)) ->
  keepsReceiver (tryCatch m h).
Proof.
  intros Hm Hh s w o s' w' H. unfold tryCatch in H.
  destruct (m s w) as [[[[a|e] s1] w1]|] eqn:R; try discriminate.
  - injection H as <- <- <-. now apply Hm in R.
  - apply Hh in H. apply Hm in R. congruence.
Qed.

Lemma keeps_onElement {A} ev l (f : Node -> option A) :
  keepsReceiver (onElement (Self := Self) E ev l f).
Proof.
  intros s w o s' w' H.
  destruct (onElement_cases E ev l f s w) as [o' [R _]]. congruence.
Qed.

Lemma keeps_dateNow : keepsReceiver (dateNow (Self := Self)).
Proof. intros s w o s' w' H. now injection H. Qed.

Lemma keeps_count l : keepsReceiver (count (Self := Self) E l).
Proof.
  intros s w o s' w' H. unfold count in H.
  destruct (listed _ l); now injection H.
Qed.

Lemma keeps_allInnerTexts l : keepsReceiver (allInnerTexts (Self := Self) E l).
Proof.
  intros s w o s' w' H. unfold allInnerTexts in H.
  destruct (listed _ l); now injection H.
Qed.

Lemma keeps_waitForTimeout pg ms :
  keepsReceiver (waitForTimeout (Self := Self) E pg ms).
Proof. intros s w o s' w' H. now injection H. Qed.

Lemma keeps_keyboardPress pg key :
  keepsReceiver (keyboardPress (Self := Self) E pg key).
Proof. intros s w o s' w' H. now injection H. Qed.

Lemma keeps_floating {A} l (m : M Self A) :
  keepsReceiver m -> keepsReceiver (expectToBeVisible_floating E l m).
Proof.
  intros Hm s w o s' w' H. unfold expectToBeVisible_floating in H.
  match type of H with context [m s ?w0] =>
    destruct (m s w0) as [[[o1 s1] w1]|] eqn:R; [|discriminate]
  end.
  apply Hm in R as ->.
  destruct (single (browser w1) l) as [n|]; [destruct (el_visible n)|];
    now injection H.
Qed.

End Keeps.

#[local] Hint Resolve keeps_ret keeps_throw keeps_this keeps_outOfBudget
  keeps_onElement keeps_dateNow keeps_count keeps_allInnerTexts
  keeps_waitForTimeout keeps_keyboardPress keeps_floating : keeps.

(** Breaks a method into its calls and closes each with the lemmas above. *)
Ltac keeps :=
  repeat match goal with
         | |- keepsReceiver (bind _ _) => apply keeps_bind; [|intro]
         | |- keepsReceiver (tryCatch _ _) => apply keeps_tryCatch; [|intro]
         | |- keepsReceiver (expectToBeVisible_floating _ _ _) =>
             apply keeps_floating
         | |- keepsReceiver (if ?c then _ else _) => destruct c
         | |- keepsReceiver (match ?x with Some _ => _ | None => _ end) =>
             destruct x
         | |- keepsReceiver _ =>
             solve [auto with keeps
                   | unfold innerText, textContent, expectToBeVisible, waitFor,
                       fill, click, type_, press; auto with keeps]
         end.

Section HelperKeeps.

Import WebTableHelper.
Context (E : Env).

Lemma keeps_getHeaders : keepsReceiver (getHeaders E).
Proof. unfold getHeaders. keeps. Qed.

Lemma keeps_getColumnIndex c m : keepsReceiver (getColumnIndex E c m).
Proof.
  unfold getColumnIndex. cbv zeta. apply keeps_bind; [apply keeps_getHeaders|].
  intros headers. keeps.
Qed.

Lemma keeps_scanRows rows rowText mode (n : nat) :
  forall i, keepsReceiver (scanRows E rows rowText mode i n).
Proof.
  induction n as [|n IH]; intros i; cbn [scanRows]; cbv zeta; keeps.
Qed.

Lemma keeps_pollRows start timeout rowText mode (b : nat) :
  keepsReceiver (pollRows E b start timeout rowText mode).
Proof.
  induction b as [|b IH]; cbn [pollRows]; cbv zeta; keeps.
  apply keeps_scanRows.
Qed.

Lemma keeps_getRow n rowText options : keepsReceiver (getRow E n rowText options).
Proof.
  unfold getRow. cbv zeta. keeps. apply keeps_pollRows.
Qed.

Lemma keeps_getCellValue n rowText columnName options :
  keepsReceiver (getCellValue E n rowText columnName options).
Proof.
  unfold getCellValue. cbv zeta.
  apply keeps_bind; [apply keeps_getRow | intros row].
  apply keeps_bind; [apply keeps_getColumnIndex | intros colIndex].
  keeps.
Qed.

Lemma keeps_clickCellAction n rowText columnName buttonName :
  keepsReceiver (clickCellAction E n rowText columnName buttonName).
Proof.
  unfold clickCellAction. cbv zeta.
  apply keeps_bind; [apply keeps_getRow | intros row].
  apply keeps_bind; [apply keeps_getColumnIndex | intros colIndex].
  keeps.
Qed.

Lemma keeps_collectColumn rows colIndex (n : nat) :
  forall i values, keepsReceiver (collectColumn E rows colIndex i n values).
Proof.
  induction n as [|n IH]; intros i values; cbn [collectColumn]; cbv zeta; keeps.
Qed.

Lemma keeps_getColumnValues columnName :
  keepsReceiver (getColumnValues E columnName).
Proof.
  unfold getColumnValues. cbv zeta.
  apply keeps_bind; [apply keeps_getColumnIndex | intros colIndex].
  keeps. apply keeps_collectColumn.
Qed.

End HelperKeeps.

(** C7. [WebTableHelper] holds the page handle and nothing else; none of its
    operations hands the object back changed; every [getColumnIndex] reads
    the header texts anew, its outcome being decided by the headers the page
    shows at that moment alone, and every [getCellValue] that returns has
    made that read after it found the row. On the sample page that
    re-renders during a sleep, the same look-up answers 2 before and 0
    after. *)
Theorem helper_keeps_no_state :
  (forall h : WebTableHelper.t,
      h = {| WebTableHelper.page := WebTableHelper.page h |}) /\
  (forall E : Env,
      keepsReceiver (WebTableHelper.getHeaders E) /\
      (forall c m, keepsReceiver (WebTableHelper.getColumnIndex E c m)) /\
      (forall n r o, keepsReceiver (WebTableHelper.getRow E n r o)) /\
      (forall n r c o, keepsReceiver (WebTableHelper.getCellValue E n r c o)) /\
      (forall n r c b, keepsReceiver (WebTableHelper.clickCellAction E n r c b)) /\
      (forall c, keepsReceiver (WebTableHelper.getColumnValues E c))) /\
  (forall E columnName mode self w,
      exists o w',
        WebTableHelper.getColumnIndex E columnName mode self w
        = Some (o, self, w') /\
        log w' = (log w ++ [AllInnerTexts (headersLocator self)])%list /\
        forall E2 w2,
          renderedHeaders (browser w2) (WebTableHelper.page self)
          = renderedHeaders (browser w) (WebTableHelper.page self) ->
          outcomeOf (WebTableHelper.getColumnIndex E2 columnName mode self w2)
          = Some o) /\
  (forall E n rowText columnName options self w v s' w',
      WebTableHelper.getCellValue E n rowText columnName options self w
      = Some (Return v, s', w') ->
      exists before after,
        log w' = (log w ++ before
                  ++ AllInnerTexts (headersLocator self) :: after)%list) /\
  outcomeOf (Sample.lookUpTwice "email" Sample.helper Sample.world)
  = Some (Return (2, 0)).
Proof.
  split; [|split; [|split; [|split]]].
  - intros [pg]. reflexivity.
  - intros E. repeat split; intros.
    + apply keeps_getHeaders.
    + apply keeps_getColumnIndex.
    + apply keeps_getRow.
    + apply keeps_getCellValue.
    + apply keeps_clickCellAction.
    + apply keeps_getColumnValues.
  - intros E columnName mode self w. rewrite getColumnIndex_run.
    eexists _, _. split; [reflexivity|]. split; [reflexivity|].
    intros E2 w2 H. rewrite getColumnIndex_run, H. reflexivity.
  - intros E n rowText columnName options self w v s' w' H.
    apply getCellValue_return in H as [i [j [node [_ [_ [_ [before Lg]]]]]]].
    exists before. eexists. exact Lg.
  - vm_compute. reflexivity.
Qed.

(** C7 on the sample page: the call that returns the e-mail of Cierra leaves
    the helper as it was and has read the headers on the way. *)
Lemma helper_keeps_no_state_witness :
  let r := WebTableHelper.getCellValue Sample.env 18 "cierra" "email" None
             Sample.helper Sample.world in
  outcomeOf r = Some (Return (Some "cierra@example.com")) /\
  exists before after,
    log (worldOf r Sample.world)
    = (log Sample.world ++ before
       ++ AllInnerTexts (headersLocator Sample.helper) :: after)%list.
Proof.
  intros r.
  assert (O : outcomeOf r = Some (Return (Some "cierra@example.com")))
    by (vm_compute; reflexivity).
  split; [exact O|].
  destruct r as [[[o s'] w']|] eqn:R; [|discriminate].
  cbn [outcomeOf] in O. injection O as ->. cbn [worldOf].
  exact (proj1 (proj2 (proj2 (proj2 helper_keeps_no_state))) Sample.env 18%nat
           "cierra" "email" None Sample.helper Sample.world _ s' w' R).
Defined.

(** ** Failures to find the target *)

(** Finds a text inside a message built by concatenation. *)
Ltac includes_search :=
  first [ apply includes_refl
        | reflexivity
        | apply includes_append_r; includes_search
        | apply includes_append_l; includes_search ].

Ltac names :=
  eexists; split; [reflexivity|];
  let t := fresh "t" in
  intros t;
  repeat (let H := fresh "H" in intros [<- | H]; [includes_search | revert H]);
  intros [].

Section NotFound.

Context (E : Env).





End NotFound.

(** * Further properties *)

(** ** What a method logs *)

Section Issues.

Context (E : Env) {Self : Type} (p : Event -> bool).

Lemma issues_nothing {A} (m : M Self A) :
  (forall s w o s' w', m s w = Some (o, s', w') -> w' = w) ->
  issuesOnly p m.
Proof.
  intros H s w o s' w' R. apply H in R as ->.
  exists []. split; [now rewrite app_nil_r | constructor].
Qed.

Lemma issues_ret {A} (a : A) : issuesOnly p (ret (Self := Self) a).
Proof. apply issues_nothing. intros s w o s' w' H. now injection H. Qed.

Lemma issues_throw {A} e : issuesOnly p (throw (Self := Self) (A := A) e).
Proof. apply issues_nothing. intros s w o s' w' H. now injection H. Qed.

Lemma issues_this : issuesOnly p (this (Self := Self)).
Proof. apply issues_nothing. intros s w o s' w' H. now injection H. Qed.

Lemma issues_dateNow : issuesOnly p (dateNow (Self := Self)).
Proof. apply issues_nothing. intros s w o s' w' H. now injection H. Qed.

Lemma issues_outOfBudget {A} : issuesOnly p (outOfBudget (Self := Self) (A := A)).
Proof. intros s w o s' w' H. discriminate. Qed.

Lemma issues_bind {A B} (m : M Self A) (k : A -> M Self B) :
  issuesOnly p m -> (forall a, issuesOnly p (k a)) -> issuesOnly p (bind m k).
Proof.
  intros Hm Hk s w o s' w' H. unfold bind in H.
  destruct (m s w) as [[[[a|e] s1] w1]|] eqn:R; try discriminate.
  - apply Hm in R as [e1 [L1 F1]]. apply Hk in H as [e2 [L2 F2]].
    exists (e1 ++ e2)%list. split; [now rewrite L2, L1, app_assoc|].
    now apply Forall_app.
  - injection H as <- <- <-. now apply Hm in R.
Qed.

Lemma issues_tryCatch {A} (m : M Self A) (h : Exn -> M Self A) :
  issuesOnly p m -> (forall e, issuesOnly p (h e)) ->
  issuesOnly p (tryCatch m h).
Proof.
  intros Hm Hh s w o s' w' H. unfold tryCatch in H.
  destruct (m s w) as [[[[a|e] s1] w1]|] eqn:R; try discriminate.
  - injection H as <- <- <-. now apply Hm in R.
  - apply Hm in R as [e1 [L1 F1]]. apply Hh in H as [e2 [L2 F2]].
    exists (e1 ++ e2)%list. split; [now rewrite L2, L1, app_assoc|].
    now apply Forall_app.
Qed.

Lemma issues_one {A} (m : M Self A) ev :
  p ev = true ->
  (forall s w o s' w', m s w = Some (o, s', w') -> w' = call E ev w) ->
  issuesOnly p m.
Proof.
  intros P H s w o s' w' R. apply H in R as ->.
  exists [ev]. split; [reflexivity | now constructor].
Qed.

Lemma issues_onElement {A} ev l (f : Node -> option A) :
  p ev = true -> issuesOnly p (onElement (Self := Self) E ev l f).
Proof.
  intros P. apply (issues_one _ ev P). intros s w o s' w' H.
  destruct (onElement_cases E ev l f s w) as [o' [R _]]. congruence.
Qed.

Lemma issues_count l :
  p (Count l) = true -> issuesOnly p (count (Self := Self) E l).
Proof.
  intros P. apply (issues_one _ _ P). intros s w o s' w' H.
  unfold count in H. destruct (listed _ l); now injection H.
Qed.

Lemma issues_allInnerTexts l :
  p (AllInnerTexts l) = true -> issuesOnly p (allInnerTexts (Self := Self) E l).
Proof.
  intros P. apply (issues_one _ _ P). intros s w o s' w' H.
  unfold allInnerTexts in H. destruct (listed _ l); now injection H.
Qed.

Lemma issues_waitForTimeout pg ms :
  p (WaitForTimeout pg ms) = true ->
  issuesOnly p (waitForTimeout (Self := Self) E pg ms).
Proof.
  intros P. apply (issues_one _ _ P). intros s w o s' w' H. now injection H.
Qed.

Lemma issues_expectToBe actual expected :
  issuesOnly p (expectToBe (Self := Self) E actual expected).
Proof.
  unfold expectToBe. destruct actual as [a|]; [destruct (String.eqb a expected)|];
    auto using issues_ret, issues_throw.
Qed.

End Issues.

Lemma issues_onField {Self F A} (p : Event -> bool) (get : Self -> F)
    (set : F -> Self -> Self) (m : M F A) :
  issuesOnly p m -> issuesOnly p (onField get set m).
Proof.
  intros Hm s w o s' w' H. unfold onField in H.
  destruct (m (get s) w) as [[[o1 f1] w1]|] eqn:R; [|discriminate].
  injection H as <- <- <-. now apply Hm in R.
Qed.

(** Breaks a method into its calls; what is left is that each call
    satisfies the predicate, which computation settles. *)
Ltac issues :=
  repeat match goal with
         | |- issuesOnly _ (bind _ _) => apply issues_bind; [|intro]
         | |- issuesOnly _ (tryCatch _ _) => apply issues_tryCatch; [|intro]
         | |- issuesOnly _ (if ?c then _ else _) => destruct c
         | |- issuesOnly _ (match ?x with Some _ => _ | None => _ end) =>
             destruct x
         | |- issuesOnly _ (ret _) => apply issues_ret
         | |- issuesOnly _ (throw _) => apply issues_throw
         | |- issuesOnly _ this => apply issues_this
         | |- issuesOnly _ dateNow => apply issues_dateNow
         | |- issuesOnly _ outOfBudget => apply issues_outOfBudget
         | |- issuesOnly _ (count _ _) => apply issues_count; reflexivity
         | |- issuesOnly _ (allInnerTexts _ _) =>
             apply issues_allInnerTexts; reflexivity
         | |- issuesOnly _ (waitForTimeout _ _ _) =>
             apply issues_waitForTimeout; reflexivity
         | |- issuesOnly _ (expectToBe _ _ _) => apply issues_expectToBe
         | |- issuesOnly _ (onElement _ _ _ _) =>
             apply issues_onElement; reflexivity
         | |- issuesOnly _ (innerText _ _) => unfold innerText
         | |- issuesOnly _ (textContent _ _) => unfold textContent
         | |- issuesOnly _ (expectToBeVisible _ _) => unfold expectToBeVisible
         | |- issuesOnly _ (waitFor _ _ _) => unfold waitFor
         | |- issuesOnly _ _ => assumption
         end.

Section Lookups.

Context (E : Env) (p : Event -> bool).

(** The calls the look-ups make: counts, reads of text, waits for
    visibility and the sleeps of 300 ms. *)
Hypothesis p_count : forall l, p (Count l) = true.
Hypothesis p_texts : forall l, p (AllInnerTexts l) = true.
Hypothesis p_inner : forall l, p (InnerText l) = true.
Hypothesis p_content : forall l, p (TextContent l) = true.
Hypothesis p_sleep : forall pg, p (WaitForTimeout pg 300) = true.
Hypothesis p_expect : forall l, p (ExpectToBeVisible l true) = true.
Hypothesis p_wait : forall l t, p (WaitForVisible l t) = true.

Ltac lookups :=
  repeat match goal with
         | |- issuesOnly _ (bind _ _) => apply issues_bind; [|intro]
         | |- issuesOnly _ (tryCatch _ _) => apply issues_tryCatch; [|intro]
         | |- issuesOnly _ (if ?c then _ else _) => destruct c
         | |- issuesOnly _ (match ?x with Some _ => _ | None => _ end) =>
             destruct x
         | |- issuesOnly _ (ret _) => apply issues_ret
         | |- issuesOnly _ (throw _) => apply issues_throw
         | |- issuesOnly _ this => apply issues_this
         | |- issuesOnly _ dateNow => apply issues_dateNow
         | |- issuesOnly _ outOfBudget => apply issues_outOfBudget
         | |- issuesOnly _ (count _ _) => apply issues_count, p_count
         | |- issuesOnly _ (allInnerTexts _ _) =>
             apply issues_allInnerTexts, p_texts
         | |- issuesOnly _ (waitForTimeout _ _ 300) =>
             apply issues_waitForTimeout, p_sleep
         | |- issuesOnly _ (expectToBe _ _ _) => apply issues_expectToBe
         | |- issuesOnly _ (innerText _ _) => apply issues_onElement, p_inner
         | |- issuesOnly _ (textContent _ _) =>
             apply issues_onElement, p_content
         | |- issuesOnly _ (expectToBeVisible _ _) =>
             apply issues_onElement, p_expect
         | |- issuesOnly _ (waitFor _ _ _) => apply issues_onElement, p_wait
         | |- issuesOnly _ _ => assumption
         end.

Lemma lookup_getColumnIndex c m :
  issuesOnly p (WebTableHelper.getColumnIndex E c m).
Proof. unfold WebTableHelper.getColumnIndex, WebTableHelper.getHeaders. cbv zeta. lookups. Qed.

Lemma lookup_scanRows rows rowText mode (n : nat) :
  forall i, issuesOnly p (WebTableHelper.scanRows E rows rowText mode i n).
Proof.
  induction n as [|n IH]; intros i; cbn [WebTableHelper.scanRows]; cbv zeta;
    lookups. apply IH.
Qed.

Lemma lookup_pollRows start timeout rowText mode (b : nat) :
  issuesOnly p (WebTableHelper.pollRows E b start timeout rowText mode).
Proof.
  induction b as [|b IH]; cbn [WebTableHelper.pollRows]; cbv zeta; lookups.
  apply lookup_scanRows.
Qed.

Lemma lookup_getRow n rowText options :
  issuesOnly p (WebTableHelper.getRow E n rowText options).
Proof.
  unfold WebTableHelper.getRow. cbv zeta. lookups. apply lookup_pollRows.
Qed.

Lemma lookup_getCellValue n rowText columnName options :
  issuesOnly p (WebTableHelper.getCellValue E n rowText columnName options).
Proof.
  unfold WebTableHelper.getCellValue. cbv zeta.
  apply issues_bind; [apply lookup_getRow | intros row].
  apply issues_bind; [apply lookup_getColumnIndex | intros colIndex].
  lookups.
Qed.

Lemma lookup_collectColumn rows colIndex (n : nat) :
  forall i values,
    issuesOnly p (WebTableHelper.collectColumn E rows colIndex i n values).
Proof.
  induction n as [|n IH]; intros i values;
    cbn [WebTableHelper.collectColumn]; cbv zeta; lookups; apply IH.
Qed.

Lemma lookup_getColumnValues columnName :
  issuesOnly p (WebTableHelper.getColumnValues E columnName).
Proof.
  unfold WebTableHelper.getColumnValues. cbv zeta.
  apply issues_bind; [apply lookup_getColumnIndex | intros colIndex].
  lookups. apply lookup_collectColumn.
Qed.

Lemma lookup_scanHeaders {L : WebTablePageLocators} headers columnName (n : nat) :
  forall i, issuesOnly p (WebTablePage.scanHeaders E headers columnName i n).
Proof.
  induction n as [|n IH]; intros i; cbn [WebTablePage.scanHeaders]; cbv zeta;
    lookups. apply IH.
Qed.

Lemma lookup_getTableColumnIndexByName {L : WebTablePageLocators} columnName :
  issuesOnly p (WebTablePage.getTableColumnIndexByName E columnName).
Proof.
  unfold WebTablePage.getTableColumnIndexByName. cbv zeta. lookups.
  apply lookup_scanHeaders.
Qed.

Lemma lookup_getTableCellValue {L : WebTablePageLocators} rowName columnName :
  issuesOnly p (WebTablePage.getTableCellValue E rowName columnName).
Proof.
  unfold WebTablePage.getTableCellValue. cbv zeta.
  apply issues_bind; [apply lookup_getTableColumnIndexByName | intros k].
  lookups.
Qed.

Lemma lookup_verifyTableCellValue n rowName columnName expectedValue :
  issuesOnly p (WebTablePage.verifyTableCellValue E n rowName columnName
                                                  expectedValue).
Proof.
  unfold WebTablePage.verifyTableCellValue.
  apply issues_bind; [apply issues_onField, lookup_getCellValue | intros v].
  lookups.
Qed.

End Lookups.

(** X1. The operations that look something up in the table never act on the
    page: whatever they return or throw, the calls they have made are
    counts, reads of text, awaited checks and waits for visibility and
    sleeps of 300 ms; none fills, clicks, types or presses. *)
Theorem lookups_never_act :
  forall E : Env,
    (forall ev, isLookup ev = true -> acts ev = false) /\
    issuesOnly isLookup (WebTableHelper.getHeaders E) /\
    (forall c m, issuesOnly isLookup (WebTableHelper.getColumnIndex E c m)) /\
    (forall n r o, issuesOnly isLookup (WebTableHelper.getRow E n r o)) /\
    (forall n r c o, issuesOnly isLookup (WebTableHelper.getCellValue E n r c o)) /\
    (forall c, issuesOnly isLookup (WebTableHelper.getColumnValues E c)) /\
    (forall (L : WebTablePageLocators) c,
        issuesOnly isLookup (WebTablePage.getTableColumnIndexByName E c)) /\
    (forall (L : WebTablePageLocators) r c,
        issuesOnly isLookup (WebTablePage.getTableCellValue E r c)) /\
    (forall n r c x,
        issuesOnly isLookup (WebTablePage.verifyTableCellValue E n r c x)).
Proof.
  intros E.
  split; [intros []; simpl; try congruence; intros; reflexivity|].
  split.
  { unfold WebTableHelper.getHeaders. apply issues_bind; [apply issues_this|].
    intros self. apply issues_bind; [|intros; apply issues_ret].
    now apply issues_allInnerTexts. }
  repeat split; intros.
  - now apply lookup_getColumnIndex.
  - now apply lookup_getRow.
  - now apply lookup_getCellValue.
  - now apply lookup_getColumnValues.
  - now apply lookup_getTableColumnIndexByName.
  - now apply lookup_getTableCellValue.
  - now apply lookup_verifyTableCellValue.
Qed.

(** X1 on the sample page: the call that returns the e-mail of Cierra has
    logged look-ups only. *)
Lemma lookups_never_act_witness :
  let r := WebTableHelper.getCellValue Sample.env 18 "cierra" "email" None
             Sample.helper Sample.world in
  outcomeOf r = Some (Return (Some "cierra@example.com")) /\
  exists evs,
    log (worldOf r Sample.world) = (log Sample.world ++ evs)%list /\
    Forall (fun ev => isLookup ev = true) evs.
Proof.
  intros r.
  assert (O : outcomeOf r = Some (Return (Some "cierra@example.com")))
    by (vm_compute; reflexivity).
  split; [exact O|].
  destruct r as [[[o s'] w']|] eqn:R; [|discriminate]. cbn [worldOf].
  exact (proj1 (proj2 (proj2 (proj2 (proj2 (lookups_never_act Sample.env)))))
           18%nat "cierra" "email" None Sample.helper Sample.world o s' w' R).
Defined.

(** ** The page objects hand their receiver back *)

Lemma keeps_onField {Self F A} (get : Self -> F) (set : F -> Self -> Self)
    (m : M F A) :
  (forall s, set (get s) s = s) ->
  keepsReceiver m -> keepsReceiver (onField get set m).
Proof.
  intros Hset Hm s w o s' w' H. unfold onField in H.
  destruct (m (get s) w) as [[[o1 f1] w1]|] eqn:R; [|discriminate].
  injection H as <- <- <-. apply Hm in R as ->. apply Hset.
Qed.

Lemma keeps_expectToBe (E : Env) {Self} actual expected :
  keepsReceiver (expectToBe (Self := Self) E actual expected).
Proof.
  unfold expectToBe. destruct actual as [a|]; [destruct (String.eqb a expected)|];
    auto with keeps.
Qed.

Lemma keeps_typeValues (E : Env) pg l (values : list string) :
  keepsReceiver (CommonUserActionsPage.typeValues E pg l values).
Proof.
  induction values as [|v values IH]; cbn [CommonUserActionsPage.typeValues];
    keeps.
Qed.

Lemma keeps_scanHeaders (E : Env) headers columnName (n : nat) :
  forall i, keepsReceiver (WebTablePage.scanHeaders E headers columnName i n).
Proof.
  induction n as [|n IH]; intros i; cbn [WebTablePage.scanHeaders]; cbv zeta;
    keeps.
Qed.

Lemma keeps_getTableColumnIndexByName (E : Env) {L : WebTablePageLocators} c :
  keepsReceiver (WebTablePage.getTableColumnIndexByName E c).
Proof.
  unfold WebTablePage.getTableColumnIndexByName. cbv zeta. keeps.
  apply keeps_scanHeaders.
Qed.

Lemma set_webTableHelper_same (s : WebTablePage.t) :
  WebTablePage.set_webTableHelper (WebTablePage.webTableHelper s) s = s.
Proof. now destruct s. Qed.

Lemma keeps_collectRowNames (E : Env) pg (n : nat) :
  forall i rowNames,
    keepsReceiver (WebTablePageRows.collectRowNames E pg i n rowNames).
Proof.
  induction n as [|n IH]; intros i rowNames;
    cbn [WebTablePageRows.collectRowNames]; cbv zeta; keeps; apply IH.
Qed.

(** X2. The seven methods of [CommonUserActionsPage] and the six methods of
    [WebTablePage] that are embedded here (all but [getCellByRowAndColumn])
    leave their object unchanged: the page handle, and for [WebTablePage]
    the helper it holds, are after every call, successful or not, what they
    were. *)
Theorem page_objects_keep_their_state :
  forall E : Env,
    (forall (L : CommonLocators),
        (forall f t, keepsReceiver (CommonUserActionsPage.inputOnField E f t)) /\
        (forall b, keepsReceiver (CommonUserActionsPage.clickOnButton E b)) /\
        (forall f t, keepsReceiver (CommonUserActionsPage.inputOnTextField E f t)) /\
        (forall f vs, keepsReceiver (CommonUserActionsPage.inputMultiValues E f vs)) /\
        (forall l, keepsReceiver (CommonUserActionsPage.selectCheckbox E l)) /\
        (forall l, keepsReceiver (CommonUserActionsPage.selectRadioButton E l)) /\
        (forall f d, keepsReceiver (CommonUserActionsPage.selectDate E f d))) /\
    (forall (L : WebTablePageLocators),
        (forall n r c i,
            keepsReceiver (WebTablePage.clickOnTableRowActionIcon E n r c i)) /\
        (forall r, keepsReceiver (WebTablePage.clickOnTableRowEditIcon E r)) /\
        (forall n r c x,
            keepsReceiver (WebTablePage.verifyTableCellValue E n r c x)) /\
        (forall c, keepsReceiver (WebTablePage.getTableColumnIndexByName E c)) /\
        (forall r c, keepsReceiver (WebTablePage.getTableCellValue E r c)) /\
        (forall (R : WebTableRowLocators) (randomFloor : nat -> nat),
            keepsReceiver (WebTablePageRows.getRandomRowName E randomFloor))).
Proof.
  intros E. split; intros L; repeat split; intros.
  - unfold CommonUserActionsPage.inputOnField. cbv zeta. keeps.
  - unfold CommonUserActionsPage.clickOnButton. cbv zeta. keeps.
  - unfold CommonUserActionsPage.inputOnTextField. cbv zeta. keeps.
  - unfold CommonUserActionsPage.inputMultiValues. cbv zeta. keeps.
    apply keeps_typeValues.
  - unfold CommonUserActionsPage.selectCheckbox. cbv zeta. keeps.
  - unfold CommonUserActionsPage.selectRadioButton. cbv zeta. keeps.
  - unfold CommonUserActionsPage.selectDate. cbv zeta. keeps.
  - unfold WebTablePage.clickOnTableRowActionIcon.
    apply keeps_onField; [apply set_webTableHelper_same|].
    apply keeps_clickCellAction.
  - unfold WebTablePage.clickOnTableRowEditIcon. cbv zeta. keeps.
  - unfold WebTablePage.verifyTableCellValue.
    apply keeps_bind; [|intros; apply keeps_expectToBe].
    apply keeps_onField; [apply set_webTableHelper_same|].
    apply keeps_getCellValue.
  - apply keeps_getTableColumnIndexByName.
  - unfold WebTablePage.getTableCellValue. cbv zeta.
    apply keeps_bind; [apply keeps_getTableColumnIndexByName | intros k].
    keeps.
  - unfold WebTablePageRows.getRandomRowName. cbv zeta. keeps.
    apply keeps_collectRowNames.
Qed.

(** X2 on the sample page: a click on a button that is not there throws and
    leaves the page object as it was. *)
Lemma page_objects_keep_their_state_witness :
  let r := CommonUserActionsPage.clickOnButton Sample.env
             (L := Sample.commonLocators) "Submit" Sample.actions Sample.world in
  exists o w', r = Some (o, Sample.actions, w').
Proof.
  intros r. destruct r as [[[o s'] w']|] eqn:R; [|discriminate].
  exists o, w'.
  now rewrite (proj1 (proj2 (proj1 (page_objects_keep_their_state Sample.env)
                               Sample.commonLocators))
                 "Submit" Sample.actions Sample.world o s' w' R).
Defined.

(** ** Matching, further *)

Section MatchFacts.

Lemma lowerChar_idempotent (c : ascii) : lowerChar (lowerChar c) = lowerChar c.
Proof. destruct c as [[] [] [] [] [] [] [] []]; reflexivity. Qed.

Lemma toLowerCase_idempotent (s : string) :
  toLowerCase (toLowerCase s) = toLowerCase s.
Proof.
  induction s as [|c r IH]; simpl; [reflexivity|].
  now rewrite lowerChar_idempotent, IH.
Qed.

Lemma normalize_toLowerCase (s : string) : normalize (toLowerCase s) = normalize s.
Proof. unfold normalize. now rewrite toLowerCase_idempotent. Qed.

Lemma normalize_idempotent (s : string) : normalize (normalize s) = normalize s.
Proof.
  rewrite (normalize_trim_first s), normalize_toLowerCase, normalize_trim.
  apply normalize_trim_first.
Qed.

Lemma includes_empty (s : string) : includes s "" = true.
Proof. destruct s; reflexivity. Qed.

Lemma includes_trans (a b c : string) :
  includes a b = true -> includes b c = true -> includes a c = true.
Proof.
  rewrite !includes_spec. intros [p1 [q1 ->]] [p2 [q2 ->]].
  exists (p1 ++ p2), (q2 ++ q1). now rewrite !append_assoc.
Qed.

Lemma match_blank (a b : string) : trim b = "" -> match_ a b partial = true.
Proof.
  intros H. unfold match_. rewrite (normalize_trim_first b), H.
  apply includes_empty.
Qed.

End MatchFacts.

(** X3. [match] sees its two texts only through their trimmed, lower-cased
    form: texts that differ in case or in the white space around them only
    are matched alike, as candidate and as query, in either mode. *)
Theorem match_ignores_case_and_margin :
  forall (a a' b b' : string) (mode : MatchMode),
    toLowerCase (trim a) = toLowerCase (trim a') ->
    toLowerCase (trim b) = toLowerCase (trim b') ->
    match_ a b mode = match_ a' b' mode.
Proof.
  intros a a' b b' mode Ha Hb. unfold match_.
  now rewrite !normalize_trim_first, Ha, Hb.
Qed.

(** X3 for "  Email" and "EMAIL ", looked for as "e-mail" or not at all. *)
Lemma match_ignores_case_and_margin_witness :
  toLowerCase (trim "  Email") = toLowerCase (trim "EMAIL ") /\
  toLowerCase (trim "MAIL") = toLowerCase (trim " mail") /\
  match_ "  Email" "MAIL" partial = match_ "EMAIL " " mail" partial.
Proof.
  assert (H1 : toLowerCase (trim "  Email") = toLowerCase (trim "EMAIL "))
    by reflexivity.
  assert (H2 : toLowerCase (trim "MAIL") = toLowerCase (trim " mail"))
    by reflexivity.
  split; [exact H1|]. split; [exact H2|].
  exact (match_ignores_case_and_margin _ _ _ _ partial H1 H2).
Defined.

(** X4. In mode [exact] matching is an equivalence of texts; in mode
    [partial] it is reflexive and transitive; what matches exactly matches
    partially; and a query that is blank matches every text partially. *)
Theorem match_is_an_order :
  (forall a mode, match_ a a mode = true) /\
  (forall a b, match_ a b exact = match_ b a exact) /\
  (forall a b c mode,
      match_ a b mode = true -> match_ b c mode = true ->
      match_ a c mode = true) /\
  (forall a b, match_ a b exact = true -> match_ a b partial = true) /\
  (forall a b, trim b = "" -> match_ a b partial = true).
Proof.
  split; [|split; [|split; [|split]]].
  - intros a [|]; unfold match_; [apply String.eqb_refl | apply includes_refl].
  - intros a b. unfold match_. apply String.eqb_sym.
  - intros a b c [|]; unfold match_.
    + rewrite !String.eqb_eq. congruence.
    + apply includes_trans.
  - intros a b. unfold match_. rewrite String.eqb_eq. intros ->.
    apply includes_refl.
  - apply match_blank.
Qed.

(** X4 for three texts that contain one another. *)
Lemma match_is_an_order_witness :
  match_ "Cierra Vega" "vega" partial = true /\
  match_ "vega" " EG" partial = true /\
  match_ "Cierra Vega" " EG" partial = true.
Proof.
  assert (H1 : match_ "Cierra Vega" "vega" partial = true) by reflexivity.
  assert (H2 : match_ "vega" " EG" partial = true) by reflexivity.
  split; [exact H1|]. split; [exact H2|].
  exact (proj1 (proj2 (proj2 match_is_an_order)) _ _ _ partial H1 H2).
Defined.

(** ** WebTableHelper.getRow, further *)

Section GetRowFurther.

Import WebTableHelper.
Context (E : Env).

Lemma readRows_browser rows (n : nat) :
  forall i w, browser (readRows E rows i n w) = browser w.
Proof.
  induction n as [|n IH]; intros i w; cbn [readRows]; [reflexivity|].
  rewrite IH. now apply browser_call_read.
Qed.

Lemma readRows_log rows (n : nat) :
  forall i w,
    log (readRows E rows i n w)
    = (log w ++ map (fun j => InnerText (Nth rows j)) (seq i n))%list.
Proof.
  induction n as [|n IH]; intros i w; cbn [readRows seq map].
  - now rewrite app_nil_r.
  - rewrite IH. cbn [call log]. now rewrite <- app_assoc.
Qed.

Lemma readRows_now rows (n : nat) :
  forall i w, now w <= now (readRows E rows i n w).
Proof.
  induction n as [|n IH]; intros i w; cbn [readRows]; [lia|].
  specialize (IH (S i) (call E (InnerText (Nth rows i)) w)).
  pose proof (now_call E (InnerText (Nth rows i)) w) as C.
  cbn [sleeps] in C. lia.
Qed.

(** A scan that finds no row has read them all. *)
Lemma scanRows_none_exact rowText mode self (n : nat) :
  forall (i : nat) (w : World),
    (i + n = List.length (renderedRows (browser w) (page self)))%nat ->
    (forall j x, (i <= j)%nat ->
       nth_error (renderedRows (browser w) (page self)) j = Some x ->
       rowMatches rowText mode x = false) ->
    scanRows E (rowsLocator self) rowText mode i n self w
    = Some (Return None, self, readRows E (rowsLocator self) i n w).
Proof.
  induction n as [|n IH]; intros i w Hlen No; [reflexivity|].
  destruct (nth_error (renderedRows (browser w) (page self)) i) as [x|] eqn:Hx.
  2:{ apply nth_error_None in Hx. lia. }
  cbn [scanRows readRows]. unfold bind at 1.
  rewrite (innerText_nth E (rowsLocator self) i x) by exact Hx.
  rewrite match_trim_l.
  fold (rowMatches rowText mode x). rewrite (No i x) by (auto; lia).
  set (w1 := call E (InnerText (Nth (rowsLocator self) i)) w).
  assert (B1 : browser w1 = browser w) by now apply browser_call_read.
  apply IH.
  - rewrite B1. lia.
  - rewrite B1. intros j y Hj Hy. apply (No j y); [lia | exact Hy].
Qed.

(** A scan that finds a row has read the rows up to it and no other. *)
Lemma scanRows_found_exact rowText mode self (n : nat) :
  forall (i : nat) (w : World) (k : nat) x,
    (i + n = List.length (renderedRows (browser w) (page self)))%nat ->
    (i <= k)%nat ->
    nth_error (renderedRows (browser w) (page self)) k = Some x ->
    rowMatches rowText mode x = true ->
    (forall j y, (i <= j < k)%nat ->
       nth_error (renderedRows (browser w) (page self)) j = Some y ->
       rowMatches rowText mode y = false) ->
    scanRows E (rowsLocator self) rowText mode i n self w
    = Some (Return (Some (Nth (rowsLocator self) k)), self,
            readRows E (rowsLocator self) i (S k - i) w).
Proof.
  induction n as [|n IH]; intros i w k x Hlen Hik Hk Mk No.
  - assert (Hs : nth_error (renderedRows (browser w) (page self)) k <> None)
      by congruence.
    apply nth_error_Some in Hs. lia.
  - destruct (nth_error (renderedRows (browser w) (page self)) i) as [y|] eqn:Hy.
    2:{ apply nth_error_None in Hy. lia. }
    cbn [scanRows]. unfold bind at 1.
    rewrite (innerText_nth E (rowsLocator self) i y) by exact Hy.
    rewrite match_trim_l. fold (rowMatches rowText mode y).
    set (w1 := call E (InnerText (Nth (rowsLocator self) i)) w).
    assert (B1 : browser w1 = browser w) by now apply browser_call_read.
    destruct (Nat.eq_dec i k) as [-> | Hne].
    + rewrite Hk in Hy. injection Hy as <-. rewrite Mk.
      replace (S k - k)%nat with 1%nat by lia. reflexivity.
    + rewrite (No i y) by (auto; lia).
      replace (S k - i)%nat with (S (S k - S i)) by lia. cbn [readRows].
      apply (IH (S i) w1 k x).
      * rewrite B1. lia.
      * lia.
      * now rewrite B1.
      * exact Mk.
      * rewrite B1. intros j z Hj Hz. apply (No j z); [lia | exact Hz].
Qed.

Lemma getRow_at_once n rowText options self w :
  lessThan 0 (rowTimeout options) = false ->
  getRow E (S n) rowText options self w
  = Some (Throw (rowNotFound rowText (rowTimeout options)
                   (map el_innerText (renderedRows (browser w) (page self)))),
          self, call E (AllInnerTexts (rowsLocator self)) w).
Proof.
  intros H. rewrite getRow_run, pollRows_step, Z.sub_diag, H. reflexivity.
Qed.

Lemma getRow_first_scan n rowText options self w k :
  lessThan 0 (rowTimeout options) = true ->
  isFirst (rowMatches rowText (rowMode options))
          (renderedRows (browser w) (page self)) k ->
  getRow E (S n) rowText options self w
  = Some (Return (Nth (rowsLocator self) k), self,
          readRows E (rowsLocator self) 0 (S k)
                   (call E (Count (rowsLocator self)) w)).
Proof.
  intros H [[x [Hx Mx]] No].
  rewrite getRow_run, pollRows_step, Z.sub_diag, H.
  set (w0 := call E (Count (rowsLocator self)) w).
  assert (B0 : browser w0 = browser w) by now apply browser_call_read.
  rewrite (scanRows_found_exact rowText (rowMode options) self _ 0%nat w0 k x).
  - now rewrite Nat.sub_0_r.
  - now rewrite B0.
  - lia.
  - now rewrite B0.
  - exact Mx.
  - rewrite B0. intros j y Hj Hy. apply (No j y); [lia | exact Hy].
Qed.

End GetRowFurther.

(** X5. With a timeout that is zero, negative or NaN, [getRow] does not look
    at the rows at all: it reads the row texts once, for the message, and
    throws "not found", also when a row that matches is on the page. *)
Theorem getRow_without_time_never_scans :
  forall (E : Env) (n : nat) (rowText : string)
         (options : option WebTableHelper.RowOptions)
         (self : WebTableHelper.t) (w : World),
    lessThan 0 (rowTimeout options) = false ->
    (1 <= n)%nat ->
    exists e w',
      WebTableHelper.getRow E n rowText options self w = Some (Throw e, self, w') /\
      e = WebTableHelper.rowNotFound rowText (rowTimeout options)
            (map el_innerText
                 (renderedRows (browser w) (WebTableHelper.page self))) /\
      log w' = (log w ++ [AllInnerTexts (rowsLocator self)])%list.
Proof.
  intros E n rowText options self w H Hn.
  destruct n as [|n]; [lia|].
  rewrite getRow_at_once by exact H.
  eexists _, _. split; [reflexivity|]. split; reflexivity.
Qed.

(** X5 on the sample page: with [timeout: 0] the row of Cierra, which is
    there, is reported as not found. *)
Lemma getRow_without_time_never_scans_witness :
  let options := Some {| WebTableHelper.timeout := Some (Finite 0);
                         WebTableHelper.mode := None |} in
  lessThan 0 (rowTimeout options) = false /\
  (exists x, In x (renderedRows (browser Sample.world) 0%nat) /\
             rowMatches "cierra" partial x = true) /\
  exists e w',
    WebTableHelper.getRow Sample.env 1 "cierra" options Sample.helper Sample.world
    = Some (Throw e, Sample.helper, w') /\
    errorNaming e ["cierra"; "not found after 0ms"].
Proof.
  intros options.
  assert (H : lessThan 0 (rowTimeout options) = false) by reflexivity.
  split; [exact H|]. split.
  { exists (nth 1 Sample.tableRows (Sample.leaf "" true)).
    split; [simpl; tauto | reflexivity]. }
  destruct (getRow_without_time_never_scans Sample.env 1 "cierra" options
              Sample.helper Sample.world H (le_n 1)) as [e [w' [R [-> _]]]].
  eexists _, w'. split; [exact R|].
  eexists. split; [reflexivity|].
  intros t [<- | [<- | []]]; vm_compute; reflexivity.
Defined.

(** X6. With time to look and a row that matches on the page, [getRow]
    returns at the first scan, whatever the budget: it has counted the rows
    and read the texts of the rows up to the first that matches, in order,
    and nothing else; it has not slept and not read a later row. *)
Theorem getRow_stops_at_first_match :
  forall (E : Env) (n : nat) (rowText : string)
         (options : option WebTableHelper.RowOptions)
         (self : WebTableHelper.t) (w : World) (k : nat),
    lessThan 0 (rowTimeout options) = true ->
    isFirst (rowMatches rowText (rowMode options))
            (renderedRows (browser w) (WebTableHelper.page self)) k ->
    (1 <= n)%nat ->
    exists w',
      WebTableHelper.getRow E n rowText options self w
      = Some (Return (Nth (rowsLocator self) k), self, w') /\
      browser w' = browser w /\
      log w' = (log w ++ Count (rowsLocator self)
                :: map (fun j => InnerText (Nth (rowsLocator self) j))
                       (seq 0 (S k)))%list.
Proof.
  intros E n rowText options self w k H F Hn.
  destruct n as [|n]; [lia|].
  rewrite (getRow_first_scan E n rowText options self w k H F).
  eexists. split; [reflexivity|]. split.
  - rewrite readRows_browser. now apply browser_call_read.
  - rewrite readRows_log. cbn [call log]. now rewrite <- app_assoc.
Qed.

(** X6 on the sample page: "alden" is in the third row; the rows 0, 1 and 2
    are read, the fourth is not. *)
Lemma getRow_stops_at_first_match_witness :
  lessThan 0 (rowTimeout None) = true /\
  isFirst (rowMatches "alden" (rowMode None))
          (renderedRows (browser Sample.world) 0%nat) 2 /\
  exists w',
    WebTableHelper.getRow Sample.env 1 "alden" None Sample.helper Sample.world
    = Some (Return (Nth (rowsLocator Sample.helper) 2), Sample.helper, w') /\
    log w' = [Count (rowsLocator Sample.helper);
              InnerText (Nth (rowsLocator Sample.helper) 0);
              InnerText (Nth (rowsLocator Sample.helper) 1);
              InnerText (Nth (rowsLocator Sample.helper) 2)].
Proof.
  assert (H : lessThan 0 (rowTimeout None) = true) by reflexivity.
  assert (F : isFirst (rowMatches "alden" (rowMode None))
                (renderedRows (browser Sample.world)
                   (WebTableHelper.page Sample.helper)) 2).
  { split; [eexists; split; reflexivity|].
    intros [|[|j]] y Hj Hy; try lia; injection Hy as <-; reflexivity. }
  split; [exact H|]. split; [exact F|].
  destruct (getRow_stops_at_first_match Sample.env 1 "alden" None Sample.helper
              Sample.world 2 H F (le_n 1)) as [w' [R [_ L]]].
  exists w'. split; [exact R | exact L].
Defined.

Section GetRowPolling.

Import WebTableHelper.
Context (E : Env).

Lemma lessThan_earlier (d d' : Z) (t : JsNumber) :
  d' <= d -> lessThan d t = true -> lessThan d' t = true.
Proof.
  destruct t as [z| | |]; cbn [lessThan]; auto.
  rewrite !Z.ltb_lt. lia.
Qed.

Lemma fruitlessTurn_now self w : now w + 300 <= now (fruitlessTurn E self w).
Proof.
  unfold fruitlessTurn.
  match goal with |- _ <= now (call E ?ev ?w1) =>
    pose proof (now_call E ev w1) as C1; cbn [sleeps] in C1
  end.
  change (Z.max 0 300) with 300 in C1.
  match type of C1 with context [readRows E ?r ?i ?n ?w0] =>
    pose proof (readRows_now E r n i w0) as C2
  end.
  pose proof (now_call E (Count (rowsLocator self)) w) as C3.
  cbn [sleeps] in C3. lia.
Qed.

(** The loop after a turn that found nothing goes on from [fruitlessTurn]. *)
Lemma pollRows_fruitless b start timeout rowText mode self w :
  lessThan (now w - start) timeout = true ->
  (forall x, In x (renderedRows (browser w) (page self)) ->
             rowMatches rowText mode x = false) ->
  pollRows E (S b) start timeout rowText mode self w
  = pollRows E b start timeout rowText mode self (fruitlessTurn E self w).
Proof.
  intros LT No. rewrite pollRows_step, LT.
  set (w0 := call E (Count (rowsLocator self)) w).
  assert (B0 : browser w0 = browser w) by now apply browser_call_read.
  rewrite (scanRows_none_exact E rowText mode self _ 0%nat w0).
  - reflexivity.
  - now rewrite B0.
  - rewrite B0. intros j x _ Hx. apply No. eapply nth_error_In; eauto.
Qed.

Lemma sleepCount_app (a b : list Event) :
  sleepCount (a ++ b) = (sleepCount a + sleepCount b)%nat.
Proof. unfold sleepCount. now rewrite filter_app, length_app. Qed.

Lemma sleepCount_reads (evs : list Event) :
  Forall (fun ev => isRead ev = true) evs -> sleepCount evs = 0%nat.
Proof.
  induction 1 as [|ev evs Hev _ IH]; [reflexivity|].
  change (ev :: evs) with ([ev] ++ evs)%list. rewrite sleepCount_app, IH.
  destruct ev; try discriminate; reflexivity.
Qed.

(** From a world [d] ms after the start, the loop sleeps at most as often as
    300 ms fit into what is left of the timeout, rounded up. *)
Lemma pollRows_sleeps start z rowText mode self (b : nat) :
  forall w o s' w',
    pollRows E b start (Finite z) rowText mode self w = Some (o, s', w') ->
    exists evs,
      log w' = (log w ++ evs)%list /\
      Z.of_nat (sleepCount evs) <= Z.max 0 ((z - (now w - start) + 299) / 300).
Proof.
  induction b as [|b IH]; intros w o s' w' H; [discriminate|].
  rewrite pollRows_step in H. cbn [lessThan] in H.
  destruct (now w - start <? z) eqn:LT.
  - apply Z.ltb_lt in LT.
    set (w0 := call E (Count (rowsLocator self)) w) in *.
    assert (B0 : browser w0 = browser w) by now apply browser_call_read.
    rewrite <- B0 in H.
    destruct (scanRows_from_start E rowText mode self w0)
      as [found [w1 [R [B1 [[N1 _] F]]]]].
    rewrite R in H.
    destruct (lookup_scanRows E isRead (fun l => eq_refl) _ _ _ _ _ _ _ _ _ _ R)
      as [evs1 [L1 F1]].
    apply sleepCount_reads in F1.
    destruct found as [row|].
    + injection H as <- <- <-. exists (Count (rowsLocator self) :: evs1).
      split.
      * rewrite L1. cbn [w0 call log]. now rewrite <- app_assoc.
      * change (Count (rowsLocator self) :: evs1)
          with ([Count (rowsLocator self)] ++ evs1)%list.
        rewrite sleepCount_app, F1. cbn. lia.
    + apply IH in H as [evs2 [L2 S2]].
      set (w2 := call E (WaitForTimeout (page self) 300) w1) in *.
      exists ((Count (rowsLocator self) :: evs1)
              ++ WaitForTimeout (page self) 300 :: evs2)%list.
      split.
      * rewrite L2. cbn [w2 call log]. rewrite L1. cbn [w0 call log].
        now rewrite <- !app_assoc.
      * rewrite sleepCount_app.
        change (Count (rowsLocator self) :: evs1)
          with ([Count (rowsLocator self)] ++ evs1)%list.
        change (WaitForTimeout (page self) 300 :: evs2)
          with ([WaitForTimeout (page self) 300] ++ evs2)%list.
        rewrite !sleepCount_app, F1.
        change (sleepCount [Count (rowsLocator self)]) with 0%nat.
        change (sleepCount [WaitForTimeout (page self) 300]) with 1%nat.
        pose proof (now_call E (Count (rowsLocator self)) w) as C0.
        pose proof (now_call E (WaitForTimeout (page self) 300) w1) as C1.
        fold w0 in C0. fold w2 in C1. cbn [sleeps] in C0, C1.
        change (Z.max 0 300) with 300 in C1.
        set (q2 := (z - (now w2 - start) + 299) / 300) in *.
        set (q := (z - (now w - start) + 299) / 300).
        assert (Q : q2 <= q - 1).
        { replace (q - 1) with ((z - (now w - start) + 299 - 300) / 300).
          - apply Z.div_le_mono; lia.
          - replace (z - (now w - start) + 299 - 300)
              with (z - (now w - start) + 299 + (-1) * 300) by lia.
            rewrite Z.div_add by lia. reflexivity. }
        assert (Q1 : 1 <= q).
        { unfold q. apply Z.div_le_lower_bound; lia. }
        lia.
  - injection H as <- <- <-. exists []. split; [now rewrite app_nil_r|].
    cbn. lia.
Qed.

End GetRowPolling.

(** X7. A row that is not on the page at the first scan but is there after
    the sleep, with the timeout not yet over, is found by the second scan:
    [getRow] returns the first row that matches on the page as re-rendered,
    having slept once. *)
Theorem getRow_finds_row_rendered_later :
  forall (E : Env) (n : nat) (rowText : string)
         (options : option WebTableHelper.RowOptions)
         (self : WebTableHelper.t) (w : World) (k : nat),
    (forall x, In x (renderedRows (browser w) (WebTableHelper.page self)) ->
               rowMatches rowText (rowMode options) x = false) ->
    lessThan (now (fruitlessTurn E self w) - now w) (rowTimeout options) = true ->
    isFirst (rowMatches rowText (rowMode options))
            (renderedRows (browser (fruitlessTurn E self w))
                          (WebTableHelper.page self)) k ->
    (2 <= n)%nat ->
    exists w' evs,
      WebTableHelper.getRow E n rowText options self w
      = Some (Return (Nth (rowsLocator self) k), self, w') /\
      browser w' = browser (fruitlessTurn E self w) /\
      log w' = (log w ++ evs)%list /\ sleepCount evs = 1%nat.
Proof.
  intros E n rowText options self w k No LT F Hn.
  destruct n as [|[|n]]; try lia.
  pose proof (fruitlessTurn_now E self w) as T.
  assert (LT0 : lessThan (now w - now w) (rowTimeout options) = true).
  { apply (lessThan_earlier (now (fruitlessTurn E self w) - now w));
      [lia | exact LT]. }
  rewrite getRow_run, (pollRows_fruitless E _ _ _ _ _ self w LT0 No).
  set (w1 := fruitlessTurn E self w) in *.
  destruct F as [[x [Hx Mx]] Nb].
  rewrite pollRows_step, LT.
  set (w2 := call E (Count (rowsLocator self)) w1).
  assert (B2 : browser w2 = browser w1) by now apply browser_call_read.
  rewrite (scanRows_found_exact E rowText (rowMode options) self _ 0%nat w2 k x);
    try (rewrite B2); auto; try lia.
  2:{ intros j y Hj Hy. apply (Nb j y); [lia | exact Hy]. }
  eexists _, _. split; [reflexivity|]. split; [|split].
  - now rewrite readRows_browser.
  - rewrite readRows_log. cbn [w2 call log]. unfold w1, fruitlessTurn.
    cbn [call log]. rewrite readRows_log. cbn [call log].
    rewrite <- !app_assoc. reflexivity.
  - rewrite !sleepCount_app.
    rewrite (sleepCount_reads (map _ (seq 0 (S k - 0)))).
    2:{ apply Forall_forall. intros ev Hev.
        apply in_map_iff in Hev as [j [<- _]]. reflexivity. }
    rewrite (sleepCount_reads (map _ (seq 0 _))).
    2:{ apply Forall_forall. intros ev Hev.
        apply in_map_iff in Hev as [j [<- _]]. reflexivity. }
    reflexivity.
Qed.

(** X7 on the sample page, where the row of Zoe is rendered during the
    first sleep: it is the fifth row then, and it is returned. *)
Lemma getRow_finds_row_rendered_later_witness :
  let E := MoreSamples.lateRowEnv in
  (forall x, In x (renderedRows (browser Sample.world) 0%nat) ->
             rowMatches "zoe" (rowMode None) x = false) /\
  lessThan (now (fruitlessTurn E Sample.helper Sample.world) - now Sample.world)
           (rowTimeout None) = true /\
  outcomeOf (WebTableHelper.getRow E 2 "zoe" None Sample.helper Sample.world)
  = Some (Return (Nth (rowsLocator Sample.helper) 4)).
Proof.
  intros E.
  assert (No : forall x,
             In x (renderedRows (browser Sample.world)
                     (WebTableHelper.page Sample.helper)) ->
             rowMatches "zoe" (rowMode None) x = false).
  { intros x Hx. simpl in Hx.
    repeat (destruct Hx as [<- | Hx]; [reflexivity|]). destruct Hx. }
  assert (LT : lessThan (now (fruitlessTurn E Sample.helper Sample.world)
                         - now Sample.world) (rowTimeout None) = true)
    by (vm_compute; reflexivity).
  assert (F : isFirst (rowMatches "zoe" (rowMode None))
                (renderedRows (browser (fruitlessTurn E Sample.helper Sample.world))
                   (WebTableHelper.page Sample.helper)) 4).
  { split; [eexists; split; reflexivity|].
    intros [|[|[|[|j]]]] y Hj Hy; try lia; injection Hy as <-; reflexivity. }
  split; [exact No|]. split; [exact LT|].
  destruct (getRow_finds_row_rendered_later E 2 "zoe" None Sample.helper
              Sample.world 4 No LT F (le_n 2)) as [w' [evs [R _]]].
  now rewrite R.
Defined.

(** X8. Under a finite timeout of [z] ms, a call of [getRow] that comes back
    has slept at most as many times as 300 ms fit into [z], rounded up (17
    times under the default of 5000 ms), and not at all if [z] is not
    positive. *)
Theorem getRow_sleeps_are_bounded :
  forall (E : Env) (n : nat) (rowText : string)
         (options : option WebTableHelper.RowOptions)
         (self : WebTableHelper.t) (w : World) (z : Z) o s' w',
    rowTimeout options = Finite z ->
    WebTableHelper.getRow E n rowText options self w = Some (o, s', w') ->
    exists evs,
      log w' = (log w ++ evs)%list /\
      Z.of_nat (sleepCount evs) <= Z.max 0 ((z + 299) / 300).
Proof.
  intros E n rowText options self w z o s' w' Hz H.
  rewrite getRow_run, Hz in H.
  destruct (WebTableHelper.pollRows E n (now w) (Finite z) rowText
              (rowMode options) self w) as [[[o1 s1] w1]|] eqn:P;
    [|discriminate].
  apply pollRows_sleeps in P as [evs [L S]].
  rewrite Z.sub_diag, Z.sub_0_r in S.
  destruct o1 as [[row|]|e]; injection H as <- <- <-.
  - now exists evs.
  - exists (evs ++ [AllInnerTexts (rowsLocator s1)])%list. split.
    + cbn [call log]. now rewrite L, app_assoc.
    + rewrite sleepCount_app. change (sleepCount [_]) with 0%nat.
      now rewrite Nat.add_0_r.
  - now exists evs.
Qed.

(** X8 on the sample page: the search for a row that is not there, under
    the default timeout, has slept 17 times at most. *)
Lemma getRow_sleeps_are_bounded_witness :
  let r := WebTableHelper.getRow Sample.env 18 "zzz" None Sample.helper
             Sample.world in
  rowTimeout None = Finite 5000 /\
  exists evs,
    log (worldOf r Sample.world) = (log Sample.world ++ evs)%list /\
    Z.of_nat (sleepCount evs) <= 17.
Proof.
  intros r. split; [reflexivity|].
  destruct r as [[[o s'] w']|] eqn:R; [|vm_compute in R; discriminate].
  cbn [worldOf].
  exact (getRow_sleeps_are_bounded Sample.env 18 "zzz" None Sample.helper
           Sample.world 5000 o s' w' eq_refl R).
Defined.

(** ** Look-ups by header, further *)

Section ColumnFurther.

Import WebTableHelper.
Context (E : Env).

Lemma getColumnIndex_found columnName mode self w (k : nat) :
  isFirst (fun h => match_ h columnName (nullish mode partial))
          (renderedHeaders (browser w) (page self)) k ->
  getColumnIndex E columnName mode self w
  = Some (Return (Z.of_nat k), self,
          call E (AllInnerTexts (headersLocator self)) w).
Proof.
  intros F. rewrite getColumnIndex_run.
  assert (I : findIndex (fun h => match_ h columnName (nullish mode partial))
                (map trim (renderedHeaders (browser w) (page self)))
              = Z.of_nat k).
  { apply findIndex_first, isFirst_map.
    eapply isFirst_ext; [|exact F]. intros x. apply match_trim_l. }
  rewrite I.
  now replace (Z.of_nat k =? -1) with false by (symmetry; apply Z.eqb_neq; lia).
Qed.

Lemma getColumnIndex_missing columnName mode self w :
  (forall h, In h (renderedHeaders (browser w) (page self)) ->
             match_ h columnName (nullish mode partial) = false) ->
  getColumnIndex E columnName mode self w
  = Some (Throw (columnNotFound columnName
                   (map trim (renderedHeaders (browser w) (page self)))),
          self, call E (AllInnerTexts (headersLocator self)) w).
Proof.
  intros No. rewrite getColumnIndex_run.
  assert (I : findIndex (fun h => match_ h columnName (nullish mode partial))
                (map trim (renderedHeaders (browser w) (page self))) = -1).
  { apply findIndex_none. intros h Hh. apply in_map_iff in Hh as [x [<- Hx]].
    rewrite match_trim_l. now apply No. }
  now rewrite I.
Qed.

Lemma isFirst_head {A} (p : A -> bool) x xs :
  p x = true -> isFirst p (x :: xs) 0.
Proof.
  intros H. split; [now exists x | intros j y Hj; lia].
Qed.

End ColumnFurther.

(** X9. A column name or row text that is blank (empty or white space only)
    is not rejected: in partial mode, which is the default, it matches
    whatever comes first, so [getColumnIndex] answers 0 as soon as one
    header is rendered and [getRow] returns the first row of the page. *)
Theorem blank_query_resolves_to_the_first :
  forall E : Env,
    (forall columnName mode self w h hs,
        trim columnName = "" -> nullish mode partial = partial ->
        renderedHeaders (browser w) (WebTableHelper.page self) = h :: hs ->
        outcomeOf (WebTableHelper.getColumnIndex E columnName mode self w)
        = Some (Return 0)) /\
    (forall n rowText options self w x xs,
        trim rowText = "" -> rowMode options = partial ->
        lessThan 0 (rowTimeout options) = true ->
        renderedRows (browser w) (WebTableHelper.page self) = x :: xs ->
        (1 <= n)%nat ->
        outcomeOf (WebTableHelper.getRow E n rowText options self w)
        = Some (Return (Nth (rowsLocator self) 0))).
Proof.
  intros E. split.
  - intros columnName mode self w h hs Hb Hm Hh.
    rewrite (getColumnIndex_found E columnName mode self w 0); [reflexivity|].
    rewrite Hh, Hm. apply isFirst_head, match_blank, Hb.
  - intros n rowText options self w x xs Hb Hm LT Hr Hn.
    destruct n as [|n]; [lia|].
    rewrite (getRow_first_scan E n rowText options self w 0 LT); [reflexivity|].
    rewrite Hr, Hm. apply isFirst_head. unfold rowMatches.
    apply match_blank, Hb.
Qed.

(** X9 on the sample page: a column name of two spaces is column 0. *)
Lemma blank_query_resolves_to_the_first_witness :
  trim "  " = "" /\
  outcomeOf (WebTableHelper.getColumnIndex Sample.env "  " None
               Sample.helper Sample.world) = Some (Return 0).
Proof.
  split; [reflexivity|].
  exact (proj1 (blank_query_resolves_to_the_first Sample.env) "  " None
           Sample.helper Sample.world _ _ eq_refl eq_refl eq_refl).
Defined.

(** ** WebTableHelper.getColumnValues *)

Section ColumnValues.

Import WebTableHelper.
Context (E : Env).

Lemma skipn_cons_nth {A} (l : list A) :
  forall (i : nat) x rest,
    skipn i l = x :: rest -> nth_error l i = Some x /\ skipn (S i) l = rest.
Proof.
  induction l as [|a l IH]; intros [|i] x rest H; cbn in *; try discriminate.
  - injection H as -> ->. now split.
  - now apply IH.
Qed.

Lemma cellValue_trimmed content v :
  cellValue content = Some v -> v <> "" /\ trim v = v.
Proof.
  destruct content as [s|]; unfold cellValue; [|discriminate].
  destruct (isEmpty (trim s)) eqn:Em; [discriminate|].
  intros H. injection H as <-. split; [|apply trim_idempotent].
  intros T. apply isEmpty_true in T. congruence.
Qed.

(** The loop over the rows that are left, all of which have the cell. *)
Lemma collectColumn_exact self (c : nat) (rest : list Node) :
  forall (i : nat) (w : World) (values : list string),
    skipn i (renderedRows (browser w) (page self)) = rest ->
    (forall row, In row rest ->
                 nth_error (el_within row (Role "cell")) c <> None) ->
    exists w',
      collectColumn E (rowsLocator self) (Z.of_nat c) i (List.length rest)
                    values self w
      = Some (Return (values ++ flat_map (keptText c) rest)%list, self, w') /\
      browser w' = browser w.
Proof.
  induction rest as [|row rest IH]; intros i w values Hs Has.
  - exists w. cbn. now rewrite app_nil_r.
  - apply skipn_cons_nth in Hs as [Hrow Hs].
    destruct (nth_error (el_within row (Role "cell")) c) as [cell|] eqn:Hc.
    2:{ exfalso. apply (Has row); [now left | exact Hc]. }
    cbn [List.length collectColumn]. rewrite Nat2Z.id.
    fold (cellLocator self i c).
    unfold bind at 1. unfold textContent, onElement.
    set (w1 := call E (TextContent (cellLocator self i c)) w).
    assert (B1 : browser w1 = browser w) by now apply browser_call_read.
    rewrite single_cell, B1. unfold cellAt.
    unfold renderedRows in Hrow. rewrite Hrow, Hc.
    assert (K : keptText c row
                = match cellValue (el_textContent cell) with
                  | Some v => [v]
                  | None => []
                  end) by (unfold keptText; now rewrite Hc).
    destruct (IH (S i) w1
                (values ++ match cellValue (el_textContent cell) with
                           | Some v => [v]
                           | None => []
                           end)%list) as [w' [R B]].
    { now rewrite B1. }
    { intros r Hr. apply Has. now right. }
    exists w'. split; [|congruence].
    cbn [flat_map]. rewrite K, app_assoc.
    destruct (cellValue (el_textContent cell)) as [v|]; [exact R|].
    rewrite (app_nil_r values) in R at 1. exact R.
Qed.

Lemma keptText_trimmed c row v :
  In v (keptText c row) -> v <> "" /\ trim v = v.
Proof.
  unfold keptText.
  destruct (nth_error (el_within row (Role "cell")) c) as [cell|]; [|intros []].
  destruct (cellValue (el_textContent cell)) as [u|] eqn:V; [|intros []].
  intros [<- | []]. eapply cellValue_trimmed; eauto.
Qed.

End ColumnValues.

(** X10. [getColumnValues] leaves the first row out, reads from every other
    row the cell under the first header that matches, and returns, in row
    order, the trimmed texts that are not empty: blank cells are dropped,
    so the list can be shorter than the table, and no value in it is empty
    or has white space around it. The column must exist and every row after
    the first must have a cell at its index. *)
Theorem getColumnValues_trimmed_nonblank_column :
  forall (E : Env) (columnName : string) (self : WebTableHelper.t)
         (w : World) (c : nat),
    isFirst (fun h => match_ h columnName partial)
            (renderedHeaders (browser w) (WebTableHelper.page self)) c ->
    (forall row,
        In row (skipn 1 (renderedRows (browser w) (WebTableHelper.page self))) ->
        nth_error (el_within row (Role "cell")) c <> None) ->
    exists w',
      WebTableHelper.getColumnValues E columnName self w
      = Some (Return (columnTexts (browser w (WebTableHelper.page self)) c),
              self, w') /\
      browser w' = browser w /\
      Forall (fun v => v <> "" /\ trim v = v)
             (columnTexts (browser w (WebTableHelper.page self)) c).
Proof.
  intros E columnName self w c F Has.
  unfold WebTableHelper.getColumnValues. unfold bind at 1.
  rewrite (getColumnIndex_found E columnName (Some partial) self w c F).
  unfold bind at 1. unfold this. unfold bind at 1.
  rewrite count_run by reflexivity.
  set (w1 := call E (AllInnerTexts (headersLocator self)) w).
  set (w2 := call E (Count _) w1).
  assert (B2 : browser w2 = browser w).
  { unfold w2, w1. now rewrite !browser_call_read. }
  assert (B1 : browser w1 = browser w) by now apply browser_call_read.
  destruct (collectColumn_exact E self c
              (skipn 1 (renderedRows (browser w) (WebTableHelper.page self)))
              1%nat w2 []) as [w' [R B]].
  { now rewrite B2. }
  { exact Has. }
  exists w'. split; [|split].
  - rewrite B1. cbn [resolve].
    replace (List.length (browser w (WebTableHelper.page self) (Role "row")) - 1)%nat
      with (List.length (skipn 1 (renderedRows (browser w)
                                    (WebTableHelper.page self)))).
    + exact R.
    + unfold renderedRows. now rewrite length_skipn.
  - congruence.
  - apply Forall_forall. intros v Hv. unfold columnTexts in Hv.
    apply in_flat_map in Hv as [row [_ Hv]].
    eapply keptText_trimmed; eauto.
Qed.

(** X10 on the sample page: the column "last" holds three names. *)
Lemma getColumnValues_trimmed_nonblank_column_witness :
  isFirst (fun h => match_ h "last" partial)
          (renderedHeaders (browser Sample.world) 0%nat) 1 /\
  outcomeOf (WebTableHelper.getColumnValues Sample.env "last" Sample.helper
               Sample.world)
  = Some (Return ["Vega"; "Cantrell"; "Gentry"]).
Proof.
  assert (F : isFirst (fun h => match_ h "last" partial)
                (renderedHeaders (browser Sample.world)
                   (WebTableHelper.page Sample.helper)) 1).
  { split; [eexists; split; reflexivity|].
    intros [|j] y Hj Hy; try lia; injection Hy as <-; reflexivity. }
  split; [exact F|].
  destruct (getColumnValues_trimmed_nonblank_column Sample.env "last"
              Sample.helper Sample.world 1 F) as [w' [R _]].
  - intros row Hr. simpl in Hr.
    repeat (destruct Hr as [<- | Hr]; [discriminate|]). destruct Hr.
  - now rewrite R.
Defined.

Section ColumnValuesShort.

Import WebTableHelper.
Context (E : Env).

(** The loop over rows of which one, after some that have the cell, has
    none. *)
Lemma collectColumn_short self (c : nat) (good : list Node) :
  forall (i : nat) (w : World) (values : list string) bad rest,
    skipn i (renderedRows (browser w) (page self)) = (good ++ bad :: rest)%list ->
    (forall row, In row good ->
                 nth_error (el_within row (Role "cell")) c <> None) ->
    nth_error (el_within bad (Role "cell")) c = None ->
    exists w',
      collectColumn E (rowsLocator self) (Z.of_nat c) i
                    (List.length (good ++ bad :: rest)) values self w
      = Some (Throw (libraryError E
                       (TextContent (cellLocator self (i + List.length good) c))),
              self, w').
Proof.
  induction good as [|row good IH]; intros i w values bad rest Hs Has Hbad.
  - cbn [app] in Hs. apply skipn_cons_nth in Hs as [Hrow _].
    cbn [app List.length collectColumn]. rewrite Nat2Z.id, Nat.add_0_r.
    fold (cellLocator self i c).
    unfold bind at 1. unfold textContent, onElement.
    rewrite single_cell, browser_call_read by reflexivity.
    unfold cellAt. unfold renderedRows in Hrow. rewrite Hrow, Hbad. eauto.
  - cbn [app] in Hs. apply skipn_cons_nth in Hs as [Hrow Hs].
    destruct (nth_error (el_within row (Role "cell")) c) as [cell|] eqn:Hc.
    2:{ exfalso. apply (Has row); [now left | exact Hc]. }
    cbn [app List.length collectColumn]. rewrite Nat2Z.id.
    fold (cellLocator self i c).
    unfold bind at 1. unfold textContent, onElement.
    set (w1 := call E (TextContent (cellLocator self i c)) w).
    assert (B1 : browser w1 = browser w) by now apply browser_call_read.
    rewrite single_cell, B1. unfold cellAt.
    unfold renderedRows in Hrow. rewrite Hrow, Hc.
    replace (i + S (List.length good))%nat with (S i + List.length good)%nat
      by lia.
    destruct (cellValue (el_textContent cell)) as [v|];
      apply IH; try (now rewrite B1); try exact Hbad;
      intros r Hr; apply Has; now right.
Qed.

End ColumnValuesShort.

(** X11. [getColumnValues] does not skip a row that has no cell under the
    column: at the first such row after the first it throws the failure of
    the library for that cell's text, and the values it had collected are
    not returned. *)
Theorem getColumnValues_fails_on_short_row :
  forall (E : Env) (columnName : string) (self : WebTableHelper.t)
         (w : World) (c : nat) (good : list Node) (bad : Node)
         (rest : list Node),
    isFirst (fun h => match_ h columnName partial)
            (renderedHeaders (browser w) (WebTableHelper.page self)) c ->
    skipn 1 (renderedRows (browser w) (WebTableHelper.page self))
    = (good ++ bad :: rest)%list ->
    (forall row, In row good ->
                 nth_error (el_within row (Role "cell")) c <> None) ->
    nth_error (el_within bad (Role "cell")) c = None ->
    outcomeOf (WebTableHelper.getColumnValues E columnName self w)
    = Some (Throw (libraryError E
                     (TextContent (cellLocator self (1 + List.length good) c)))).
Proof.
  intros E columnName self w c good bad rest F Hs Has Hbad.
  unfold WebTableHelper.getColumnValues. unfold bind at 1.
  rewrite (getColumnIndex_found E columnName (Some partial) self w c F).
  unfold bind at 1. unfold this. unfold bind at 1.
  rewrite count_run by reflexivity.
  set (w1 := call E (AllInnerTexts (headersLocator self)) w).
  set (w2 := call E (Count _) w1).
  assert (B1 : browser w1 = browser w) by now apply browser_call_read.
  assert (B2 : browser w2 = browser w).
  { unfold w2. now rewrite browser_call_read. }
  assert (Hs2 : skipn 1 (renderedRows (browser w2) (WebTableHelper.page self))
                = (good ++ bad :: rest)%list) by now rewrite B2.
  destruct (collectColumn_short E self c good 1%nat w2 [] bad rest Hs2 Has Hbad)
    as [w' R].
  rewrite B1. cbn [resolve].
  replace (List.length (browser w (WebTableHelper.page self) (Role "row")) - 1)%nat
    with (List.length (good ++ bad :: rest)).
  - fold (rowsLocator self). now rewrite R.
  - rewrite <- Hs. unfold renderedRows. now rewrite length_skipn.
Qed.

(** X11 on the sample page: the row of Kierra has no third cell, and the
    e-mails of the rows before it are lost with the failure. *)
Lemma getColumnValues_fails_on_short_row_witness :
  isFirst (fun h => match_ h "email" partial)
          (renderedHeaders (browser Sample.world) 0%nat) 2 /\
  outcomeOf (WebTableHelper.getColumnValues Sample.env "email" Sample.helper
               Sample.world)
  = Some (Throw (libraryError Sample.env
                   (TextContent (cellLocator Sample.helper 3 2)))).
Proof.
  assert (F : isFirst (fun h => match_ h "email" partial)
                (renderedHeaders (browser Sample.world)
                   (WebTableHelper.page Sample.helper)) 2).
  { split; [eexists; split; reflexivity|].
    intros [|[|j]] y Hj Hy; try lia; injection Hy as <-; reflexivity. }
  split; [exact F|].
  apply (getColumnValues_fails_on_short_row Sample.env "email" Sample.helper
           Sample.world 2
           [nth 1 Sample.tableRows (Sample.leaf "" true);
            nth 2 Sample.tableRows (Sample.leaf "" true)]
           (nth 3 Sample.tableRows (Sample.leaf "" true)) [] F).
  - reflexivity.
  - intros row [<- | [<- | []]]; discriminate.
  - reflexivity.
Defined.

(** ** WebTablePage.verifyTableCellValue *)

Lemma cellValue_some content v :
  WebTableHelper.cellValue content = Some v ->
  exists raw, content = Some raw /\ v = trim raw.
Proof.
  destruct content as [s|]; unfold WebTableHelper.cellValue; [|discriminate].
  destruct (isEmpty (trim s)); [discriminate|].
  intros H. injection H as <-. now exists s.
Qed.

(** X12. [verifyTableCellValue] comes back without a failure only if the
    cell that [getCellValue] resolved (the one at the first row that matches
    [rowName] and under the first header that matches [columnName], both in
    partial mode) is visible and its text content, trimmed, is the expected
    value and is not empty. An expected value that is empty or has white
    space around it can therefore never be verified: a blank cell reads as
    null, which is no string. *)
Theorem verifyTableCellValue_passes_only_on_trimmed_text :
  forall (E : Env) (n : nat) (rowName columnName expectedValue : string)
         (self : WebTablePage.t) (w : World) s' w',
    WebTablePage.verifyTableCellValue E n rowName columnName expectedValue self w
    = Some (Return tt, s', w') ->
    let pg := WebTableHelper.page (WebTablePage.webTableHelper self) in
    expectedValue <> "" /\ trim expectedValue = expectedValue /\
    exists (k j : nat) (cell : Node) (found : Browser) raw,
      isFirst (rowMatches rowName partial) (renderedRows found pg) k /\
      isFirst (fun h => match_ h columnName partial)
              (renderedHeaders found pg) j /\
      (still E -> found = browser w /\ browser w' = browser w) /\
      (exists c, browser w'
                 = react E c
                     (ExpectToBeVisible
                        (cellLocator (WebTablePage.webTableHelper self) k j)
                        true)
                     found) /\
      cellAt (browser w' pg) k j = Some cell /\
      el_visible cell = true /\
      el_textContent cell = Some raw /\ trim raw = expectedValue.
Proof.
  intros E n rowName columnName expectedValue self w s' w' H pg.
  unfold WebTablePage.verifyTableCellValue in H. unfold bind at 1 in H.
  unfold onField in H.
  destruct (WebTableHelper.getCellValue E n rowName columnName None
              (WebTablePage.webTableHelper self) w)
    as [[[[v|e] h1] w1]|] eqn:R; try discriminate.
  unfold expectToBe in H. destruct v as [a|]; [|discriminate].
  destruct (String.eqb a expectedValue) eqn:Eq; [|discriminate].
  apply String.eqb_eq in Eq. subst a. injection H as <- <-.
  apply getCellValue_resolved in R
    as [k [j [cell [found [Fk [Fj [St [Re [C [V Hv]]]]]]]]]].
  symmetry in Hv. pose proof (cellValue_trimmed _ _ Hv) as [Ne Tr].
  apply cellValue_some in Hv as [raw [Hraw ->]].
  split; [exact Ne|]. split; [exact Tr|].
  exists k, j, cell, found, raw.
  repeat (split; [assumption|]). now split.
Qed.

(** X12 on the sample page: the e-mail of Cierra, at row 1 and column 2, is
    verified in its trimmed form. *)
Lemma verifyTableCellValue_passes_only_on_trimmed_text_witness :
  let r := WebTablePage.verifyTableCellValue Sample.env 18 "cierra" "email"
             "cierra@example.com" Sample.tablePage Sample.world in
  outcomeOf r = Some (Return tt) /\
  trim "cierra@example.com" = "cierra@example.com" /\
  exists (k j : nat) cell raw,
    isFirst (rowMatches "cierra" partial)
            (renderedRows (browser Sample.world) 0%nat) k /\
    isFirst (fun h => match_ h "email" partial)
            (renderedHeaders (browser Sample.world) 0%nat) j /\
    cellAt (browser Sample.world 0%nat) k j = Some cell /\
    el_textContent cell = Some raw /\ trim raw = "cierra@example.com".
Proof.
  intros r.
  assert (O : outcomeOf r = Some (Return tt)) by (vm_compute; reflexivity).
  split; [exact O|].
  destruct r as [[[o s'] w']|] eqn:R; [|discriminate].
  cbn [outcomeOf] in O. injection O as ->.
  destruct (verifyTableCellValue_passes_only_on_trimmed_text
              Sample.env 18 "cierra" "email" "cierra@example.com"
              Sample.tablePage Sample.world s' w' R)
    as [_ [Tr [k [j [cell [found [raw [Fk [Fj [St [_ [C [_ [Hraw T]]]]]]]]]]]]]].
  destruct (St (fun _ _ _ => eq_refl)) as [-> Bw].
  rewrite Bw in C. split; [exact Tr|].
  exists k, j, cell, raw. split; [exact Fk|]. split; [exact Fj|].
  split; [exact C|]. split; [exact Hraw | exact T].
Defined.

(** ** WebTableHelper.clickCellAction *)

Section ClickCellAction.

Import WebTableHelper.
Context (E : Env).

Lemma onElement_still {Self A} ev l (f : Node -> option A) (s : Self) w :
  still E ->
  onElement E ev l f s w
  = Some (match single (browser w) l with
          | Some n => match f n with
                      | Some a => Return a
                      | None => Throw (libraryError E ev)
                      end
          | None => Throw (libraryError E ev)
          end, s, call E ev w).
Proof.
  intros St. unfold onElement. rewrite browser_call_still by exact St.
  destruct (single (browser w) l) as [n|]; [|reflexivity].
  now destruct (f n).
Qed.

End ClickCellAction.



(** ** CommonUserActionsPage, further *)

Section ActionsFurther.

Import CommonUserActionsPage.
Context (E : Env) {L : CommonLocators}.

Lemma action_still {Self} ev l (f : Node -> option unit) (s : Self) w :
  still E ->
  (forall x, f x = if passes ev x then Some tt else None) ->
  onElement E ev l f s w
  = Some (actionOutcome E (browser w) l ev, s, call E ev w).
Proof.
  intros St Hf. rewrite onElement_still by exact St. unfold actionOutcome.
  destruct (single (browser w) l) as [x|]; [|reflexivity].
  rewrite Hf. now destruct (passes ev x).
Qed.

(** The loop of [inputMultiValues] on a field that is there and visible. *)
Lemma typeValues_still pg l field (values : list string) :
  still E ->
  forall self w,
    single (browser w) l = Some field -> el_visible field = true ->
    exists w',
      typeValues E pg l values self w = Some (Return tt, self, w') /\
      browser w' = browser w /\
      log w' = (log w ++ typingCalls l pg values)%list /\
      now w + 500 * Z.of_nat (List.length values) <= now w'.
Proof.
  intros St. induction values as [|v values IH]; intros self w Hs Hv.
  - exists w. cbn. rewrite app_nil_r. repeat split; lia.
  - cbn [typeValues]. unfold bind at 1. unfold type_.
    rewrite action_still by (exact St || (intros; reflexivity)). unfold actionOutcome. rewrite Hs. cbn [passes]. rewrite Hv.
    set (w1 := call E (TypeText l v) w).
    unfold bind at 1. unfold waitForTimeout.
    set (w2 := call E (WaitForTimeout pg 500) w1).
    unfold bind at 1. unfold keyboardPress.
    set (w3 := call E (KeyboardPress pg "Enter") w2).
    assert (B3 : browser w3 = browser w).
    { unfold w3, w2, w1. now rewrite !browser_call_still. }
    destruct (IH self w3) as [w' [R [B [Lg T]]]]; [now rewrite B3 | exact Hv |].
    exists w'. split; [exact R|]. split; [congruence|]. split.
    + rewrite Lg. unfold w3, w2, w1. cbn [call log typingCalls flat_map].
      now rewrite <- !app_assoc.
    + pose proof (now_call E (TypeText l v) w) as C1.
      pose proof (now_call E (WaitForTimeout pg 500) w1) as C2.
      pose proof (now_call E (KeyboardPress pg "Enter") w2) as C3.
      fold w1 in C1. fold w2 in C2. fold w3 in C3. cbn [sleeps] in C1, C2, C3.
      change (Z.max 0 500) with 500 in C2.
      cbn [List.length]. rewrite Nat2Z.inj_succ. lia.
Qed.

End ActionsFurther.

(** X14. On a page that stays as rendered, with the field there and
    visible, [inputMultiValues] waits for the field and then types every
    entry of [values] in order, each followed by a sleep of 500 ms and the
    Enter key; entries that are blank are typed like the others once one
    entry is not blank; the call takes 500 ms per entry at least. *)
Theorem inputMultiValues_types_every_entry :
  forall (E : Env) (L : CommonLocators) (fieldName : string)
         (values : list string) (self : CommonUserActionsPage.t) (w : World)
         (v : string) (field : Node),
    still E ->
    In v values -> trim v <> "" ->
    let l := Root (CommonUserActionsPage.page self)
                  (Css (inputFieldLocator fieldName)) in
    single (browser w) l = Some field -> el_visible field = true ->
    exists w',
      CommonUserActionsPage.inputMultiValues E fieldName values self w
      = Some (Return tt, self, w') /\
      log w' = (log w ++ WaitForVisible l 20000
                :: typingCalls l (CommonUserActionsPage.page self) values)%list /\
      500 * Z.of_nat (List.length values) <= now w' - now w.
Proof.
  intros E L fieldName values self w v field St Hin Hne l Hs Hv.
  unfold CommonUserActionsPage.inputMultiValues.
  replace ((List.length values =? 0)%nat
           || forallb (fun v => isEmpty (trim v)) values) with false.
  2:{ symmetry. apply orb_false_iff. split.
      - destruct values; [destruct Hin | reflexivity].
      - apply not_true_is_false. intros F.
        apply (proj1 (forallb_blank values)) with (v := v) in F; auto. }
  unfold bind at 1. unfold this. fold l.
  unfold bind at 1. unfold tryCatch, waitFor.
  rewrite action_still by (exact St || (intros; reflexivity)). unfold actionOutcome. rewrite Hs. cbn [passes]. rewrite Hv.
  set (w1 := call E (WaitForVisible l 20000) w).
  assert (B1 : browser w1 = browser w) by now apply browser_call_still.
  destruct (typeValues_still E (CommonUserActionsPage.page self) l field values
              St self w1) as [w' [R [_ [Lg T]]]];
    [now rewrite B1 | exact Hv |].
  exists w'. split; [exact R|]. split.
  - rewrite Lg. unfold w1. cbn [call log]. now rewrite <- app_assoc.
  - pose proof (now_call E (WaitForVisible l 20000) w) as C1.
    fold w1 in C1. cbn [sleeps] in C1. lia.
Qed.

(** X14 on the sample form: of "Maths" and a blank entry both are typed. *)
Lemma inputMultiValues_types_every_entry_witness :
  let l := Root 0%nat
             (Css (inputFieldLocator (CommonLocators := Sample.commonLocators)
                     "Subjects")) in
  still Sample.env /\ trim "Maths" <> "" /\
  exists w',
    CommonUserActionsPage.inputMultiValues Sample.env
      (L := Sample.commonLocators) "Subjects" ["Maths"; "  "]
      Sample.actions MoreSamples.formWorld
    = Some (Return tt, Sample.actions, w') /\
    log w' = [WaitForVisible l 20000;
              TypeText l "Maths"; WaitForTimeout 0%nat 500;
              KeyboardPress 0%nat "Enter";
              TypeText l "  "; WaitForTimeout 0%nat 500;
              KeyboardPress 0%nat "Enter"].
Proof.
  intros l.
  assert (St : still Sample.env) by (intros k ev b; reflexivity).
  assert (Ne : trim "Maths" <> "") by discriminate.
  split; [exact St|]. split; [exact Ne|].
  destruct (inputMultiValues_types_every_entry Sample.env Sample.commonLocators
              "Subjects" ["Maths"; "  "] Sample.actions MoreSamples.formWorld
              "Maths" (Sample.leaf "" true) St (or_introl eq_refl) Ne
              eq_refl eq_refl) as [w' [R [Lg _]]].
  exists w'. split; [exact R | exact Lg].
Defined.

(** X15. [inputOnField] does not fall back once a strategy has matched: on a
    page that stays as rendered its outcome is that of filling through the
    first locator whose count is not zero, so a first match on two fields,
    or on a hidden one, fails the call even if a later strategy would
    find the one visible field. *)
Theorem inputOnField_does_not_fall_back :
  forall (E : Env) (L : CommonLocators) (fieldName textInput : string)
         (self : CommonUserActionsPage.t) (w : World) (l : Locator),
    still E ->
    firstCounted (browser w) (inputStrategies self fieldName) = Some l ->
    outcomeOf (CommonUserActionsPage.inputOnField E fieldName textInput self w)
    = Some (actionOutcome E (browser w) l (Fill l textInput)).
Proof.
  intros E L fieldName textInput self w l St H.
  rewrite inputOnField_run. unfold firstCounted, inputStrategies in H.
  cbn [find] in H.
  assert (B : forall l' w0, browser w0 = browser w ->
              outcomeOf (fill E l' textInput self w0)
              = Some (actionOutcome E (browser w) l' (Fill l' textInput))).
  { intros l' w0 B0. unfold fill. rewrite action_still by (exact St || (intros; reflexivity)).
    now rewrite B0. }
  destruct (resolve (browser w) (Root _ (RoleNamed "textbox" fieldName)))
    as [|x1 r1]; cbn [List.length Nat.ltb Nat.leb] in H.
  2:{ injection H as <-. apply B. now apply browser_call_read. }
  destruct (resolve (browser w) (Root _ (Label fieldName)))
    as [|x2 r2]; cbn [List.length Nat.ltb Nat.leb] in H.
  2:{ injection H as <-. apply B. now rewrite !browser_call_read. }
  destruct (resolve (browser w) (Root _ (Placeholder fieldName)))
    as [|x3 r3]; cbn [List.length Nat.ltb Nat.leb] in H.
  2:{ injection H as <-. apply B. now rewrite !browser_call_read. }
  destruct (resolve (browser w) (Root _ (Css (inputFieldLocator fieldName))))
    as [|x4 r4]; cbn [List.length Nat.ltb Nat.leb] in H; [discriminate|].
  injection H as <-. apply B. now rewrite !browser_call_read.
Qed.

(** X15 on the sample form, where the role finds two text boxes "Email" and
    the label one: the call fails on the two. *)
Lemma inputOnField_does_not_fall_back_witness :
  let byRole := Root 0%nat (RoleNamed "textbox" "Email") in
  still Sample.env /\
  single (browser MoreSamples.formWorld) (Root 0%nat (Label "Email"))
  = Some (Sample.leaf "" true) /\
  outcomeOf (CommonUserActionsPage.inputOnField Sample.env
               (L := Sample.commonLocators) "Email" "a@b.c"
               Sample.actions MoreSamples.formWorld)
  = Some (Throw (libraryError Sample.env (Fill byRole "a@b.c"))).
Proof.
  intros byRole.
  assert (St : still Sample.env) by (intros k ev b; reflexivity).
  split; [exact St|]. split; [reflexivity|].
  exact (inputOnField_does_not_fall_back Sample.env Sample.commonLocators
           "Email" "a@b.c" Sample.actions MoreSamples.formWorld byRole St
           eq_refl).
Defined.

(** X16. Of several elements that match, [clickOnButton] takes the first,
    however many follow. On a page that stays as rendered, a first match
    that is hidden makes it throw its "NOT visible" error; a first match
    that is visible is clicked, and the outcome is that of the click:
    success when the element is also stable, receives events and is
    enabled, and otherwise the exception of the library, which is not
    wrapped. [selectCheckbox] and [selectRadioButton] take no first: two
    matches make them fail with their "NOT found" error, though the
    elements are there. *)
Theorem clickOnButton_takes_the_first_match :
  forall (E : Env) (L : CommonLocators) (name : string)
         (self : CommonUserActionsPage.t) (w : World) (x y : Node)
         (rest : list Node),
    still E ->
    let pg := CommonUserActionsPage.page self in
    let button := First (Root pg (Css (buttonLocator name))) in
    (resolve (browser w) (Root pg (Css (buttonLocator name))) = x :: rest ->
     outcomeOf (CommonUserActionsPage.clickOnButton E name self w)
     = Some (if el_visible x
             then if clickable x then Return tt
                  else Throw (libraryError E (Click button))
             else Throw (CommonUserActionsPage.buttonNotVisible name
                           (libraryError E (WaitForVisible button 60000))))) /\
    (resolve (browser w) (Root pg (Css (checkBoxLocator name))) = x :: y :: rest ->
     outcomeOf (CommonUserActionsPage.selectCheckbox E name self w)
     = Some (Throw (CommonUserActionsPage.checkboxNotFound name
                      (libraryError E
                         (WaitForVisible (Root pg (Css (checkBoxLocator name)))
                                         60000))))) /\
    (resolve (browser w) (Root pg (Css (radioButtonLocator name))) = x :: y :: rest ->
     outcomeOf (CommonUserActionsPage.selectRadioButton E name self w)
     = Some (Throw (CommonUserActionsPage.checkboxNotFound name
                      (libraryError E
                         (WaitForVisible (Root pg (Css (radioButtonLocator name)))
                                         60000))))).
Proof.
  intros E L name self w x y rest St pg button. split; [|split]; intros H.
  - unfold CommonUserActionsPage.clickOnButton. unfold bind at 1. unfold this.
    fold pg. fold button. unfold bind at 1. unfold tryCatch, waitFor.
    rewrite action_still by (exact St || (intros; reflexivity)).
    assert (S1 : forall b, b = browser w -> single b button = Some x).
    { intros b ->. unfold single, button. cbn [resolve]. cbn [resolve] in H.
      now rewrite H. }
    unfold actionOutcome at 1. rewrite (S1 _ eq_refl). cbn [passes].
    destruct (el_visible x) eqn:V; [|reflexivity].
    unfold click. rewrite action_still by (exact St || (intros; reflexivity)).
    unfold actionOutcome. rewrite S1 by (now apply browser_call_still).
    cbn [passes outcomeOf]. reflexivity.
  - unfold CommonUserActionsPage.selectCheckbox. unfold bind at 1. unfold this.
    fold pg. unfold bind at 1. unfold tryCatch, waitFor.
    rewrite action_still by (exact St || (intros; reflexivity)).
    unfold actionOutcome, single. now rewrite H.
  - unfold CommonUserActionsPage.selectRadioButton. unfold bind at 1. unfold this.
    fold pg. unfold bind at 1. unfold tryCatch, waitFor.
    rewrite action_still by (exact St || (intros; reflexivity)).
    unfold actionOutcome, single. now rewrite H.
Qed.

(** X16 on the sample forms: "Save" is clicked though a second, hidden
    button has the same text; where the first "Save" is visible but
    disabled, the click fails with the exception of the library. *)
Lemma clickOnButton_takes_the_first_match_witness :
  let button :=
    First (Root 0%nat (Css (buttonLocator (CommonLocators := Sample.commonLocators)
                              "Save"))) in
  still Sample.env /\
  outcomeOf (CommonUserActionsPage.clickOnButton Sample.env
               (L := Sample.commonLocators) "Save"
               Sample.actions MoreSamples.formWorld)
  = Some (Return tt) /\
  outcomeOf (CommonUserActionsPage.clickOnButton Sample.env
               (L := Sample.commonLocators) "Save"
               Sample.actions MoreSamples.disabledFormWorld)
  = Some (Throw (libraryError Sample.env (Click button))).
Proof.
  intros button.
  assert (St : still Sample.env) by (intros k ev b; reflexivity).
  split; [exact St|]. split.
  - exact (proj1 (clickOnButton_takes_the_first_match Sample.env
                    Sample.commonLocators "Save" Sample.actions
                    MoreSamples.formWorld (Sample.leaf "Save" true)
                    (Sample.leaf "Save" false) [Sample.leaf "Save" false] St)
             eq_refl).
  - exact (proj1 (clickOnButton_takes_the_first_match Sample.env
                    Sample.commonLocators "Save" Sample.actions
                    MoreSamples.disabledFormWorld MoreSamples.disabledButton
                    (Sample.leaf "Save" true) [Sample.leaf "Save" true] St)
             eq_refl).
Defined.

(** ** WebTablePage, further *)

Section TablePageFurther.

Import WebTablePage.
Context (E : Env) {L : WebTablePageLocators}.

(** The header scan only reads: it leaves the pages as they are. *)
Lemma scanHeaders_browser columnName self (n : nat) :
  forall (i : nat) (w : World) o s' w',
    scanHeaders E (columnHeaders self) columnName i n self w = Some (o, s', w') ->
    browser w' = browser w.
Proof.
  induction n as [|n IH]; intros i w o s' w' R; cbn [scanHeaders] in R.
  - unfold ret in R. now injection R as _ _ <-.
  - unfold bind at 1 in R.
    destruct (onElement_cases E (InnerText (Nth (columnHeaders self) i))
                (Nth (columnHeaders self) i)
                (fun n => Some (el_innerText n)) self w) as [o1 [Ro _]].
    unfold innerText in R. rewrite Ro in R.
    assert (B1 : browser (call E (InnerText (Nth (columnHeaders self) i)) w)
                 = browser w) by now apply browser_call_read.
    destruct o1 as [text|e].
    + destruct (String.eqb _ _).
      * unfold ret in R. injection R as _ _ <-. exact B1.
      * apply IH in R. now rewrite R.
    + injection R as _ _ <-. exact B1.
Qed.

(** The two ways [getTableColumnIndexByName] ends. *)
Lemma getTableColumnIndexByName_cases columnName self w :
  let rendered := map el_innerText (resolve (browser w) (columnHeaders self)) in
  (exists (i : nat) w',
      getTableColumnIndexByName E columnName self w
      = Some (Return (Z.of_nat i + 1), self, w') /\
      browser w' = browser w /\
      isFirst (headerEquals columnName) rendered i) \/
  (exists w',
      getTableColumnIndexByName E columnName self w
      = Some (Throw (columnNameNotFound columnName), self, w') /\
      forall h, In h rendered -> headerEquals columnName h = false).
Proof.
  intros rendered. rewrite getTableColumnIndexByName_run.
  set (w0 := call E (Count (columnHeaders self)) w).
  assert (B0 : browser w0 = browser w) by now apply browser_call_read.
  destruct (scanHeaders_spec E columnName self
              (List.length (resolve (browser w) (columnHeaders self))) 0%nat w0)
    as [found [w' [R F]]]; [now rewrite B0|].
  assert (B' : browser w' = browser w).
  { rewrite <- B0. eapply scanHeaders_browser. exact R. }
  rewrite R. rewrite B0 in F. destruct found as [k|].
  - left. destruct F as [j [x [-> [_ [Hx [Mx Hb]]]]]].
    exists j, w'. split; [reflexivity|]. split; [exact B'|].
    unfold rendered. apply isFirst_map. split; [now exists x|].
    intros j' y Hj Hy. apply (Hb j' y); [lia | exact Hy].
  - right. exists w'. split; [reflexivity|].
    intros h Hh. unfold rendered in Hh. apply in_map_iff in Hh as [x [<- Hx]].
    apply In_nth_error in Hx as [j Hj]. apply (F j x); [lia | exact Hj].
Qed.

Lemma headerEquals_is_exact columnName h :
  trim columnName = columnName ->
  headerEquals columnName h = match_ h columnName exact.
Proof.
  intros H. unfold headerEquals, match_.
  now rewrite !normalize_trim_first, H.
Qed.

End TablePageFurther.

(** X17. For a column name without white space around it, and header cells
    that both selectors find alike, the two look-ups agree up to their
    counting: [getTableColumnIndexByName] returns [k + 1] exactly when
    [getColumnIndex] in mode [exact] returns [k], and one throws exactly
    when the other does. *)
Theorem column_index_by_name_is_exact_index_plus_one :
  forall (E : Env) (L : WebTablePageLocators) (columnName : string)
         (tablePage : WebTablePage.t) (helper : WebTableHelper.t) (w : World),
    trim columnName = columnName ->
    map el_innerText (resolve (browser w) (columnHeaders tablePage))
    = renderedHeaders (browser w) (WebTableHelper.page helper) ->
    (forall k : Z,
        outcomeOf (WebTablePage.getTableColumnIndexByName E columnName tablePage w)
        = Some (Return (k + 1)) <->
        outcomeOf (WebTableHelper.getColumnIndex E columnName (Some exact) helper w)
        = Some (Return k)) /\
    ((exists e,
         outcomeOf (WebTablePage.getTableColumnIndexByName E columnName tablePage w)
         = Some (Throw e)) <->
     (exists e,
         outcomeOf (WebTableHelper.getColumnIndex E columnName (Some exact) helper w)
         = Some (Throw e))).
Proof.
  intros E L columnName tablePage helper w Ht Hh.
  destruct (getTableColumnIndexByName_cases E columnName tablePage w)
    as [[i [w' [R [_ F]]]] | [w' [R No]]]; rewrite R; cbn [outcomeOf].
  - rewrite Hh in F.
    assert (F' : isFirst (fun h => match_ h columnName (nullish (Some exact) partial))
                   (renderedHeaders (browser w) (WebTableHelper.page helper)) i).
    { eapply isFirst_ext; [|exact F]. intros h. cbn [nullish].
      symmetry. now apply headerEquals_is_exact. }
    rewrite (getColumnIndex_found E columnName (Some exact) helper w i F').
    cbn [outcomeOf]. split.
    + intros k. split; intros H; injection H as H; do 2 f_equal; lia.
    + split; intros [e H]; discriminate.
  - rewrite Hh in No.
    rewrite (getColumnIndex_missing E columnName (Some exact) helper w).
    2:{ intros h Hin. cbn [nullish]. rewrite <- headerEquals_is_exact by exact Ht.
        now apply No. }
    cbn [outcomeOf]. split.
    + intros k. split; intros H; discriminate.
    + split; intros _; eexists; reflexivity.
Qed.

(** X17 on the sample page for "email": 3 by name, 2 by exact index. *)
Lemma column_index_by_name_is_exact_index_plus_one_witness :
  trim "email" = "email" /\
  outcomeOf (WebTablePage.getTableColumnIndexByName Sample.env
               (L := Sample.webTableLocators) "email"
               Sample.tablePage Sample.world) = Some (Return (2 + 1)) /\
  outcomeOf (WebTableHelper.getColumnIndex Sample.env "email" (Some exact)
               Sample.helper Sample.world) = Some (Return 2).
Proof.
  assert (Ht : trim "email" = "email") by reflexivity.
  assert (O : outcomeOf (WebTableHelper.getColumnIndex Sample.env "email"
                           (Some exact) Sample.helper Sample.world)
              = Some (Return 2)) by (vm_compute; reflexivity).
  split; [exact Ht|]. split; [|exact O].
  exact (proj2 (proj1 (column_index_by_name_is_exact_index_plus_one Sample.env
                         Sample.webTableLocators "email" Sample.tablePage
                         Sample.helper Sample.world Ht eq_refl) 2) O).
Defined.

(** ** WebTablePage.getRandomRowName *)

Section RandomRow.

Import WebTablePageRows.
Context (E : Env) {R : WebTableRowLocators}.

(** The loop reads without changing the pages, keeps names of the kind
    [keptRowName], and fails only where the library does. *)
Lemma collectRowNames_spec pg self (counted n : nat) :
  forall (i : nat) (rowNames : list string) (w : World) o s' w',
    (1 <= i)%nat -> (i + n <= counted)%nat ->
    Forall (keptRowName (browser w) pg counted) rowNames ->
    collectRowNames E pg i n rowNames self w = Some (o, s', w') ->
    browser w' = browser w /\
    (forall e, o = Throw e -> exists ev, e = libraryError E ev) /\
    (forall names, o = Return names ->
                   Forall (keptRowName (browser w) pg counted) names).
Proof.
  induction n as [|n IH]; intros i rowNames w o s' w' Hi Hc Hn Run;
    cbn [collectRowNames] in Run.
  - unfold ret in Run. injection Run as <- _ <-. split; [reflexivity|].
    split; [intros e He; discriminate|].
    intros names Hr. now injection Hr as <-.
  - unfold bind at 1 in Run. unfold innerText, onElement in Run.
    fold (firstCellOfRow pg i) in Run.
    set (w1 := call E (InnerText (firstCellOfRow pg i)) w) in *.
    assert (B1 : browser w1 = browser w) by now apply browser_call_read.
    destruct (single (browser w1) (firstCellOfRow pg i)) as [cell|] eqn:Sg.
    + destruct (isEmpty (trim (el_innerText cell))) eqn:Em.
      * apply IH in Run; [|lia|lia|now rewrite B1].
        rewrite B1 in Run. exact Run.
      * apply IH in Run; [rewrite B1 in Run; exact Run | lia | lia |].
        rewrite B1. apply Forall_app. split; [exact Hn|].
        constructor; [|constructor]. split.
        -- intros Z. now rewrite Z in Em.
        -- exists i, cell. rewrite <- B1. split; [lia|]. now split.
    + injection Run as <- _ <-. split; [exact B1|].
      split; [|intros names Hr; discriminate].
      intros e He. injection He as <-. eexists. reflexivity.
Qed.

End RandomRow.

(** X18. With a draw inside the list, [getRandomRowName] returns a name it
    has kept: the trimmed text, not empty, of the first cell of a row by role
    at an index from 1 to one less than the number of elements its rows
    selector has counted; the row at index 0 and the rows from that number on
    are never drawn. Its error "No rows found in the table" is never thrown:
    when the wait for the first row has succeeded, the count that follows
    (which sees the page the wait left) is at least one. *)
Theorem getRandomRowName_returns_a_kept_name :
  forall (E : Env) (R : WebTableRowLocators) (randomFloor : nat -> nat)
         (self : WebTablePage.t) (w : World) o s' w',
    (forall n, (0 < n)%nat -> (randomFloor n < n)%nat) ->
    WebTablePageRows.getRandomRowName E randomFloor self w = Some (o, s', w') ->
    o <> Throw WebTablePageRows.noRowsFound /\
    forall r, o = Return r ->
              exists name,
                r = Some name /\
                keptRowName (browser w') (WebTablePage.page self)
                  (List.length
                     (resolve (browser w')
                        (Root (WebTablePage.page self) (Css webTableRowsLocator))))
                  name.
Proof.
  intros E R randomFloor self w o s' w' Hdraw Run.
  unfold WebTablePageRows.getRandomRowName in Run. cbv zeta in Run.
  unfold bind at 1, this in Run. unfold bind at 1 in Run.
  set (rows := Root (WebTablePage.page self) (Css webTableRowsLocator)) in *.
  unfold waitFor, onElement in Run.
  set (w1 := call E (WaitForVisible (First rows) 5000) w) in *.
  destruct (single (browser w1) (First rows)) as [x|] eqn:Sg.
  2:{ injection Run as <- _ _. split; [discriminate | intros r Hr; discriminate]. }
  destruct (ifVisible x) as [[]|].
  2:{ injection Run as <- _ _. split; [discriminate | intros r Hr; discriminate]. }
  unfold bind at 1 in Run.
  rewrite count_run in Run by exact webTableRowsLocator_parses.
  set (w2 := call E (Count rows) w1) in *.
  assert (B2 : browser w2 = browser w1) by now apply browser_call_read.
  assert (N : List.length (resolve (browser w1) rows) <> 0%nat).
  { unfold single in Sg. cbn [resolve] in Sg.
    destruct (resolve (browser w1) rows); [discriminate | cbn; lia]. }
  apply Nat.eqb_neq in N. rewrite N in Run.
  unfold bind at 1 in Run.
  destruct (WebTablePageRows.collectRowNames E (WebTablePage.page self) 1 _ []
              self w2) as [[[[names|e] s2] w3]|] eqn:C; [| |discriminate].
  - apply (collectRowNames_spec E _ _ (List.length (resolve (browser w1) rows)))
      in C as [B3 [_ K]]; [|lia|apply Nat.eqb_neq in N; lia|constructor].
    specialize (K names eq_refl). rewrite B2 in B3, K.
    destruct (List.length names =? 0)%nat eqn:Len.
    + unfold throw in Run. injection Run as <- _ _.
      split; [discriminate | intros r Hr; discriminate].
    + unfold ret in Run. injection Run as <- _ <-.
      split; [discriminate|]. intros r Hr. injection Hr as <-.
      apply Nat.eqb_neq in Len.
      destruct (nth_error names (randomFloor (List.length names)))
        as [name|] eqn:Nth.
      * exists name. split; [reflexivity|]. fold rows. rewrite B3.
        apply nth_error_In in Nth.
        rewrite Forall_forall in K. now apply K.
      * apply nth_error_None in Nth.
        specialize (Hdraw (List.length names)). lia.
  - apply (collectRowNames_spec E _ _ (List.length (resolve (browser w1) rows)))
      in C as [_ [T _]]; [|lia|apply Nat.eqb_neq in N; lia|constructor].
    destruct (T e eq_refl) as [ev ->].
    injection Run as <- _ _. split; [discriminate | intros r Hr; discriminate].
Qed.

(** X18 on the sample table, drawing the last name of the list. *)
Lemma getRandomRowName_returns_a_kept_name_witness :
  let r := WebTablePageRows.getRandomRowName Sample.env
             (R := MoreSamples.rowLocators) pred Sample.tablePage
             MoreSamples.bodyRowsWorld in
  (forall n, (0 < n)%nat -> (pred n < n)%nat) /\
  outcomeOf r = Some (Return (Some "Alden")) /\
  keptRowName (browser (worldOf r MoreSamples.bodyRowsWorld))
    (WebTablePage.page Sample.tablePage)
    (List.length
       (resolve (browser (worldOf r MoreSamples.bodyRowsWorld))
          (Root (WebTablePage.page Sample.tablePage)
                (Css (webTableRowsLocator (WebTableRowLocators := MoreSamples.rowLocators))))))
    "Alden".
Proof.
  intros r.
  assert (Hd : forall n, (0 < n)%nat -> (pred n < n)%nat) by (intros n Hn; lia).
  assert (O : outcomeOf r = Some (Return (Some "Alden")))
    by (vm_compute; reflexivity).
  split; [exact Hd|]. split; [exact O|].
  destruct r as [[[o s'] w']|] eqn:Run; [|discriminate].
  cbn [outcomeOf] in O. injection O as ->. cbn [worldOf].
  destruct (proj2 (getRandomRowName_returns_a_kept_name Sample.env
                     MoreSamples.rowLocators pred Sample.tablePage
                     MoreSamples.bodyRowsWorld _ s' w' Hd Run)
                  (Some "Alden") eq_refl) as [name [Hn K]].
  injection Hn as <-. exact K.
Defined.

(** ** WebTablePage.getTableCellValue *)

(** X19. What [getTableCellValue] returns is the trimmed inner text (which
    may be empty) of the one visible element under the cell selector built
    from the row name and the 1-based position of the first header equal to
    the column name. *)
Theorem getTableCellValue_reads_cell_under_one_based_index :
  forall (E : Env) (L : WebTablePageLocators) (rowName columnName : string)
         (self : WebTablePage.t) (w : World) r s' w',
    WebTablePage.getTableCellValue E rowName columnName self w
    = Some (Return r, s', w') ->
    exists (i : nat) (cell : Node),
      isFirst (headerEquals columnName)
              (map el_innerText (resolve (browser w) (columnHeaders self))) i /\
      single (browser w')
             (Root (WebTablePage.page self)
                   (Css (webTableCellLocator rowName (Z.of_nat i + 1))))
      = Some cell /\
      el_visible cell = true /\
      r = trim (el_innerText cell).
Proof.
  intros E L rowName columnName self w r s' w' Run.
  unfold WebTablePage.getTableCellValue in Run. unfold bind at 1 in Run.
  destruct (getTableColumnIndexByName_cases E columnName self w)
    as [[i [w0 [R [_ F]]]] | [w0 [R _]]]; rewrite R in Run; [|discriminate].
  unfold bind at 1, this in Run. cbv zeta in Run.
  unfold bind at 1, tryCatch, waitFor, onElement in Run.
  set (cellLoc := Root (WebTablePage.page self)
                       (Css (webTableCellLocator rowName (Z.of_nat i + 1)))) in *.
  set (w1 := call E (WaitForVisible cellLoc 60000) w0) in *.
  destruct (single (browser w1) cellLoc) as [cell|] eqn:Sg; [|discriminate].
  unfold ifVisible in Run.
  destruct (el_visible cell) eqn:V; [|discriminate].
  unfold bind at 1, innerText, onElement in Run.
  assert (B2 : browser (call E (InnerText cellLoc) w1) = browser w1)
    by now apply browser_call_read.
  rewrite B2, Sg in Run. unfold ret in Run. injection Run as <- _ <-.
  exists i, cell. rewrite B2. fold cellLoc.
  split; [exact F|]. split; [exact Sg|]. split; [exact V | reflexivity].
Qed.

(** X19 on the sample page: the e-mail address of Cierra. *)
Lemma getTableCellValue_reads_cell_under_one_based_index_witness :
  let r := WebTablePage.getTableCellValue Sample.env
             (L := Sample.webTableLocators) "Cierra" "Email"
             Sample.tablePage MoreSamples.cellWorld in
  outcomeOf r = Some (Return "cierra@example.com") /\
  exists (i : nat) (cell : Node),
    single (browser (worldOf r MoreSamples.cellWorld))
           (Root (WebTablePage.page Sample.tablePage)
                 (Css (webTableCellLocator (WebTablePageLocators := Sample.webTableLocators)
                         "Cierra" (Z.of_nat i + 1))))
    = Some cell /\
    "cierra@example.com" = trim (el_innerText cell).
Proof.
  intros r.
  assert (O : outcomeOf r = Some (Return "cierra@example.com"))
    by (vm_compute; reflexivity).
  split; [exact O|].
  destruct r as [[[o s'] w']|] eqn:Run; [|discriminate].
  cbn [outcomeOf] in O. injection O as ->. cbn [worldOf].
  destruct (getTableCellValue_reads_cell_under_one_based_index Sample.env
              Sample.webTableLocators "Cierra" "Email" Sample.tablePage
              MoreSamples.cellWorld _ s' w' Run) as [i [cell [_ [Sg [_ T]]]]].
  now exists i, cell.
Defined.

(** ** Which failures come before the first action *)

Section Failing.

Context (E : Env) {Self : Type}.

Lemma prepares_this : prepares (this (Self := Self)).
Proof.
  intros s w o s' w' H. unfold this in H. injection H as <- _ <-.
  exists []. rewrite app_nil_r. split; [reflexivity|].
  split; [constructor | intros e He; discriminate].
Qed.

Lemma prepares_throw {A} msg : prepares (throw (Self := Self) (A := A) (Error msg)).
Proof.
  intros s w o s' w' H. unfold throw in H. injection H as <- _ <-.
  exists []. rewrite app_nil_r. split; [reflexivity|].
  split; [constructor|]. intros e He. injection He as <-. now exists msg.
Qed.

Lemma prepares_guard l timeout (mk : Exn -> Exn) :
  (forall e, exists msg, mk e = Error msg) ->
  prepares (tryCatch (waitFor (Self := Self) E l timeout)
                     (fun error => throw (mk error))).
Proof.
  intros Hmk s w o s' w' H. unfold tryCatch in H.
  destruct (onElement_cases E (WaitForVisible l timeout) l ifVisible s w)
    as [o1 [R C]].
  unfold waitFor in H. rewrite R in H.
  exists [WaitForVisible l timeout].
  destruct C as [[a ->] | ->].
  - injection H as <- _ <-. split; [reflexivity|].
    split; [now repeat constructor | intros e He; discriminate].
  - unfold throw in H. injection H as <- _ <-. split; [reflexivity|].
    split; [now repeat constructor|].
    intros e He. injection He as <-. apply Hmk.
Qed.

Lemma performs_onElement {A} ev l (f : Node -> option A) :
  acts ev = true -> performs E (onElement (Self := Self) E ev l f).
Proof.
  intros Ha s w o s' w' H.
  destruct (onElement_cases E ev l f s w) as [o1 [R C]].
  rewrite R in H. injection H as <- _ <-.
  exists [ev]. split; [reflexivity|].
  intros e He. destruct C as [[a ->] | ->]; [discriminate|].
  injection He as <-. now exists [], ev.
Qed.

Lemma performs_ret {A} (a : A) : performs E (ret (Self := Self) a).
Proof.
  intros s w o s' w' H. unfold ret in H. injection H as <- _ <-.
  exists []. rewrite app_nil_r. split; [reflexivity | intros e He; discriminate].
Qed.

Lemma performs_keyboardPress pg key :
  performs E (keyboardPress (Self := Self) E pg key).
Proof.
  intros s w o s' w' H. unfold keyboardPress in H. injection H as <- _ <-.
  exists [KeyboardPress pg key].
  split; [reflexivity | intros e He; discriminate].
Qed.

Lemma performs_waitForTimeout pg ms :
  performs E (waitForTimeout (Self := Self) E pg ms).
Proof.
  intros s w o s' w' H. unfold waitForTimeout in H. injection H as <- _ <-.
  exists [WaitForTimeout pg ms].
  split; [reflexivity | intros e He; discriminate].
Qed.

Lemma performs_bind {A B} (m : M Self A) (k : A -> M Self B) :
  performs E m -> (forall a, performs E (k a)) -> performs E (bind m k).
Proof.
  intros Hm Hk s w o s' w' H. unfold bind in H.
  destruct (m s w) as [[[[a|e] s1] w1]|] eqn:R; try discriminate.
  - apply Hm in R as [e1 [L1 _]]. apply Hk in H as [e2 [L2 T]].
    exists (e1 ++ e2)%list. split; [now rewrite L2, L1, app_assoc|].
    intros e He. destruct (T e He) as [before [ev [-> [Ha ->]]]].
    exists (e1 ++ before)%list, ev. now rewrite app_assoc.
  - injection H as <- <- <-. apply Hm in R as [evs [Lg T]].
    exists evs. split; [exact Lg|].
    intros e0 He. injection He as <-. exact (T e eq_refl).
Qed.

Lemma fails_performs {A} (m : M Self A) :
  performs E m -> failsBeforeActing E m.
Proof.
  intros Hm s w e s' w' H. apply Hm in H as [evs [Lg T]].
  exists evs. split; [exact Lg|].
  destruct (T e eq_refl) as [before [ev [-> [Ha ->]]]].
  unfold libraryError at 1. now exists before, ev.
Qed.

Lemma fails_prepares {A} (m : M Self A) :
  prepares m -> failsBeforeActing E m.
Proof.
  intros Hm s w e s' w' H. apply Hm in H as [evs [Lg [F T]]].
  exists evs. split; [exact Lg|].
  now destruct (T e eq_refl) as [msg ->].
Qed.

Lemma fails_seq {A B} (m : M Self A) (k : A -> M Self B) :
  prepares m -> (forall a, failsBeforeActing E (k a)) ->
  failsBeforeActing E (bind m k).
Proof.
  intros Hm Hk s w e s' w' H. unfold bind in H.
  destruct (m s w) as [[[[a|e1] s1] w1]|] eqn:R; try discriminate.
  - apply Hm in R as [e1 [L1 [F1 _]]]. apply Hk in H as [e2 [L2 T]].
    exists (e1 ++ e2)%list. split; [now rewrite L2, L1, app_assoc|].
    destruct e as [msg|name msg].
    + now apply Forall_app.
    + destruct T as [before [ev [-> [Ha He]]]].
      exists (e1 ++ before)%list, ev. now rewrite app_assoc.
  - injection H as <- <- <-. apply Hm in R as [evs [Lg [F T]]].
    exists evs. split; [exact Lg|]. now destruct (T e1 eq_refl) as [msg ->].
Qed.

End Failing.

Lemma performs_typeValues (E : Env) pg l (values : list string) :
  performs E (CommonUserActionsPage.typeValues E pg l values).
Proof.
  induction values as [|v values IH]; cbn [CommonUserActionsPage.typeValues].
  - apply performs_ret.
  - apply performs_bind; [now apply performs_onElement | intros _].
    apply performs_bind; [apply performs_waitForTimeout | intros _].
    apply performs_bind; [apply performs_keyboardPress | intros _].
    exact IH.
Qed.

Lemma fill_fails (E : Env) {Self} l value (s : Self) w e s' w' :
  fill E l value s w = Some (Throw e, s', w') ->
  e = libraryError E (Fill l value) /\ w' = call E (Fill l value) w.
Proof.
  intros H. unfold fill in H.
  destruct (onElement_cases E (Fill l value) l ifFillable s w) as [o [R C]].
  rewrite R in H. injection H as -> _ <-.
  destruct C as [[a C] | C]; [discriminate|]. now injection C as ->.
Qed.

Lemma inputOnField_fails_with_nothing_done (E : Env) {L : CommonLocators}
    fieldName textInput :
  failsWithNothingDone E
    (CommonUserActionsPage.inputOnField E fieldName textInput).
Proof.
  intros self w e s' w' H. rewrite inputOnField_run in H. cbv zeta in H.
  set (pg := CommonUserActionsPage.page self) in *.
  set (l1 := Root pg (RoleNamed "textbox" fieldName)) in *.
  set (l2 := Root pg (Label fieldName)) in *.
  set (l3 := Root pg (Placeholder fieldName)) in *.
  set (l4 := Root pg (Css (inputFieldLocator fieldName))) in *.
  assert (Fills : forall (counts : list Locator) l w0,
             log w0 = (log w ++ map Count counts)%list ->
             fill E l textInput self w0 = Some (Throw e, s', w') ->
             exists evs,
               log w' = (log w ++ evs)%list /\
               match e with
               | Error _ => Forall (fun ev => acts ev = false) evs
               | LibraryError _ _ =>
                   exists before ev,
                     evs = (before ++ [ev])%list /\
                     Forall (fun ev => acts ev = false) before /\
                     e = libraryError E ev
               end).
  { intros counts l w0 Lg F. apply fill_fails in F as [-> ->].
    exists (map Count counts ++ [Fill l textInput])%list. split.
    - cbn [call log]. now rewrite Lg, app_assoc.
    - unfold libraryError at 1. exists (map Count counts), (Fill l textInput).
      split; [reflexivity|]. split; [|reflexivity].
      apply Forall_forall. intros ev Hev.
      apply in_map_iff in Hev as [l' [<- _]]. reflexivity. }
  destruct (resolve (browser w) l1) as [|x1 r1].
  2:{ refine (Fills [l1] l1 _ _ H). reflexivity. }
  destruct (resolve (browser w) l2) as [|x2 r2].
  2:{ refine (Fills [l1; l2] l2 _ _ H).
      cbn [call log map]. now rewrite <- !app_assoc. }
  destruct (resolve (browser w) l3) as [|x3 r3].
  2:{ refine (Fills [l1; l2; l3] l3 _ _ H).
      cbn [call log map]. now rewrite <- !app_assoc. }
  destruct (resolve (browser w) l4) as [|x4 r4].
  2:{ refine (Fills [l1; l2; l3; l4] l4 _ _ H).
      cbn [call log map]. now rewrite <- !app_assoc. }
  destruct (parses (inputFieldLocator fieldName)); injection H as <- _ <-.
  - exists (map Count [l1; l2; l3; l4]). split.
    + cbn [call log map]. now rewrite <- !app_assoc.
    + unfold CommonUserActionsPage.inputFieldNotFound.
      now repeat constructor.
  - exists (map Count [l1; l2; l3; l4]). split.
    + cbn [call log map]. now rewrite <- !app_assoc.
    + unfold libraryError at 1. exists (map Count [l1; l2; l3]), (Count l4).
      split; [reflexivity|]. split; [now repeat constructor | reflexivity].
Qed.

(** X20. In the methods of [CommonUserActionsPage] that wait for their
    element inside [try], and in [clickOnTableRowEditIcon], an [Error] of
    the repository's own making is thrown only while nothing has yet been
    filled, clicked, typed or pressed. Once the wait has succeeded the
    failures are no longer wrapped: what is thrown is the library's
    exception for the acting call that failed, and that call is the last
    one logged. [inputOnField], which counts instead of waiting, has acted
    on nothing before the call that failed, whatever it throws: its own
    [Error] after the counts, or the library's exception for the call
    logged last, the fill or a count the library rejected. *)
Theorem own_errors_precede_every_action :
  forall E : Env,
    (forall (L : CommonLocators),
        (forall f t, failsWithNothingDone E (CommonUserActionsPage.inputOnField E f t)) /\
        (forall b, failsBeforeActing E (CommonUserActionsPage.clickOnButton E b)) /\
        (forall f t, failsBeforeActing E (CommonUserActionsPage.inputOnTextField E f t)) /\
        (forall f vs, failsBeforeActing E (CommonUserActionsPage.inputMultiValues E f vs)) /\
        (forall l, failsBeforeActing E (CommonUserActionsPage.selectCheckbox E l)) /\
        (forall l, failsBeforeActing E (CommonUserActionsPage.selectRadioButton E l)) /\
        (forall f d, failsBeforeActing E (CommonUserActionsPage.selectDate E f d))) /\
    (forall (L : WebTablePageLocators) r,
        failsBeforeActing E (WebTablePage.clickOnTableRowEditIcon E r)).
Proof.
  intros E. split; [intros L; repeat split; intros | intros L r].
  - apply inputOnField_fails_with_nothing_done.
  - unfold CommonUserActionsPage.clickOnButton. cbv zeta.
    apply fails_seq; [apply prepares_this | intros self].
    apply fails_seq; [apply prepares_guard; intros e; eexists; reflexivity | intros _].
    apply fails_performs. now apply performs_onElement.
  - unfold CommonUserActionsPage.inputOnTextField. cbv zeta.
    apply fails_seq; [apply prepares_this | intros self].
    apply fails_seq; [apply prepares_guard; intros e; eexists; reflexivity | intros _].
    apply fails_performs.
    apply performs_bind; [now apply performs_onElement | intros _].
    now apply performs_onElement.
  - unfold CommonUserActionsPage.inputMultiValues. cbv zeta.
    destruct (_ || _).
    + apply fails_prepares. apply prepares_throw.
    + apply fails_seq; [apply prepares_this | intros self].
      apply fails_seq; [apply prepares_guard; intros e; eexists; reflexivity | intros _].
      apply fails_performs. apply performs_typeValues.
  - unfold CommonUserActionsPage.selectCheckbox. cbv zeta.
    apply fails_seq; [apply prepares_this | intros self].
    apply fails_seq; [apply prepares_guard; intros e; eexists; reflexivity | intros _].
    apply fails_performs. now apply performs_onElement.
  - unfold CommonUserActionsPage.selectRadioButton. cbv zeta.
    apply fails_seq; [apply prepares_this | intros self].
    apply fails_seq; [apply prepares_guard; intros e; eexists; reflexivity | intros _].
    apply fails_performs. now apply performs_onElement.
  - unfold CommonUserActionsPage.selectDate. cbv zeta.
    apply fails_seq; [apply prepares_this | intros self].
    apply fails_seq; [apply prepares_guard; intros e; eexists; reflexivity | intros _].
    apply fails_performs.
    apply performs_bind; [now apply performs_onElement | intros _].
    apply performs_bind; [now apply performs_onElement | intros _].
    now apply performs_onElement.
  - unfold WebTablePage.clickOnTableRowEditIcon. cbv zeta.
    apply fails_seq; [apply prepares_this | intros self].
    apply fails_seq; [apply prepares_guard; intros e; eexists; reflexivity | intros _].
    apply fails_performs. now apply performs_onElement.
Qed.

(** X20 on the form: two check boxes answer to "Terms", so the wait fails,
    the method throws its own [Error], and nothing has been clicked. *)
Lemma own_errors_precede_every_action_witness :
  let r := CommonUserActionsPage.selectCheckbox Sample.env
             (L := Sample.commonLocators) "Terms" Sample.actions
             MoreSamples.formWorld in
  (exists msg, outcomeOf r = Some (Throw (Error msg))) /\
  Forall (fun ev => acts ev = false) (log (worldOf r MoreSamples.formWorld)).
Proof.
  intros r.
  assert (O : exists msg, outcomeOf r = Some (Throw (Error msg)))
    by (vm_compute; eexists; reflexivity).
  split; [exact O|].
  destruct r as [[[o s'] w']|] eqn:Run; [|destruct O; discriminate].
  destruct O as [msg O]. cbn [outcomeOf] in O. injection O as ->. cbn [worldOf].
  destruct (proj1 (proj2 (proj2 (proj2 (proj2
              (proj1 (own_errors_precede_every_action Sample.env)
                     Sample.commonLocators)))))
              "Terms" Sample.actions MoreSamples.formWorld _ s' w' Run)
    as [evs [Lg F]].
  rewrite Lg. exact F.
Defined.

(** ** Failures to find the target, by operation *)



